(** * The migration planner of [nx migrate]: a shallow embedding

    The development follows [packages/nx/src/command-line/migrate.ts]:
    the semver helpers ([normalizeVersion]), the command-line parser
    ([parseTargetPackageAndVersion]), the planner (class [Migrator]) and
    the plan writer ([addSplitConfigurationMigrationIfAvailable]).

    JavaScript strings are [string], a character standing for a UTF-16
    code unit below 256; a JavaScript object used as a record keyed by
    package names is the list of its properties in the order of
    [Object.keys] ([Obj]); an operation that can throw returns a
    [Result]; the planner's mutable fields are threaded explicitly as a
    [State].

    The planner is asynchronous.  Its executable model ([Migrator])
    runs the calls of a [Promise.all] one after the other; it is the
    code's run when every [Promise.all] of the run has at most one call,
    and it serves for single calls and for such runs.  What holds of a
    planning run under every interleaving is stated on the sequences of
    the planner's writes ([planner_run], [visit_run]). *)

From Stdlib Require Import String Ascii List NArith ZArith Bool Lia.
From Stdlib Require Import Relations.Relation_Operators.
From Stdlib Require Import Sorting.Permutation Sorting.Sorted.
Import ListNotations.
Local Open Scope string_scope.

(** ** JavaScript string primitives used by the source *)

Module JS.

(** [s.split(c)] for a one-character separator: never empty, and
    [split c "" = [""]]. *)
Fixpoint split (c : ascii) (s : string) : list string :=
  match s with
  | EmptyString => [EmptyString]
  | String a s' =>
      if Ascii.eqb a c then EmptyString :: split c s'
      else match split c s' with
           | [] => [String a EmptyString]
           | p :: ps => String a p :: ps
           end
  end.

(** A destructured array element: [undefined] when out of range. *)
Definition at_index (l : list string) (i : nat) : option string :=
  nth_error l i.

(** Truthiness of a value that is a string or [undefined]/[null]. *)
Definition truthy (o : option string) : bool :=
  match o with
  | Some EmptyString | None => false
  | Some _ => true
  end.

(** The template fragment [${x || 0}]. *)
Definition or_zero (o : option string) : string :=
  match o with
  | Some EmptyString | None => "0"
  | Some s => s
  end.

Definition is_digit (c : ascii) : bool :=
  let n := N_of_ascii c in ((48 <=? n) && (n <=? 57))%N.

Definition is_alpha (c : ascii) : bool :=
  let n := N_of_ascii c in
  (((65 <=? n) && (n <=? 90)) || ((97 <=? n) && (n <=? 122)))%N.

(** White space and line terminators removed by
    [String.prototype.trim], among the code units below 256: tab, line
    feed, vertical tab, form feed, carriage return, space and the
    no-break space U+00A0. *)
Definition is_space (c : ascii) : bool :=
  let n := N_of_ascii c in
  (((9 <=? n) && (n <=? 13)) || (n =? 32) || (n =? 160))%N.

Fixpoint all_chars (p : ascii -> bool) (s : string) : bool :=
  match s with
  | EmptyString => true
  | String c s' => p c && all_chars p s'
  end.

Fixpoint any_char (p : ascii -> bool) (s : string) : bool :=
  match s with
  | EmptyString => false
  | String c s' => p c || any_char p s'
  end.

Definition nonempty (s : string) : bool :=
  match s with EmptyString => false | _ => true end.

Fixpoint trim_start (s : string) : string :=
  match s with
  | EmptyString => EmptyString
  | String c s' => if is_space c then trim_start s' else s
  end.

Fixpoint trim_end (s : string) : string :=
  match s with
  | EmptyString => EmptyString
  | String c s' =>
      match trim_end s' with
      | EmptyString => if is_space c then EmptyString else String c EmptyString
      | t => String c t
      end
  end.

Definition trim (s : string) : string := trim_end (trim_start s).

(** [s.indexOf(c)] and [s.lastIndexOf(c)]; [None] stands for [-1]. *)
Fixpoint indexOf (c : ascii) (s : string) : option nat :=
  match s with
  | EmptyString => None
  | String a s' =>
      if Ascii.eqb a c then Some 0 else option_map S (indexOf c s')
  end.

Fixpoint lastIndexOf (c : ascii) (s : string) : option nat :=
  match s with
  | EmptyString => None
  | String a s' =>
      match lastIndexOf c s' with
      | Some i => Some (S i)
      | None => if Ascii.eqb a c then Some 0 else None
      end
  end.

(** [s.substring(i, j)] and [s.substring(i)] for [i <= j]. *)
Definition substring (i j : nat) (s : string) : string :=
  String.substring i (j - i) s.

Definition substring_from (i : nat) (s : string) : string :=
  String.substring i (String.length s - i) s.

(** [s.includes(t)]. *)
Fixpoint includes (t s : string) : bool :=
  String.prefix t s
  || match s with
     | EmptyString => false
     | String _ s' => includes t s'
     end.

(** The decimal value of a string of digits. *)
Fixpoint decimal_from (acc : N) (s : string) : N :=
  match s with
  | EmptyString => acc
  | String c s' => decimal_from (10 * acc + (N_of_ascii c - 48))%N s'
  end.

Definition decimal (s : string) : N := decimal_from 0%N s.

(** The pattern [/^\d+(?:\.\d+)?(?:\.\d+)?$/]. *)
Definition digit_run (s : string) : bool :=
  nonempty s && all_chars is_digit s.

Definition matches_partial_version (s : string) : bool :=
  match split "." s with
  | [a] => digit_run a
  | [a; b] => digit_run a && digit_run b
  | [a; b; c] => digit_run a && digit_run b && digit_run c
  | _ => false
  end.

End JS.

(** ** The [semver] package (7.3.4, strict mode)

    [semver] is a third-party dependency of the source, not part of it.
    The model follows [classes/semver.js], [internal/re.js],
    [internal/identifiers.js] and [functions/parse.js] of the package:
    the pattern [FULL] is
    [^v?MAJOR.MINOR.PATCH(-PRERELEASE)?(+BUILD)?$] with numeric
    identifiers free of leading zeros; the constructor rejects a text of
    more than 256 characters, trims it, matches it against [FULL] and
    rejects a main component above [Number.MAX_SAFE_INTEGER].  Where the
    package throws a [TypeError] or returns [null] the model returns
    [None].  Numbers are IEEE doubles: [toNumber] is the conversion [+id]
    of a run of digits, which rounds from 2^53 on. *)

Module Semver.

(** A prerelease identifier as the constructor stores it: a number when
    it is a run of digits below [MAX_SAFE_INTEGER], its text otherwise
    (so a run of digits from [MAX_SAFE_INTEGER] on is kept as text). *)
Inductive Identifier :=
| Numeric (n : N)
| Alphanumeric (s : string).

Record SemVer := mkSemVer {
  major : N;
  minor : N;
  patch : N;
  prerelease : list Identifier
}.

Definition MAX_LENGTH : nat := 256.
Definition MAX_SAFE_INTEGER : N := 9007199254740991.

(** The double nearest to a natural number, ties to even, as a natural
    number: 53 significant bits are kept.  (A text of at most 256 digits
    is below 2^1024, so the conversion never overflows.) *)
Definition roundToDouble (n : N) : N :=
  let e := (N.size n - 53)%N in
  if (e =? 0)%N then n
  else
    let q := N.shiftr n e in
    let r := (n - N.shiftl q e)%N in
    let half := N.shiftl 1 (e - 1) in
    if (half <? r)%N || ((r =? half)%N && N.odd q)
    then N.shiftl (q + 1) e
    else N.shiftl q e.

(** [+id] on a run of digits. *)
Definition toNumber (digits : string) : N := roundToDouble (JS.decimal digits).

Definition is_id_char (c : ascii) : bool :=
  JS.is_digit c || JS.is_alpha c || Ascii.eqb c "-".

(** [0|[1-9]\d*] *)
Definition numeric_identifier (s : string) : bool :=
  match s with
  | EmptyString => false
  | String c rest =>
      JS.all_chars JS.is_digit s
      && (negb (Ascii.eqb c "0") || negb (JS.nonempty rest))
  end.

(** [0|[1-9]\d*|\d*[a-zA-Z-][a-zA-Z0-9-]*] *)
Definition prerelease_identifier (s : string) : bool :=
  JS.nonempty s && JS.all_chars is_id_char s
  && (negb (JS.all_chars JS.is_digit s) || numeric_identifier s).

(** [[0-9A-Za-z-]+] *)
Definition build_identifier (s : string) : bool :=
  JS.nonempty s && JS.all_chars is_id_char s.

(** Text before the first occurrence of [c], and the text after it when
    there is one. *)
Fixpoint cut (c : ascii) (s : string) : string * option string :=
  match s with
  | EmptyString => (EmptyString, None)
  | String a s' =>
      if Ascii.eqb a c then (EmptyString, Some s')
      else let '(h, t) := cut c s' in (String a h, t)
  end.

Definition strip_v (s : string) : string :=
  match s with
  | String "v" s' => s'
  | _ => s
  end.

(** The groups of a match of [FULL] that the constructor reads: the
    three numeric identifiers and the prerelease identifiers. *)
Record FullMatch := mkFullMatch {
  group1 : string;
  group2 : string;
  group3 : string;
  group4 : option (list string)
}.

(** [text.match(re[t.FULL])] *)
Definition matchFull (text : string) : option FullMatch :=
  let '(body, build) := cut "+" (strip_v text) in
  let '(main, pre) := cut "-" body in
  let build_ok :=
    match build with
    | None => true
    | Some b => forallb build_identifier (JS.split "." b)
    end in
  let pre_ok :=
    match pre with
    | None => true
    | Some p => forallb prerelease_identifier (JS.split "." p)
    end in
  match JS.split "." main with
  | [a; b; c] =>
      if numeric_identifier a && numeric_identifier b && numeric_identifier c
         && pre_ok && build_ok
      then Some (mkFullMatch a b c (option_map (JS.split ".") pre))
      else None
  | _ => None
  end.

(** The callback that numberifies a prerelease identifier. *)
Definition identifier (id : string) : Identifier :=
  if JS.digit_run id
  then let num := toNumber id in
       if (num <? MAX_SAFE_INTEGER)%N then Numeric num else Alphanumeric id
  else Alphanumeric id.

(** [new SemVer(version)]; [None] when the constructor throws. *)
Definition construct (version : string) : option SemVer :=
  if Nat.ltb MAX_LENGTH (String.length version) then None else
  match matchFull (JS.trim version) with
  | None => None
  | Some m =>
      let major := toNumber (group1 m) in
      let minor := toNumber (group2 m) in
      let patch := toNumber (group3 m) in
      if ((major <=? MAX_SAFE_INTEGER) && (minor <=? MAX_SAFE_INTEGER)
          && (patch <=? MAX_SAFE_INTEGER))%N
      then Some (mkSemVer major minor patch
                   match group4 m with
                   | Some ids => map identifier ids
                   | None => []
                   end)
      else None
  end.

(** [parse(version)]: the text is tested against [FULL] as it is, not
    trimmed, before the constructor is called. *)
Definition parse (version : string) : option SemVer :=
  if Nat.ltb MAX_LENGTH (String.length version) then None else
  match matchFull version with
  | Some _ => construct version
  | None => None
  end.

(** [valid(v)] is the version of [parse(v)], or [null]; it is truthy
    exactly when [parse] succeeds. *)
Definition valid (v : string) : bool :=
  match parse v with Some _ => true | None => false end.

Definition then_compare (c d : comparison) : comparison :=
  match c with Eq => d | Lt => Lt | Gt => Gt end.

(** [numeric.test(a)] and [+a] on a stored identifier. *)
Definition numeric (a : Identifier) : bool :=
  match a with
  | Numeric _ => true
  | Alphanumeric s => JS.digit_run s
  end.

Definition number (a : Identifier) : N :=
  match a with
  | Numeric n => n
  | Alphanumeric s => toNumber s
  end.

(** [a === b] on stored identifiers. *)
Definition identical (a b : Identifier) : bool :=
  match a, b with
  | Numeric x, Numeric y => (x =? y)%N
  | Alphanumeric s, Alphanumeric t => String.eqb s t
  | _, _ => false
  end.

(** [compareIdentifiers]: two numeric identifiers by their values as
    doubles, a numeric one before any other, the others in code-unit
    order. *)
Definition compareIdentifiers (a b : Identifier) : comparison :=
  match numeric a, numeric b with
  | true, true => (number a ?= number b)%N
  | true, false => Lt
  | false, true => Gt
  | false, false =>
      match a, b with
      | Alphanumeric s, Alphanumeric t => String.compare s t
      | _, _ => Eq
      end
  end.

(** The loop of [comparePre]: the first pair of identifiers that are not
    identical decides, even when [compareIdentifiers] finds them equal as
    numbers. *)
Fixpoint compareIdentifierLists (p q : list Identifier) : comparison :=
  match p, q with
  | [], [] => Eq
  | [], _ :: _ => Lt
  | _ :: _, [] => Gt
  | a :: p', b :: q' =>
      if identical a b then compareIdentifierLists p' q'
      else compareIdentifiers a b
  end.

(** [comparePre]: a version with a prerelease precedes the same version
    without one. *)
Definition comparePre (p q : list Identifier) : comparison :=
  match p, q with
  | _ :: _, [] => Lt
  | [], _ :: _ => Gt
  | _, _ => compareIdentifierLists p q
  end.

Definition compareMain (a b : SemVer) : comparison :=
  then_compare (major a ?= major b)%N
    (then_compare (minor a ?= minor b)%N (patch a ?= patch b)%N).

(** [compareMain(other) || comparePre(other)] *)
Definition compareSemVer (a b : SemVer) : comparison :=
  then_compare (compareMain a b) (comparePre (prerelease a) (prerelease b)).

(** [compare(a, b)]: [None] when either constructor throws. *)
Definition compare (a b : string) : option comparison :=
  match construct a, construct b with
  | Some x, Some y => Some (compareSemVer x y)
  | _, _ => None
  end.

Definition is_gt (c : comparison) : bool :=
  match c with Gt => true | _ => false end.
Definition is_lt (c : comparison) : bool :=
  match c with Lt => true | _ => false end.

Definition gt (a b : string) : option bool := option_map is_gt (compare a b).
Definition lt (a b : string) : option bool := option_map is_lt (compare a b).
Definition gte (a b : string) : option bool :=
  option_map (fun c => negb (is_lt c)) (compare a b).
Definition lte (a b : string) : option bool :=
  option_map (fun c => negb (is_gt c)) (compare a b).

End Semver.

(** ** [normalizeVersion] and [normalizeVersionWithTagCheck] *)

(** The body of the [for] loop with its [try]/[catch]: the first variation
    for which [gt(variation, '0.0.0')] returns true. *)
Fixpoint firstGreaterThanZero (variations : list string) : option string :=
  match variations with
  | [] => None
  | variation :: rest =>
      match Semver.gt variation "0.0.0" with
      | Some true => Some variation
      | _ => firstGreaterThanZero rest
      end
  end.

Definition variationsToCheck (version : string) : list string :=
  let parts := JS.split "-" version in
  let semver := match parts with s :: _ => s | [] => EmptyString end in
  let prereleaseTag := JS.at_index parts 1 in
  let comps := JS.split "." semver in
  let major := JS.or_zero (JS.at_index comps 0) in
  let minor := JS.or_zero (JS.at_index comps 1) in
  let patch := JS.or_zero (JS.at_index comps 2) in
  let newSemver := major ++ "." ++ minor ++ "." ++ patch in
  let newVersion :=
    match prereleaseTag with
    | Some (String _ _ as tag) => newSemver ++ "-" ++ tag
    | _ => newSemver
    end in
  let withoutPatch := major ++ "." ++ minor ++ ".0" in
  let withoutPatchAndMinor := major ++ ".0.0" in
  [newVersion; newSemver; withoutPatch; withoutPatchAndMinor].

Definition normalizeVersion (version : string) : string :=
  match firstGreaterThanZero (variationsToCheck version) with
  | Some variation => variation
  | None => "0.0.0"
  end.

Definition normalizeVersionWithTagCheck (version : string) : string :=
  if String.eqb version "latest" || String.eqb version "next" then version
  else normalizeVersion version.


(** ** Records keyed by strings

    A JavaScript object used as a map, as the list of its own properties
    in the enumeration order of [Object.keys]: the keys that are
    canonical array indices first, in ascending numeric order, then the
    other keys in insertion order; an assignment to an existing key keeps
    its position.  An object that is given (a parsed document, a
    manifest) is given in that order.  Properties inherited from
    [Object.prototype] are not modelled: a key such as ["constructor"] is
    outside the model. *)

Module Obj.

Definition t (V : Type) : Type := list (string * V).

Definition empty {V} : t V := [].

Fixpoint get {V} (k : string) (o : t V) : option V :=
  match o with
  | [] => None
  | (k', v) :: rest => if String.eqb k' k then Some v else get k rest
  end.

(** A canonical array index: the decimal text, without leading zeros, of
    an integer below 2^32 - 1. *)
Definition arrayIndex (k : string) : option N :=
  match k with
  | EmptyString => None
  | String c rest =>
      if JS.all_chars JS.is_digit k
         && (negb (Ascii.eqb c "0") || negb (JS.nonempty rest))
         && (JS.decimal k <? 4294967295)%N
      then Some (JS.decimal k) else None
  end.

(** Assignment to a key the object has. *)
Fixpoint replace {V} (k : string) (v : V) (o : t V) : t V :=
  match o with
  | [] => []
  | (k', v') :: rest =>
      if String.eqb k' k then (k', v) :: rest else (k', v') :: replace k v rest
  end.

(** A new array index [n] goes before the first key that is not an array
    index or is a greater one. *)
Fixpoint insertIndex {V} (n : N) (k : string) (v : V) (o : t V) : t V :=
  match o with
  | [] => [(k, v)]
  | (k', v') :: rest =>
      match arrayIndex k' with
      | Some m =>
          if (m <? n)%N then (k', v') :: insertIndex n k v rest
          else (k, v) :: o
      | None => (k, v) :: o
      end
  end.

(** [o[k] = v] *)
Definition set {V} (k : string) (v : V) (o : t V) : t V :=
  match get k o with
  | Some _ => replace k v o
  | None =>
      match arrayIndex k with
      | Some n => insertIndex n k v o
      | None => (o ++ [(k, v)])%list
      end
  end.

Definition keys {V} (o : t V) : list string := map fst o.
Definition values {V} (o : t V) : list V := map snd o.
Definition entries {V} (o : t V) : list (string * V) := o.

(** [{ ...target, ...source }] and [Object.entries(source).forEach(
    ([k, v]) => target[k] = v)]. *)
Definition assign {V} (target source : t V) : t V :=
  fold_left (fun acc kv => set (fst kv) (snd kv) acc) source target.

End Obj.

(** ** Results of operations that can throw *)

Inductive Result (A : Type) : Type :=
| Ok (a : A)
| Throw (message : string)
| OutOfFuel.

Arguments Ok {A} a.
Arguments Throw {A} message.
Arguments OutOfFuel {A}.

Definition bindR {A B} (r : Result A) (f : A -> Result B) : Result B :=
  match r with
  | Ok a => f a
  | Throw m => Throw m
  | OutOfFuel => OutOfFuel
  end.

Fixpoint mapR {A B} (f : A -> Result B) (l : list A) : Result (list B) :=
  match l with
  | [] => Ok []
  | x :: xs =>
      bindR (f x) (fun y => bindR (mapR f xs) (fun ys => Ok (y :: ys)))
  end.

(** [l.filter(p)] for a predicate that can throw. *)
Fixpoint filterR {A} (p : A -> Result bool) (l : list A) : Result (list A) :=
  match l with
  | [] => Ok []
  | x :: xs =>
      bindR (p x) (fun b =>
      bindR (filterR p xs) (fun ys => Ok (if b then x :: ys else ys)))
  end.

(** ** The data model ([misc-interfaces], [package-json]) *)

(** The values of [addToPackageJson] other than [undefined]. *)
Inductive AddToPackageJson :=
| AddFalse
| AddDependencies
| AddDevDependencies.

(** [PackageJsonUpdateForPackage], imported as [PackageUpdate]. *)
Record PackageUpdate := mkPackageUpdate {
  pu_version : string;
  pu_ifPackageInstalled : option string;
  pu_alwaysAddToPackageJson : option bool;
  pu_addToPackageJson : option AddToPackageJson
}.

(** [{ version, addToPackageJson }] *)
Definition planEntry (version : string) (a : AddToPackageJson) : PackageUpdate :=
  mkPackageUpdate version None None (Some a).

(** [x || false] on an [addToPackageJson] field. *)
Definition orFalse (a : option AddToPackageJson) : AddToPackageJson :=
  match a with
  | Some AddDependencies => AddDependencies
  | Some AddDevDependencies => AddDevDependencies
  | Some AddFalse | None => AddFalse
  end.

(** One value of [PackageJsonUpdates]. *)
Record PackageJsonUpdate := mkPackageJsonUpdate {
  pju_version : string;
  pju_packages : option (Obj.t PackageUpdate);
  pju_requires : option (Obj.t string);
  pju_xprompt : option string
}.

Record MigrationsJsonEntry := mkMigrationsJsonEntry {
  mig_version : option string;
  mig_description : option string;
  mig_cli : option string;
  mig_implementation : option string;
  mig_factory : option string;
  mig_requires : option (Obj.t string)
}.

(** An element of the migrations list:
    [{ ...migration, package, name }]. *)
Record Migration := mkMigration {
  m_entry : MigrationsJsonEntry;
  m_package : string;
  m_name : string
}.

Record PackageGroupEntry := mkPackageGroupEntry {
  pg_package : string;
  pg_version : string
}.

Definition ArrayPackageGroup := list PackageGroupEntry.

Record ResolvedMigrationConfiguration := mkConfig {
  mc_version : string;
  mc_packageGroup : option ArrayPackageGroup;
  mc_packageJsonUpdates : option (Obj.t PackageJsonUpdate);
  mc_generators : option (Obj.t MigrationsJsonEntry)
}.

Record PackageJson := mkPackageJson {
  dependencies : option (Obj.t string);
  devDependencies : option (Obj.t string)
}.

(** [packageJson.dependencies?.[name]] *)
Definition depOf (section : option (Obj.t string)) (name : string) : option string :=
  match section with
  | Some o => Obj.get name o
  | None => None
  end.

(** ** The installed-version resolver

    [createInstalledPackageVersionsResolver(root)]: [disk name] is the
    [version] of the manifest that [readModulePackageJson(name, [root])]
    finds, [None] when it throws.  The resolver's cache only memoizes
    [disk]. *)

Definition resolveOnce (disk : string -> option string)
    (packageName : string) (overrides : option (Obj.t string)) : option string :=
  let override := match overrides with
                  | Some o => Obj.get packageName o
                  | None => None
                  end in
  if JS.truthy override then override else disk packageName.

Definition createInstalledPackageVersionsResolver (disk : string -> option string)
    (packageName : string) (overrides : option (Obj.t string)) : option string :=
  match resolveOnce disk packageName overrides with
  | Some v => Some v
  | None =>
      if String.eqb packageName "nx"
      then resolveOnce disk "@nrwl/workspace" overrides
      else None
  end.

(** ** The planner: class [Migrator] *)

(** The three mutable fields of a [Migrator].  ([from] is the initial
    value of [installedPkgVersionOverrides]; package-group expansion
    adds entries to it.) *)
Record State := mkState {
  installedPkgVersionOverrides : Obj.t string;
  packageUpdates : Obj.t PackageUpdate;
  collectedVersions : Obj.t string
}.

(** A method that reads and writes the fields and can throw. *)
Definition M (A : Type) : Type := State -> Result (A * State).

Definition ret {A} (a : A) : M A := fun st => Ok (a, st).

Definition bind {A B} (m : M A) (f : A -> M B) : M B :=
  fun st =>
    match m st with
    | Ok (a, st') => f a st'
    | Throw msg => Throw msg
    | OutOfFuel => OutOfFuel
    end.

Definition lift {A} (r : Result A) : M A :=
  fun st => bindR r (fun a => Ok (a, st)).

Definition gets {A} (f : State -> A) : M A := fun st => Ok (f st, st).

Definition modify (f : State -> State) : M unit := fun st => Ok (tt, f st).

Declare Scope planner_scope.
Delimit Scope planner_scope with planner.
Notation "x <- m ;; k" := (bind m (fun x => k))
  (at level 61, m at next level, right associativity) : planner_scope.
Notation "m ;;; k" := (bind m (fun _ => k))
  (at level 61, right associativity) : planner_scope.

(** [await Promise.all(l.map(f))] with the calls run to completion one
    after the other, in list order.  The code starts every call at once
    and lets them interleave at each [await]: this is its run for a list
    of at most one call; with more calls the code can reach another
    state, or the same plan in another order. *)
Fixpoint mapM {A B} (f : A -> M B) (l : list A) : M (list B) :=
  match l with
  | [] => ret []
  | x :: xs =>
      (y <- f x ;; ys <- mapM f xs ;; ret (y :: ys))%planner
  end.

Definition newline : string := String (ascii_of_nat 10) EmptyString.
Definition dquote : string := String (ascii_of_nat 34) EmptyString.

Module Migrator.

Definition LEGACY_NRWL_PACKAGE_GROUP : ArrayPackageGroup :=
  [ mkPackageGroupEntry "@nrwl/workspace" "*";
    mkPackageGroupEntry "@nrwl/angular" "*";
    mkPackageGroupEntry "@nrwl/cypress" "*";
    mkPackageGroupEntry "@nrwl/devkit" "*";
    mkPackageGroupEntry "@nrwl/eslint-plugin-nx" "*";
    mkPackageGroupEntry "@nrwl/express" "*";
    mkPackageGroupEntry "@nrwl/jest" "*";
    mkPackageGroupEntry "@nrwl/linter" "*";
    mkPackageGroupEntry "@nrwl/nest" "*";
    mkPackageGroupEntry "@nrwl/next" "*";
    mkPackageGroupEntry "@nrwl/node" "*";
    mkPackageGroupEntry "@nrwl/nx-plugin" "*";
    mkPackageGroupEntry "@nrwl/react" "*";
    mkPackageGroupEntry "@nrwl/storybook" "*";
    mkPackageGroupEntry "@nrwl/web" "*";
    mkPackageGroupEntry "@nrwl/js" "*";
    mkPackageGroupEntry "@nrwl/cli" "*";
    mkPackageGroupEntry "@nrwl/nx-cloud" "latest";
    mkPackageGroupEntry "@nrwl/react-native" "*";
    mkPackageGroupEntry "@nrwl/detox" "*";
    mkPackageGroupEntry "@nrwl/expo" "*" ].

(** [this.gt] and [this.lte].  Both operands go through
    [normalizeVersion], whose result always parses
    ([normalizeVersion_valid] below), so the comparison never throws and
    the [None] branch is never taken. *)
Definition gt (v1 v2 : string) : bool :=
  match Semver.gt (normalizeVersion v1) (normalizeVersion v2) with
  | Some b => b
  | None => false
  end.

Definition lte (v1 v2 : string) : bool :=
  match Semver.lte (normalizeVersion v1) (normalizeVersion v2) with
  | Some b => b
  | None => false
  end.

Definition addPackageUpdate (name : string) (packageUpdate : PackageUpdate)
    (st : State) : State :=
  match Obj.get name (packageUpdates st) with
  | Some existing =>
      if gt (pu_version packageUpdate) (pu_version existing)
      then mkState (installedPkgVersionOverrides st)
                   (Obj.set name packageUpdate (packageUpdates st))
                   (collectedVersions st)
      else st
  | None =>
      mkState (installedPkgVersionOverrides st)
              (Obj.set name packageUpdate (packageUpdates st))
              (collectedVersions st)
  end.

Definition setCollectedVersion (name version : string) (st : State) : State :=
  mkState (installedPkgVersionOverrides st) (packageUpdates st)
          (Obj.set name version (collectedVersions st)).

(** [this.installedPkgVersionOverrides[child] ??= v] *)
Definition defaultOverride (child v : string) (st : State) : State :=
  match Obj.get child (installedPkgVersionOverrides st) with
  | Some _ => st
  | None =>
      mkState (Obj.set child v (installedPkgVersionOverrides st))
              (packageUpdates st) (collectedVersions st)
  end.

Section WithOptions.

(** [satisfies(v, range, { includePrerelease: true })] of the [semver]
    package, which never throws on strings; [cleanSemver], that is
    [clean(v) ?? coerce(v)], as the version it denotes. *)
Variable satisfies : string -> string -> bool.
Variable cleanSemver : string -> option string.
(** The user's answer to a confirmation prompt. *)
Variable confirm : string -> bool.

(** [MigratorOptions] *)
Variable packageJson : PackageJson.
Variable getInstalledPackageVersion :
  string -> option (Obj.t string) -> option string.
Variable fetch : string -> string -> Result ResolvedMigrationConfiguration.
Variable to : Obj.t string.
Variable interactive : bool.
Variable excludeAppliedMigrations : bool.

Definition getPkgVersion (st : State) (pkg : string) : option string :=
  getInstalledPackageVersion pkg (Some (installedPkgVersionOverrides st)).

(** One conjunct of the [every] in [areRequirementsMet]. *)
Definition requirementMet (st : State)
    (extraPackageUpdatesToCheck : option (Obj.t PackageUpdate))
    (requirement : string * string) : bool :=
  let '(pkgName, versionRange) := requirement in
  match getPkgVersion st pkgName with
  | Some (String _ _ as v) => satisfies v versionRange
  | _ => false
  end
  || match Obj.get pkgName (packageUpdates st) with
     | Some {| pu_version := String _ _ as v |} => satisfies v versionRange
     | _ => false
     end
  || match extraPackageUpdatesToCheck with
     | Some extra =>
         match Obj.get pkgName extra with
         | Some {| pu_version := String _ _ as v |} =>
             match cleanSemver v with
             | Some v' => satisfies v' versionRange
             | None => false
             end
         | _ => false
         end
     | None => false
     end.

Definition areRequirementsMet (st : State)
    (requirements : option (Obj.t string))
    (extraPackageUpdatesToCheck : option (Obj.t PackageUpdate)) : bool :=
  match requirements with
  | None | Some [] => true
  | Some reqs =>
      forallb (requirementMet st extraPackageUpdatesToCheck)
              (Obj.entries reqs)
  end.

(** One disjunct of the [some] in [wasMigrationSkipped]. *)
Definition requirementUnmetWhenInstalled (requirement : string * string) : bool :=
  let '(pkgName, versionRange) := requirement in
  match getInstalledPackageVersion pkgName None with
  | Some (String _ _ as v) => negb (satisfies v versionRange)
  | _ => true
  end.

Definition wasMigrationSkipped (requirements : option (Obj.t string)) : bool :=
  match requirements with
  | None | Some [] => false
  | Some reqs => existsb requirementUnmetWhenInstalled (Obj.entries reqs)
  end.

(** Reading [this.packageUpdates[packageName].version] throws when the
    plan has no entry for [packageName]. *)
Definition isMigrationForHigherVersionThanWhatIsInstalled (st : State)
    (packageName : string) (migration : MigrationsJsonEntry) : Result bool :=
  let installedVersion := getInstalledPackageVersion packageName None in
  match mig_version migration with
  | Some (String _ _ as version) =>
      if match installedVersion with
         | Some (String _ _ as installed) => gt version installed
         | _ => true
         end
      then match Obj.get packageName (packageUpdates st) with
           | Some planned => Ok (lte version (pu_version planned))
           | None => Throw "TypeError: Cannot read properties of undefined"
           end
      else Ok false
  | _ => Ok false
  end.

Definition areMigrationRequirementsMet (st : State)
    (packageName : string) (migration : MigrationsJsonEntry) : Result bool :=
  if negb excludeAppliedMigrations
  then Ok (areRequirementsMet st (mig_requires migration) None)
  else
    bindR (if wasMigrationSkipped (mig_requires migration) then Ok true
           else isMigrationForHigherVersionThanWhatIsInstalled
                  st packageName migration)
          (fun eligible =>
             Ok (eligible
                 && areRequirementsMet st (mig_requires migration) None)).

(** The predicate of the [filter] in [createMigrateJson]. *)
Definition migrationApplies (st : State) (packageName currentVersion version : string)
    (entry : string * MigrationsJsonEntry) : Result bool :=
  let migration := snd entry in
  match mig_version migration with
  | Some (String _ _ as v) =>
      if gt v currentVersion && lte v version
      then areMigrationRequirementsMet st packageName migration
      else Ok false
  | _ => Ok false
  end.

(** The callback mapped over [Object.keys(this.packageUpdates)]. *)
Definition migrationsOfPackage (st : State) (packageName : string)
    : Result (list Migration) :=
  match getPkgVersion st packageName with
  | None => Ok []
  | Some currentVersion =>
      match Obj.get packageName (packageUpdates st) with
      | None => Throw "TypeError: Cannot destructure property of undefined"
      | Some planned =>
          let version := pu_version planned in
          bindR (fetch packageName version) (fun config =>
          match mc_generators config with
          | None => Ok []
          | Some generators =>
              bindR (filterR (migrationApplies st packageName currentVersion version)
                             (Obj.entries generators))
                    (fun kept =>
                       Ok (map (fun e => mkMigration (snd e) packageName (fst e))
                               kept))
          end)
      end
  end.

Definition createMigrateJson (st : State) : Result (list Migration) :=
  bindR (mapR (migrationsOfPackage st) (Obj.keys (packageUpdates st)))
        (fun migrations => Ok (concat migrations)).


(** *** Phase 1 *)

(** The predicate of the [filter] over the children of one update in
    [filterPackageJsonUpdates]. *)
Definition keepsChild (st : State) (child : string * PackageUpdate) : bool :=
  let packageName := fst child in
  let packageUpdate := snd child in
  match pu_ifPackageInstalled packageUpdate with
  | Some (String _ _ as guard) => JS.truthy (getPkgVersion st guard)
  | _ => true
  end
  && (match pu_alwaysAddToPackageJson packageUpdate with
      | Some true => true
      | _ => false
      end
      || match pu_addToPackageJson packageUpdate with
         | Some AddDependencies | Some AddDevDependencies => true
         | _ => false
         end
      || JS.truthy (depOf (dependencies packageJson) packageName)
      || JS.truthy (depOf (devDependencies packageJson) packageName))
  && match Obj.get packageName (collectedVersions st) with
     | Some (String _ _ as collected) =>
         gt (pu_version packageUpdate) collected
     | _ => true
     end.

(** The record written by the [reduce]. *)
Definition rewriteChild (packageUpdate : PackageUpdate) : PackageUpdate :=
  planEntry (pu_version packageUpdate)
    match pu_alwaysAddToPackageJson packageUpdate with
    | Some true => AddDependencies
    | _ => orFalse (pu_addToPackageJson packageUpdate)
    end.

Definition filterPackages (st : State) (packages : Obj.t PackageUpdate)
    : Obj.t PackageUpdate :=
  fold_left (fun acc child => Obj.set (fst child) (rewriteChild (snd child)) acc)
            (filter (keepsChild st) (Obj.entries packages))
            Obj.empty.

Definition withPackages (u : PackageJsonUpdate) (packages : Obj.t PackageUpdate)
    : PackageJsonUpdate :=
  mkPackageJsonUpdate (pju_version u) (Some packages)
                      (pju_requires u) (pju_xprompt u).

(** The [for] loop of [filterPackageJsonUpdates] over
    [Object.values(packageJsonUpdates)], with the list being pushed
    to.  [this.lte(v, null)] throws inside [normalizeVersion]. *)
Fixpoint filterLoop (st : State) (packageName targetVersion : string)
    (updates : list PackageJsonUpdate)
    (filteredPackageJsonUpdates : list PackageJsonUpdate)
    : Result (list PackageJsonUpdate) :=
  match updates with
  | [] => Ok filteredPackageJsonUpdates
  | packageJsonUpdate :: rest =>
      match pju_packages packageJsonUpdate with
      | None =>
          filterLoop st packageName targetVersion rest
                     filteredPackageJsonUpdates
      | Some packages =>
          match getPkgVersion st packageName with
          | None => Throw "TypeError: Cannot read properties of null"
          | Some installed =>
              if lte (pju_version packageJsonUpdate) installed
                 || gt (pju_version packageJsonUpdate) targetVersion
              then filterLoop st packageName targetVersion rest
                              filteredPackageJsonUpdates
              else
                match filterPackages st packages with
                | [] => filterLoop st packageName targetVersion rest
                                   filteredPackageJsonUpdates
                | kept =>
                    filterLoop st packageName targetVersion rest
                      (app filteredPackageJsonUpdates
                           [withPackages packageJsonUpdate kept])
                end
          end
      end
  end.

Definition filterPackageJsonUpdates (st : State)
    (packageJsonUpdates : Obj.t PackageJsonUpdate)
    (packageName targetVersion : string) : Result (list PackageJsonUpdate) :=
  filterLoop st packageName targetVersion (Obj.values packageJsonUpdates) [].

(** The version a package-group entry stands for. *)
Definition groupVersion (targetVersion : string) (packageConfig : PackageGroupEntry)
    : string :=
  if String.eqb (pg_version packageConfig) "*"
  then targetVersion else pg_version packageConfig.

(** The [for] loop of [getPackageJsonUpdatesFromPackageGroup]: fills
    [packages] and propagates the parent's [--from] override. *)
Fixpoint expandGroup (packageName targetVersion : string)
    (packageGroup : ArrayPackageGroup) (packages : Obj.t PackageUpdate)
    (st : State) : Obj.t PackageUpdate * State :=
  match packageGroup with
  | [] => (packages, st)
  | packageConfig :: rest =>
      let packages' :=
        Obj.set (pg_package packageConfig)
                (mkPackageUpdate (groupVersion targetVersion packageConfig)
                                 None (Some false) None)
                packages in
      let st' :=
        if String.eqb (pg_version packageConfig) "*" then
          match Obj.get packageName (installedPkgVersionOverrides st) with
          | Some (String _ _ as v) =>
              defaultOverride (pg_package packageConfig) v st
          | _ => st
          end
        else st in
      expandGroup packageName targetVersion rest packages' st'
  end.

(** The group that is expanded: the legacy group for an old
    [@nrwl/workspace], the document's own otherwise.  The raw [lt]
    throws on a target version that [new SemVer] rejects. *)
Definition selectPackageGroup (packageName targetVersion : string)
    (migrationConfig : ResolvedMigrationConfiguration) : Result ArrayPackageGroup :=
  if String.eqb packageName "@nrwl/workspace" then
    match Semver.lt targetVersion "14.0.0-beta.0" with
    | Some true => Ok LEGACY_NRWL_PACKAGE_GROUP
    | Some false =>
        Ok match mc_packageGroup migrationConfig with
           | Some g => g
           | None => []
           end
    | None => Throw "TypeError: Invalid Version"
    end
  else Ok match mc_packageGroup migrationConfig with
          | Some g => g
          | None => []
          end.

(** Returns [packageGroupOrder] together with the migration
    configuration as the source leaves it after mutating it.  The
    mutated object is the one the fetcher caches, but a later visit of
    the same document stops at the fixed-point check on
    [collectedVersions] (its version is non-empty), and Phase 2 reads
    [generators] only, so no later read sees the mutation and [fetch] is
    modelled as returning the document as published. *)
Definition getPackageJsonUpdatesFromPackageGroup
    (packageName targetVersion : string)
    (migrationConfig : ResolvedMigrationConfiguration)
    : M (list string * ResolvedMigrationConfiguration) :=
  fun st =>
    bindR (selectPackageGroup packageName targetVersion migrationConfig)
      (fun packageGroup =>
         match packageGroup with
         | [] => Ok (([], migrationConfig), st)
         | _ =>
             let packageGroupOrder := map pg_package packageGroup in
             let '(packages, st') :=
               expandGroup packageName targetVersion packageGroup Obj.empty st in
             let existing :=
               match mc_packageJsonUpdates migrationConfig with
               | Some u => u
               | None => Obj.empty
               end in
             let updated :=
               Obj.set (targetVersion ++ "--PackageGroup")
                       (mkPackageJsonUpdate targetVersion (Some packages) None None)
                       existing in
             Ok ((packageGroupOrder,
                  mkConfig (mc_version migrationConfig)
                           (mc_packageGroup migrationConfig)
                           (Some updated)
                           (mc_generators migrationConfig)),
                 st')
         end).

Definition getPackageJsonUpdatesFromMigrationConfig
    (packageName targetVersion : string)
    (migrationConfig : ResolvedMigrationConfiguration)
    : M (list PackageJsonUpdate * list string) :=
  (r <- getPackageJsonUpdatesFromPackageGroup
          packageName targetVersion migrationConfig ;;
   let '(packageGroupOrder, migrationConfig') := r in
   fun st =>
     match mc_packageJsonUpdates migrationConfig' with
     | None => Ok (([], packageGroupOrder), st)
     | Some packageJsonUpdates =>
         if negb (JS.truthy (getPkgVersion st packageName))
         then Ok (([], packageGroupOrder), st)
         else bindR (filterPackageJsonUpdates st packageJsonUpdates
                       packageName targetVersion)
                    (fun l => Ok ((l, packageGroupOrder), st))
     end)%planner.

Record PackageToCheck := mkPackageToCheck {
  ptc_package : string;
  ptc_updates : list PackageJsonUpdate
}.

(** [array.indexOf(x)] *)
Fixpoint indexOf (x : string) (l : list string) : Z :=
  match l with
  | [] => (-1)%Z
  | y :: rest =>
      if String.eqb y x then 0%Z
      else let i := indexOf x rest in
           if (i <? 0)%Z then (-1)%Z else (i + 1)%Z
  end.

(** [Array.prototype.sort] with the comparator
    [(a, b) => key(a) - key(b)]: a stable sort by [key]. *)
Fixpoint insertByKey {A} (key : A -> Z) (x : A) (l : list A) : list A :=
  match l with
  | [] => [x]
  | y :: rest =>
      if (key x <=? key y)%Z then x :: l else y :: insertByKey key x rest
  end.

Definition sortByKey {A} (key : A -> Z) (l : list A) : list A :=
  fold_right (insertByKey key) [] l.

(** The [try]/[catch] around [this.fetch]. *)
Definition fetchOrExplain (targetPackage targetVersion : string)
    : Result ResolvedMigrationConfiguration :=
  match fetch targetPackage targetVersion with
  | Throw message =>
      if JS.includes "No matching version" message
      then Throw (message ++ newline ++ "Run migrate with --to=" ++ dquote
                    ++ "package1@version1,package2@version2" ++ dquote)
      else Throw message
  | r => r
  end.

Definition needsCheck (packageJsonUpdate : PackageJsonUpdate) : bool :=
  (interactive && JS.truthy (pju_xprompt packageJsonUpdate))
  || match pju_requires packageJsonUpdate with
     | Some (_ :: _) => true
     | _ => false
     end.

(** [packageJsonUpdates.reduce((m, c) => ({ ...m, ...c.packages }), {})] *)
Definition packageUpdatesToApply (packageJsonUpdates : list PackageJsonUpdate)
    : Obj.t PackageUpdate :=
  fold_left (fun m c => Obj.assign m match pju_packages c with
                                     | Some packages => packages
                                     | None => Obj.empty
                                     end)
            packageJsonUpdates Obj.empty.

(** The initial [targetVersion]: the [--to] override when there is one. *)
Definition requestedVersion (targetPackage : string) (target : PackageUpdate)
    : string :=
  match Obj.get targetPackage to with
  | Some (String _ _ as v) => v
  | _ => pu_version target
  end.

Section PopulateBody.

(** The recursive calls of
    [populatePackageJsonUpdatesAndGetPackagesToCheck]. *)
Variable recurse : string -> PackageUpdate -> M (list PackageToCheck).

(** From [this.collectedVersions[targetPackage] = targetVersion] to
    the end of the method. *)
Definition populateAfterCheck (targetPackage : string) (target : PackageUpdate)
    (migrationConfig : ResolvedMigrationConfiguration) : M (list PackageToCheck) :=
  let targetVersion := mc_version migrationConfig in
  (modify (addPackageUpdate targetPackage
             (planEntry (mc_version migrationConfig)
                        (orFalse (pu_addToPackageJson target)))) ;;;
   r <- getPackageJsonUpdatesFromMigrationConfig
          targetPackage targetVersion migrationConfig ;;
   let '(packageJsonUpdates, packageGroupOrder) := r in
   match packageJsonUpdates with
   | [] => ret []
   | _ =>
       if existsb needsCheck packageJsonUpdates
       then ret [mkPackageToCheck targetPackage packageJsonUpdates]
       else
         results <- mapM (fun e => recurse (fst e) (snd e))
                      (Obj.entries (packageUpdatesToApply packageJsonUpdates)) ;;
         ret (sortByKey (fun p => indexOf (ptc_package p) packageGroupOrder)
                (concat (filter (fun pkgs => match pkgs with
                                             | [] => false
                                             | _ => true
                                             end) results)))
   end)%planner.

(** From [targetVersion = migrationConfig.version] on: the
    fixed-point check on [collectedVersions].  The raw [gte] throws
    on a version that [new SemVer] rejects. *)
Definition populateAfterFetch (targetPackage : string) (target : PackageUpdate)
    (migrationConfig : ResolvedMigrationConfiguration) : M (list PackageToCheck) :=
  fun st =>
    let targetVersion := mc_version migrationConfig in
    let continue :=
      populateAfterCheck targetPackage target migrationConfig
        (setCollectedVersion targetPackage targetVersion st) in
    match Obj.get targetPackage (collectedVersions st) with
    | Some (String _ _ as collected) =>
        match Semver.gte collected targetVersion with
        | Some true => Ok ([], st)
        | Some false => continue
        | None => Throw "TypeError: Invalid Version"
        end
    | _ => continue
    end.

Definition populateBody (targetPackage : string) (target : PackageUpdate)
    : M (list PackageToCheck) :=
  fun st =>
    let targetVersion := requestedVersion targetPackage target in
    if negb (JS.truthy (getPkgVersion st targetPackage))
    then Ok ([], addPackageUpdate targetPackage
                   (planEntry (pu_version target)
                              (orFalse (pu_addToPackageJson target)))
                   st)
    else
      bindR (fetchOrExplain targetPackage targetVersion)
            (fun migrationConfig =>
               populateAfterFetch targetPackage target migrationConfig st).

End PopulateBody.

(** The recursion is not structural (it follows fetched documents), so
    it is bounded by [fuel]. *)
Fixpoint populatePackageJsonUpdatesAndGetPackagesToCheck (fuel : nat)
    (targetPackage : string) (target : PackageUpdate) : M (list PackageToCheck) :=
  match fuel with
  | O => fun _ => OutOfFuel
  | S fuel' =>
      populateBody (populatePackageJsonUpdatesAndGetPackagesToCheck fuel')
                   targetPackage target
  end.

Definition runPackageJsonUpdatesConfirmationPrompt
    (confirmationPrompt : option string) : bool :=
  match confirmationPrompt with
  | Some (String _ _ as message) => confirm message
  | _ => true
  end.

(** The inner [for] loop of [buildPackageJsonUpdates], building
    [filteredUpdates]. *)
Fixpoint admitUpdates (st : State) (updates : list PackageJsonUpdate)
    (filteredUpdates : Obj.t PackageUpdate) : Result (Obj.t PackageUpdate) :=
  match updates with
  | [] => Ok filteredUpdates
  | packageUpdate :: rest =>
      if areRequirementsMet st (pju_requires packageUpdate) (Some filteredUpdates)
         && (negb interactive
             || runPackageJsonUpdatesConfirmationPrompt (pju_xprompt packageUpdate))
      then match pju_packages packageUpdate with
           | Some packages =>
               admitUpdates st rest (Obj.assign filteredUpdates packages)
           | None => Throw "TypeError: Cannot convert undefined to object"
           end
      else admitUpdates st rest filteredUpdates
  end.

Fixpoint buildPackageJsonUpdates (fuel : nat) (targetPackage : string)
    (target : PackageUpdate) : M unit :=
  match fuel with
  | O => fun _ => OutOfFuel
  | S fuel' =>
      (packagesToCheck <-
         populatePackageJsonUpdatesAndGetPackagesToCheck fuel targetPackage target ;;
       mapM (fun packageToCheck =>
               filteredUpdates <-
                 (fun st => bindR (admitUpdates st (ptc_updates packageToCheck) Obj.empty)
                                  (fun f => Ok (f, st))) ;;
               mapM (fun e => buildPackageJsonUpdates fuel' (fst e) (snd e))
                    (Obj.entries filteredUpdates) ;;;
               ret tt)
            packagesToCheck ;;;
       ret tt)%planner
  end.

(** [migrate(targetPackage, targetVersion)] on a planner in state [st]. *)
Definition migrate (fuel : nat) (targetPackage targetVersion : string) (st : State)
    : Result (Obj.t PackageUpdate * list Migration) :=
  match buildPackageJsonUpdates fuel targetPackage
          (planEntry targetVersion AddFalse) st with
  | Ok (_, st') =>
      bindR (createMigrateJson st')
            (fun migrations => Ok (packageUpdates st', migrations))
  | Throw message => Throw message
  | OutOfFuel => OutOfFuel
  end.

End WithOptions.

End Migrator.

(** ** The command-line parser *)

Definition provideCorrectPackage : string :=
  "Provide the correct package name and version. E.g., my-package@9.0.0.".

(** [valid(args)] is the [semver] package's: it tests [args] as it is,
    so a version with white space around it is not valid and is taken
    for a package name. *)
Definition parseTargetPackageAndVersion (args : string) : Result (string * string) :=
  match args with
  | EmptyString => Throw provideCorrectPackage
  | _ =>
      match JS.indexOf "@" args with
      | Some _ =>
          match JS.lastIndexOf "@" args with
          | Some 0 | None => Ok (JS.trim args, "latest")
          | Some i =>
              let targetPackage := JS.substring 0 i args in
              let maybeVersion := JS.substring_from (i + 1) args in
              if negb (JS.nonempty targetPackage) || negb (JS.nonempty maybeVersion)
              then Throw provideCorrectPackage
              else Ok (targetPackage, normalizeVersionWithTagCheck maybeVersion)
          end
      | None =>
          if String.eqb args "latest" || String.eqb args "next"
             || Semver.valid args || JS.matches_partial_version args
          then
            let targetVersion := normalizeVersionWithTagCheck args in
            if String.eqb args "latest" || String.eqb args "next"
            then Ok ("nx", targetVersion)
            else match Semver.lt targetVersion "14.0.0-beta.0" with
                 | Some true => Ok ("@nrwl/workspace", targetVersion)
                 | Some false => Ok ("nx", targetVersion)
                 | None => Throw "TypeError: Invalid Version"
                 end
          else Ok (args, "latest")
      end
  end.

(** ** The plan writer *)






(** ** A claim as it is worded *)

(** The condition of C6 as it is worded, for a reading of "installed" in
    each of its two places: [installedOfRequired] for the required
    packages, [installedOfPackage] for the package of the migration.
    [requiresMet] is the [requires] predicate. *)
Definition gateAsWorded (satisfies : string -> string -> bool)
    (installedOfRequired installedOfPackage : string -> option string)
    (requiresMet : bool) (packageName : string)
    (migration : MigrationsJsonEntry) : bool :=
  (match mig_requires migration with
   | None | Some [] => false
   | Some reqs =>
       existsb (fun requirement =>
                  match installedOfRequired (fst requirement) with
                  | Some (String _ _ as v) =>
                      negb (satisfies v (snd requirement))
                  | _ => true
                  end) reqs
   end
   || match mig_version migration, installedOfPackage packageName with
      | Some v, Some (String _ _ as installed) => Migrator.gt v installed
      | _, _ => false
      end)
  && requiresMet.

(** ** Worked scenarios *)

Module Scenario.

(** A fragment of [satisfies]: a range [>=V] only. *)
Definition satisfies (v range : string) : bool :=
  match range with
  | String ">" (String "=" bound) =>
      match Semver.gte v bound with
      | Some b => b
      | None => false
      end
  | _ => false
  end.

Definition cleanSemver (v : string) : option string :=
  if Semver.valid v then Some v else None.

Definition confirm (_ : string) : bool := true.

Definition installedFrom (disk : Obj.t string) :=
  createInstalledPackageVersionsResolver (fun name => Obj.get name disk).

Definition noMigration (version : string) : MigrationsJsonEntry :=
  mkMigrationsJsonEntry (Some version) None None None None None.

(** Scenario 1: one package, no group. *)
Definition disk1 : Obj.t string := [("pkg", "1.0.0")].
Definition manifest1 : PackageJson := mkPackageJson (Some [("pkg", "1.0.0")]) None.
Definition fetch1 (name version : string) : Result ResolvedMigrationConfiguration :=
  if String.eqb name "pkg" then
    Ok (mkConfig "2.0.0" None
          (Some [("a", mkPackageJsonUpdate "2.0.0"
                         (Some [("pkg", mkPackageUpdate "2.0.0" None None None)])
                         None None)])
          (Some [("m1", noMigration "1.5.0");
                 ("m2", noMigration "2.0.0");
                 ("m3", noMigration "2.1.0")]))
  else Throw "No matching version".

Definition initial : State := mkState [] [] [].

Definition run1 :=
  Migrator.migrate satisfies cleanSemver confirm manifest1 (installedFrom disk1)
    fetch1 [] false false 5 "pkg" "2.0.0" initial.

(** Scenario 2: a package group with a wildcard. *)
Definition disk2 : Obj.t string := [("root", "1.0.0"); ("child", "1.0.0")].
Definition manifest2 : PackageJson :=
  mkPackageJson (Some [("root", "1.0.0"); ("child", "1.0.0")]) None.
Definition fetch2 (name version : string) : Result ResolvedMigrationConfiguration :=
  if String.eqb name "root" then
    Ok (mkConfig version (Some [mkPackageGroupEntry "child" "*"]) None None)
  else Ok (mkConfig version None None None).

Definition run2 :=
  Migrator.migrate satisfies cleanSemver confirm manifest2 (installedFrom disk2)
    fetch2 [] false false 5 "root" "2.0.0" initial.

(** The planner options of scenarios 1 and 2. *)
Definition installed1 := installedFrom disk1.
Definition installed2 := installedFrom disk2.

(** Scenario 1 after Phase 1. *)
Definition final1 : State :=
  mkState [] [("pkg", planEntry "2.0.0" AddFalse)] [("pkg", "2.0.0")].

Definition migrations1 : list Migration :=
  [mkMigration (noMigration "1.5.0") "pkg" "m1";
   mkMigration (noMigration "2.0.0") "pkg" "m2"].

(** A planner that already plans [root] at [1.5.0], and the state in
    which scenario 2 leaves it. *)
Definition seeded : State :=
  mkState [] [("root", planEntry "1.5.0" AddFalse)] [].

Definition grown : State :=
  mkState []
    [("root", planEntry "2.0.0" AddFalse); ("child", planEntry "2.0.0" AddFalse)]
    [("root", "2.0.0"); ("child", "2.0.0")].

(** A candidate update at exactly the target version, with one child
    that is a direct dependency. *)
Definition manifest3 : PackageJson :=
  mkPackageJson (Some [("pkg", "1.0.0"); ("dep", "1.0.0")]) None.
Definition updates3 : Obj.t PackageJsonUpdate :=
  [("a", mkPackageJsonUpdate "2.0.0"
           (Some [("dep", mkPackageUpdate "3.0.0" None None None)]) None None);
   ("b", mkPackageJsonUpdate "2.1.0"
           (Some [("dep", mkPackageUpdate "4.0.0" None None None)]) None None);
   ("c", mkPackageJsonUpdate "1.0.0"
           (Some [("dep", mkPackageUpdate "2.0.0" None None None)]) None None)].

(** Scenario 4: a migration that requires a peer in a range. *)
Definition disk4 : Obj.t string := [("pkg", "1.0.0"); ("peer", "2.0.0")].
Definition installed4 := installedFrom disk4.
Definition planned4 : State :=
  mkState [] [("pkg", planEntry "2.0.0" AddFalse)] [("pkg", "2.0.0")].

(** The migration of scenario 4. *)
Definition skipped4 : MigrationsJsonEntry :=
  mkMigrationsJsonEntry (Some "1.5.0") None None None None
    (Some [("peer", ">=3.0.0")]).

(** Three workspaces planned with [--from] and [--exclude-applied-migrations];
    in each the plan raises [pkg] to [3.0.0] and the document of [pkg]
    has one migration, of version [1.5.0].
    - [pkg@2.0.0] is installed, [--from pkg@1.0.0]. *)
Definition diskPinned : Obj.t string := [("pkg", "2.0.0")].
Definition statePinned : State :=
  mkState [("pkg", "1.0.0")] [("pkg", planEntry "3.0.0" AddFalse)]
          [("pkg", "3.0.0")].
Definition fetchPinned (name version : string)
    : Result ResolvedMigrationConfiguration :=
  Ok (mkConfig "3.0.0" None None (Some [("m", noMigration "1.5.0")])).

(** - [pkg] is not installed, [--from pkg@1.0.0]. *)
Definition diskAbsent : Obj.t string := [].

(** - [pkg@2.0.0] and [peer@2.0.0] are installed,
      [--from pkg@1.0.0,peer@3.0.0], and the migration requires
      [peer >= 3.0.0]. *)
Definition diskPeer : Obj.t string := [("pkg", "2.0.0"); ("peer", "2.0.0")].
Definition statePeer : State :=
  mkState [("pkg", "1.0.0"); ("peer", "3.0.0")]
          [("pkg", planEntry "3.0.0" AddFalse)] [("pkg", "3.0.0")].
Definition fetchPeer (name version : string)
    : Result ResolvedMigrationConfiguration :=
  Ok (mkConfig "3.0.0" None None (Some [("m", skipped4)])).

(** The gate of [pkg] with [excludeAppliedMigrations] set, on the state
    that Phase 1 leaves, and the whole of [migrate pkg@3.0.0], in a
    workspace with the packages of [disk] installed. *)
Definition gateOn (disk : Obj.t string) (st : State)
    (migration : MigrationsJsonEntry) : Result bool :=
  Migrator.areMigrationRequirementsMet satisfies cleanSemver
    (installedFrom disk) true st "pkg" migration.

(** The two readings of "installed": what is on disk, and what the
    planner takes for installed under the [--from] overrides of [st]. *)
Definition onDisk (disk : Obj.t string) (name : string) : option string :=
  installedFrom disk name None.

Definition underFrom (disk : Obj.t string) (st : State) (name : string)
    : option string :=
  Migrator.getPkgVersion (installedFrom disk) st name.

(** C6 as worded, on the migration of [pkg], the [requires] predicate
    being the code's. *)
Definition wordedOn (disk : Obj.t string) (st : State)
    (installedOfRequired installedOfPackage : string -> option string)
    (migration : MigrationsJsonEntry) : bool :=
  gateAsWorded satisfies installedOfRequired installedOfPackage
    (Migrator.areRequirementsMet satisfies cleanSemver (installedFrom disk) st
       (mig_requires migration) None)
    "pkg" migration.

Definition phase1On (disk from : Obj.t string)
    (fetch : string -> string -> Result ResolvedMigrationConfiguration) :=
  Migrator.buildPackageJsonUpdates satisfies cleanSemver confirm
    (mkPackageJson (Some disk) None) (installedFrom disk) fetch [] false
    5 "pkg" (planEntry "3.0.0" AddFalse) (mkState from [] []).

Definition migrateOn (disk from : Obj.t string)
    (fetch : string -> string -> Result ResolvedMigrationConfiguration)
    (excludeAppliedMigrations : bool) :=
  Migrator.migrate satisfies cleanSemver confirm (mkPackageJson (Some disk) None)
    (installedFrom disk) fetch [] false excludeAppliedMigrations
    5 "pkg" "3.0.0" (mkState from [] []).


(** A package that is not installed, with a [--to] override. *)
Definition toGhost : Obj.t string := [("ghost", "9.9.9")].
Definition ghostTarget : PackageUpdate := planEntry "3.0.0" AddDependencies.

End Scenario.


(** ** Further vocabulary *)

(** The character [c] does not occur in [s]. *)
Definition absent (c : ascii) (s : string) : Prop := JS.indexOf c s = None.

(** A version that [semver]'s comparisons accept, that is one on which
    [new SemVer] does not throw: at most 256 characters long and, once
    trimmed of the white space around it, valid for [semver]'s [valid].
    (The white space is not removed: [valid] itself rejects
    [" 1.2.3"].) *)
Definition accepted (version : string) : Prop :=
  String.length version <= Semver.MAX_LENGTH
  /\ Semver.valid (JS.trim version) = true.

(** What the parsers hand to the planner as a version: a tag or an
    accepted version. *)
Definition tagOrAccepted (version : string) : Prop :=
  version = "latest" \/ version = "next" \/ accepted version.

(** ** The options parser *)

Definition backslash : ascii := ascii_of_nat 92.

(** [packageName.replace(/\\/g, '/')] *)
Fixpoint normalizeSlashes (packageName : string) : string :=
  match packageName with
  | EmptyString => EmptyString
  | String c rest =>
      String (if Ascii.eqb c backslash then "/"%char else c)
             (normalizeSlashes rest)
  end.

Definition incorrectSection (param : string) : string :=
  "Incorrect '" ++ param ++ "' section. Use --" ++ param ++ "=" ++ dquote
    ++ "package@version" ++ dquote.

(** The callback of the [forEach] in [versionOverrides], on the record
    [res] built so far. *)
Definition addOverride (param : string) (res : Obj.t string) (p : string)
    : Result (Obj.t string) :=
  match JS.lastIndexOf "@" p with
  | None | Some 0 => Throw (incorrectSection param)
  | Some split =>
      let selectedPackage := JS.trim (JS.substring 0 split p) in
      let selectedVersion := JS.trim (JS.substring_from (split + 1) p) in
      if negb (JS.nonempty selectedPackage) || negb (JS.nonempty selectedVersion)
      then Throw (incorrectSection param)
      else Ok (Obj.set (normalizeSlashes selectedPackage)
                       (normalizeVersionWithTagCheck selectedVersion) res)
  end.

Fixpoint addOverrides (param : string) (res : Obj.t string) (pieces : list string)
    : Result (Obj.t string) :=
  match pieces with
  | [] => Ok res
  | p :: rest =>
      bindR (addOverride param res p) (fun res' => addOverrides param res' rest)
  end.

Definition versionOverrides (overrides param : string) : Result (Obj.t string) :=
  addOverrides param Obj.empty (JS.split "," overrides).




(** An entry of [--from] or [--to] that [versionOverrides] rejects: no
    ['@'], an ['@'] in first position only, or nothing but white space on
    one side of the last ['@']. *)
Definition malformedOverride (p : string) : Prop :=
  match JS.lastIndexOf "@" p with
  | None | Some 0 => True
  | Some split =>
      JS.trim (JS.substring 0 split p) = ""
      \/ JS.trim (JS.substring_from (split + 1) p) = ""
  end.

(** ** The manifest writer *)

(** [json[section] ??= {}; json[section][p] = version] *)
Definition setDependency (section : option (Obj.t string)) (p version : string)
    : option (Obj.t string) :=
  Some (Obj.set p version match section with
                         | Some o => o
                         | None => Obj.empty
                         end).

(** The callback of the [forEach] in [updatePackageJson]. *)
Definition updateDependency (json : PackageJson) (p : string)
    (update : PackageUpdate) : PackageJson :=
  if JS.truthy (depOf (devDependencies json) p)
  then mkPackageJson (dependencies json)
                     (setDependency (devDependencies json) p (pu_version update))
  else if JS.truthy (depOf (dependencies json) p)
  then mkPackageJson (setDependency (dependencies json) p (pu_version update))
                     (devDependencies json)
  else match pu_addToPackageJson update with
       | Some AddDependencies =>
           mkPackageJson (setDependency (dependencies json) p (pu_version update))
                         (devDependencies json)
       | Some AddDevDependencies =>
           mkPackageJson (dependencies json)
                         (setDependency (devDependencies json) p (pu_version update))
       | _ => json
       end.

(** [Object.keys(updatedPackages).forEach(...)]; reading
    [updatedPackages[p].version] throws when [p] has no entry. *)
Fixpoint updateDependencies (updatedPackages : Obj.t PackageUpdate)
    (keys : list string) (json : PackageJson) : Result PackageJson :=
  match keys with
  | [] => Ok json
  | p :: rest =>
      match Obj.get p updatedPackages with
      | Some update =>
          updateDependencies updatedPackages rest (updateDependency json p update)
      | None => Throw "TypeError: Cannot read properties of undefined"
      end
  end.

(** [updatePackageJson(root, updatedPackages)] on the parsed
    [package.json], [None] when the file does not exist; the result is
    what is written back, [None] when nothing is written. *)
Definition updatePackageJson (packageJson : option PackageJson)
    (updatedPackages : Obj.t PackageUpdate) : Result (option PackageJson) :=
  match packageJson with
  | None => Ok None
  | Some json =>
      bindR (updateDependencies updatedPackages (Obj.keys updatedPackages) json)
            (fun json' => Ok (Some json'))
  end.

(** The [installation] block of [nx.json]. *)
Record Installation := mkInstallation {
  inst_version : string;
  inst_plugins : option (Obj.t string)
}.

Record NxJson := mkNxJson {
  installation : option Installation
}.

(** The [for ... in] loop over [nxJson.installation.plugins]. *)
Fixpoint updatePlugins (updatedPackages : Obj.t PackageUpdate)
    (deps : list string) (plugins : Obj.t string) : Obj.t string :=
  match deps with
  | [] => plugins
  | dep :: rest =>
      updatePlugins updatedPackages rest
        match Obj.get dep updatedPackages with
        | Some update => Obj.set dep (pu_version update) plugins
        | None => plugins
        end
  end.

(** [updateInstallationDetails(root, updatedPackages)] on the parsed
    [nx.json]; [None] when nothing is written. *)
Definition updateInstallationDetails (nxJson : NxJson)
    (updatedPackages : Obj.t PackageUpdate) : option NxJson :=
  match installation nxJson with
  | None => None
  | Some inst =>
      let version :=
        match Obj.get "nx" updatedPackages with
        | Some {| pu_version := String _ _ as nxVersion |} => nxVersion
        | _ => inst_version inst
        end in
      let plugins :=
        match inst_plugins inst with
        | Some plugins =>
            Some (updatePlugins updatedPackages (Obj.keys plugins) plugins)
        | None => None
        end in
      Some (mkNxJson (Some (mkInstallation version plugins)))
  end.

(** The effect of the manifest update on one package [p] whose plan entry
    is [update]: what [dependencies] and [devDependencies] hold for [p]
    afterwards, given what [json] held before. *)
Definition manifestEntryAfter (json json' : PackageJson) (p : string)
    (update : option PackageUpdate) : Prop :=
  let kept section := depOf (section json') p = depOf (section json) p in
  let written section := depOf (section json') p
                         = option_map pu_version update in
  match update with
  | None => kept dependencies /\ kept devDependencies
  | Some u =>
      if JS.truthy (depOf (devDependencies json) p)
      then written devDependencies /\ kept dependencies
      else if JS.truthy (depOf (dependencies json) p)
      then written dependencies /\ kept devDependencies
      else match pu_addToPackageJson u with
           | Some AddDependencies => written dependencies /\ kept devDependencies
           | Some AddDevDependencies => written devDependencies /\ kept dependencies
           | _ => kept dependencies /\ kept devDependencies
           end
  end.

(** ** Further worked inputs *)

Module Workspace.

(** A manifest with one package in each section, and a plan that updates
    the first, adds a third to [dependencies] and only plans a fourth. *)
Definition manifest : PackageJson :=
  mkPackageJson (Some [("lib", "1.0.0")]) (Some [("tool", "1.0.0")]).

Definition plan : Obj.t PackageUpdate :=
  [("tool", planEntry "2.0.0" AddFalse);
   ("added", planEntry "3.0.0" AddDependencies);
   ("ignored", planEntry "4.0.0" AddFalse)].

Definition updated : PackageJson :=
  mkPackageJson (Some [("lib", "1.0.0"); ("added", "3.0.0")])
                (Some [("tool", "2.0.0")]).

End Workspace.

Module PinnedRun.

(** Scenario 2 with [--from root@1.0.0], before and after Phase 1. *)
Definition before : State := mkState [("root", "1.0.0")] [] [].

Definition after : State :=
  mkState [("root", "1.0.0"); ("child", "1.0.0")]
          [("root", planEntry "2.0.0" AddFalse);
           ("child", planEntry "2.0.0" AddFalse)]
          [("root", "2.0.0"); ("child", "2.0.0")].

End PinnedRun.

(** The identity of an emitted migration. *)
Definition migrationId (m : Migration) : string * string :=
  (m_package m, m_name m).

(** The writes of the planner as the methods guard them:
    [collectedVersions[name]] is assigned only past the fixed-point check
    of [populatePackageJsonUpdatesAndGetPackagesToCheck], that is when it
    holds nothing for [name] or a version that is not [>=] the new one. *)
Inductive visit_write : State -> State -> Prop :=
| visit_packageUpdate (name : string) (packageUpdate : PackageUpdate) (st : State) :
    visit_write st (Migrator.addPackageUpdate name packageUpdate st)
| visit_collect (name version : string) (st : State) :
    JS.truthy (Obj.get name (collectedVersions st)) = false
    \/ (exists collected,
           Obj.get name (collectedVersions st) = Some collected
           /\ Semver.gte collected version = Some false) ->
    visit_write st (Migrator.setCollectedVersion name version st)
| visit_override (child version : string) (st : State) :
    visit_write st (Migrator.defaultOverride child version st).

Definition visit_run : State -> State -> Prop :=
  clos_refl_trans State visit_write.

Definition visits_only {A} (m : M A) : Prop :=
  forall st a st', m st = Ok (a, st') -> visit_run st st'.

(** The version collected for every package is kept or replaced by a
    strictly greater one. *)
Definition collected_grows (st st' : State) : Prop :=
  forall p collected,
    Obj.get p (collectedVersions st) = Some collected ->
    collected <> "" ->
    exists collected',
      Obj.get p (collectedVersions st') = Some collected'
      /\ collected' <> ""
      /\ (collected' = collected \/ Semver.gt collected' collected = Some true).

Module CollectedRun.

(** Scenario 2 on a planner that has already processed [root] at
    [1.0.0], before and after Phase 1. *)
Definition before : State := mkState [] [] [("root", "1.0.0")].

Definition after : State :=
  mkState []
          [("root", planEntry "2.0.0" AddFalse);
           ("child", planEntry "2.0.0" AddFalse)]
          [("root", "2.0.0"); ("child", "2.0.0")].

End CollectedRun.

(** ** The fetcher

    [createFetcher] keeps two caches of promises.  The model is the
    fetcher used by one caller that awaits every call before the next:
    a cache then holds the settled outcome of each promise (a value or
    the error it was rejected with), and a call runs to completion. *)

(** The registry's [nx-migrations] entry of a package version. *)
Record MigrationsConfig := mkMigrationsConfig {
  cfg_migrations : option string;
  cfg_packageGroup : option ArrayPackageGroup
}.

(** The migrations file of a package, as read from its tarball. *)
Record MigrationsJson := mkMigrationsJson {
  mj_packageJsonUpdates : option (Obj.t PackageJsonUpdate);
  mj_generators : option (Obj.t MigrationsJsonEntry);
  mj_schematics : option (Obj.t MigrationsJsonEntry)
}.

(** A document before [nxMigrateFetcher] renames [schematics]. *)
Record FetchedDocument := mkFetchedDocument {
  fd_version : string;
  fd_packageGroup : option ArrayPackageGroup;
  fd_packageJsonUpdates : option (Obj.t PackageJsonUpdate);
  fd_generators : option (Obj.t MigrationsJsonEntry);
  fd_schematics : option (Obj.t MigrationsJsonEntry)
}.

(** The external operations of the fetcher: the registry's version
    resolution, its view of the migrations entry ([None] when the
    package has none), the creation of a temporary directory and its
    removal, pack-extract-read of the migrations file, and the fetch
    through a scratch install. *)
Record Registry := mkRegistry {
  resolvePackageVersionUsingRegistry : string -> string -> Result string;
  getPackageMigrationsConfigFromRegistry :
    string -> string -> Result (option MigrationsConfig);
  createTempNpmDirectory : Result unit;
  readMigrationsFromTarball : string -> string -> string -> Result MigrationsJson;
  cleanup : Result unit;
  getPackageMigrationsUsingInstall : string -> string -> Result FetchedDocument
}.

Definition failedToFind (migrationsFilePath packageName packageVersion : string)
    : string :=
  "Failed to find migrations file " ++ dquote ++ migrationsFilePath ++ dquote
    ++ " in package " ++ dquote ++ packageName ++ "@" ++ packageVersion
    ++ dquote ++ ".".

(** [createTempNpmDirectory()] is called before the [try]: its failure
    leaves the function as it is.  Any failure of the pack, the
    extraction or the read is rethrown as the same error.  The [finally]
    awaits [cleanup()], whose failure replaces the outcome. *)
Definition downloadPackageMigrationsFromRegistry (registry : Registry)
    (packageName packageVersion migrationsFilePath : string)
    (packageGroup : option ArrayPackageGroup) : Result FetchedDocument :=
  bindR (createTempNpmDirectory registry) (fun _ =>
    let result :=
      match readMigrationsFromTarball registry packageName packageVersion
              migrationsFilePath with
      | Ok migrations =>
          Ok (mkFetchedDocument packageVersion packageGroup
                (mj_packageJsonUpdates migrations) (mj_generators migrations)
                (mj_schematics migrations))
      | _ => Throw (failedToFind migrationsFilePath packageName packageVersion)
      end in
    bindR (cleanup registry) (fun _ => result)).

Definition getPackageMigrationsUsingRegistry (registry : Registry)
    (packageName packageVersion : string) : Result FetchedDocument :=
  bindR (getPackageMigrationsConfigFromRegistry registry packageName packageVersion)
    (fun migrationsConfig =>
       match migrationsConfig with
       | None => Ok (mkFetchedDocument packageVersion None None None None)
       | Some config =>
           match cfg_migrations config with
           | Some (String _ _ as migrationsFilePath) =>
               downloadPackageMigrationsFromRegistry registry packageName
                 packageVersion migrationsFilePath (cfg_packageGroup config)
           | _ =>
               Ok (mkFetchedDocument packageVersion (cfg_packageGroup config)
                     None None None)
           end
       end).

Record FetcherState := mkFetcherState {
  migrationsCache : Obj.t (Result ResolvedMigrationConfiguration);
  resolvedVersionCache : Obj.t (Result string)
}.

Definition cacheKeyOf (packageName packageVersion : string) : string :=
  packageName ++ "-" ++ packageVersion.

(** The callback [then] attaches in [nxMigrateFetcher]: a truthy
    [schematics] replaces [generators] and is deleted. *)
Definition renameSchematics (result : FetchedDocument)
    : ResolvedMigrationConfiguration :=
  mkConfig (fd_version result) (fd_packageGroup result)
           (fd_packageJsonUpdates result)
           match fd_schematics result with
           | Some schematics => Some schematics
           | None => fd_generators result
           end.

(** A document that comes out of the cache has been through
    [renameSchematics] already. *)
Definition alreadyRenamed (config : ResolvedMigrationConfiguration)
    : FetchedDocument :=
  mkFetchedDocument (mc_version config) (mc_packageGroup config)
                    (mc_packageJsonUpdates config) (mc_generators config) None.

(** The first [then] of [fetchMigrations]: the resolved version, from
    the cache when it holds a truthy one, else from the registry, whose
    answer is cached. *)
Definition resolveVersion (registry : Registry) (packageName packageVersion : string)
    (st : FetcherState) : Result string * FetcherState :=
  let cacheKey := cacheKeyOf packageName packageVersion in
  match Obj.get cacheKey (resolvedVersionCache st) with
  | Some (Ok (String _ _ as cached)) => (Ok cached, st)
  | Some (Throw message) => (Throw message, st)
  | _ =>
      let resolved :=
        resolvePackageVersionUsingRegistry registry packageName packageVersion in
      (resolved,
       mkFetcherState (migrationsCache st)
                      (Obj.set cacheKey resolved (resolvedVersionCache st)))
  end.

(** The second [then]: the outcome of the registry path, and whether
    [setCache(packageName, resolvedVersion)] was called. *)
Definition viaRegistry (registry : Registry) (packageName packageVersion : string)
    (resolved : Result string) (st : FetcherState)
    : Result FetchedDocument * option string :=
  match resolved with
  | Ok resolvedVersion =>
      match Obj.get (cacheKeyOf packageName resolvedVersion) (migrationsCache st) with
      | Some cached =>
          if negb (String.eqb resolvedVersion packageVersion)
          then (bindR cached (fun config => Ok (alreadyRenamed config)), None)
          else (getPackageMigrationsUsingRegistry registry packageName
                  resolvedVersion, Some resolvedVersion)
      | None =>
          (getPackageMigrationsUsingRegistry registry packageName resolvedVersion,
           Some resolvedVersion)
      end
  | Throw message => (Throw message, None)
  | OutOfFuel => (OutOfFuel, None)
  end.

(** [fetchMigrations]: the [catch] replaces any failure of the registry
    path by the fetch through a scratch install. *)
Definition fetchMigrations (registry : Registry) (packageName packageVersion : string)
    (st : FetcherState) : Result FetchedDocument * option string * FetcherState :=
  let '(resolved, st1) := resolveVersion registry packageName packageVersion st in
  let '(outcome, cachedAs) :=
    viaRegistry registry packageName packageVersion resolved st1 in
  match outcome with
  | Ok result => (Ok result, cachedAs, st1)
  | _ => (getPackageMigrationsUsingInstall registry packageName packageVersion,
          cachedAs, st1)
  end.

(** [nxMigrateFetcher]: the promise [migrations] is stored under the
    requested version and, when [setCache] was called from
    [fetchMigrations], under the resolved version as well. *)
Definition nxMigrateFetcher (registry : Registry) (packageName packageVersion : string)
    (st : FetcherState)
    : Result ResolvedMigrationConfiguration * FetcherState :=
  match Obj.get (cacheKeyOf packageName packageVersion) (migrationsCache st) with
  | Some cached => (cached, st)
  | None =>
      let '(outcome, cachedAs, st1) :=
        fetchMigrations registry packageName packageVersion st in
      let migrations := bindR outcome (fun result => Ok (renameSchematics result)) in
      let cache1 :=
        Obj.set (cacheKeyOf packageName packageVersion) migrations
                (migrationsCache st1) in
      let cache2 :=
        match cachedAs with
        | Some resolvedVersion =>
            Obj.set (cacheKeyOf packageName resolvedVersion) migrations cache1
        | None => cache1
        end in
      (migrations, mkFetcherState cache2 (resolvedVersionCache st1))
  end.

Module Registries.

(** A registry that knows [pkg@2.0.0], reached from the range [^2]. *)
Definition online : Registry :=
  mkRegistry
    (fun name version => if String.eqb version "^2" then Ok "2.0.0" else Ok version)
    (fun name version => Ok (Some (mkMigrationsConfig (Some "./migrations.json") None)))
    (Ok tt)
    (fun name version path =>
       Ok (mkMigrationsJson None None
             (Some [("m1", Scenario.noMigration "2.0.0")])))
    (Ok tt)
    (fun name version => Throw "install failed").

(** A registry that cannot be reached. *)
Definition offline : Registry :=
  mkRegistry
    (fun name version => Throw "ENOTFOUND")
    (fun name version => Throw "ENOTFOUND")
    (Ok tt)
    (fun name version path => Throw "ENOTFOUND")
    (Ok tt)
    (fun name version => Throw "install failed").

Definition empty : FetcherState := mkFetcherState [] [].

End Registries.

(** ** Vocabulary of the properties *)

(** A three-way comparison that decides a total order. *)
Record TotalCompare {A : Type} (c : A -> A -> comparison) : Prop := {
  tc_eq : forall x y, c x y = Eq <-> x = y;
  tc_antisym : forall x y, c y x = CompOpp (c x y);
  tc_trans : forall x y z, c x y = Lt -> c y z = Lt -> c x z = Lt
}.

(** A variation on which the test [gt(variation, '0.0.0')] does not
    succeed: it returns false or throws. *)
Definition notGreaterThanZero (variation : string) : Prop :=
  Semver.gt variation "0.0.0" <> Some true.

(** The writes to the planner's fields.  [packageUpdates] is assigned in
    [addPackageUpdate] only, [collectedVersions] in
    [populatePackageJsonUpdatesAndGetPackagesToCheck] only, and
    [installedPkgVersionOverrides] in
    [getPackageJsonUpdatesFromPackageGroup] only; each write is
    synchronous, so under any interleaving of the planner's asynchronous
    calls a run is a sequence of these steps. *)
Inductive planner_write : State -> State -> Prop :=
| write_packageUpdate (name : string) (packageUpdate : PackageUpdate) (st : State) :
    planner_write st (Migrator.addPackageUpdate name packageUpdate st)
| write_collectedVersion (name version : string) (st : State) :
    planner_write st (Migrator.setCollectedVersion name version st)
| write_override (child version : string) (st : State) :
    planner_write st (Migrator.defaultOverride child version st).

Definition planner_run : State -> State -> Prop :=
  clos_refl_trans State planner_write.

(** The plan entry of every package is kept or replaced by one of a
    strictly greater version. *)
Definition plan_grows (st st' : State) : Prop :=
  forall p old,
    Obj.get p (packageUpdates st) = Some old ->
    exists new,
      Obj.get p (packageUpdates st') = Some new
      /\ (new = old
          \/ Semver.gt (normalizeVersion (pu_version new))
                       (normalizeVersion (pu_version old)) = Some true)
      /\ Semver.gte (normalizeVersion (pu_version new))
                    (normalizeVersion (pu_version old)) = Some true.

(** A method whose effect on the fields is a sequence of planner writes. *)
Definition writes_only {A} (m : M A) : Prop :=
  forall st a st', m st = Ok (a, st') -> planner_run st st'.

(** The [requires] predicate of an update or a migration, read against the
    installed versions (under the [--from] overrides) and the plan: every
    required package has an installed version or a planned version in its
    range. *)
Definition requiresSatisfied (satisfies : string -> string -> bool)
    (getInstalledPackageVersion : string -> option (Obj.t string) -> option string)
    (st : State) (requirements : option (Obj.t string)) : Prop :=
  forall reqs pkgName versionRange,
    requirements = Some reqs ->
    In (pkgName, versionRange) reqs ->
    (exists v,
        Migrator.getPkgVersion getInstalledPackageVersion st pkgName = Some v
        /\ v <> "" /\ satisfies v versionRange = true)
    \/ (exists planned,
           Obj.get pkgName (packageUpdates st) = Some planned
           /\ pu_version planned <> ""
           /\ satisfies (pu_version planned) versionRange = true).

(** A migration that was skipped before: it has requirements, and one of
    the required packages is not installed or is installed outside its
    range (installed versions read without the [--from] overrides). *)
Definition skippedBefore (satisfies : string -> string -> bool)
    (getInstalledPackageVersion : string -> option (Obj.t string) -> option string)
    (requirements : option (Obj.t string)) : Prop :=
  exists reqs pkgName versionRange,
    requirements = Some reqs
    /\ In (pkgName, versionRange) reqs
    /\ (JS.truthy (getInstalledPackageVersion pkgName None) = false
        \/ exists v,
             getInstalledPackageVersion pkgName None = Some v
             /\ satisfies v versionRange = false).

(** A migration for a higher version than what is installed: it has a
    version that is greater than the installed version of its package
    (read without the [--from] overrides), or the package is not
    installed, and that is at most the planned version. *)
Definition forHigherVersionThanInstalled
    (getInstalledPackageVersion : string -> option (Obj.t string) -> option string)
    (packageName : string) (migration : MigrationsJsonEntry)
    (planned : PackageUpdate) : Prop :=
  exists v,
    mig_version migration = Some v /\ v <> ""
    /\ (JS.truthy (getInstalledPackageVersion packageName None) = false
        \/ exists installed,
             getInstalledPackageVersion packageName None = Some installed
             /\ Semver.gt (normalizeVersion v) (normalizeVersion installed)
                = Some true)
    /\ Semver.lte (normalizeVersion v) (normalizeVersion (pu_version planned))
       = Some true.

(** A version above what is on disk: the package is not installed, or
    the version is strictly greater than the installed one, read without
    the [--from] overrides. *)
Definition aboveWhatIsOnDisk
    (getInstalledPackageVersion : string -> option (Obj.t string) -> option string)
    (packageName version : string) : Prop :=
  JS.truthy (getInstalledPackageVersion packageName None) = false
  \/ exists installed,
       getInstalledPackageVersion packageName None = Some installed
       /\ Semver.gt (normalizeVersion version) (normalizeVersion installed)
          = Some true.

(** The entry of a package group that decides a child: the last one that
    names it. *)
Definition lastGroupEntry (child : string) (packageGroup : ArrayPackageGroup)
    : option PackageGroupEntry :=
  find (fun e => String.eqb (pg_package e) child) (rev packageGroup).

(** What one candidate update contributes to the list returned by
    [filterPackageJsonUpdates]. *)
Definition admittedUpdate (packageJson : PackageJson)
    (getInstalledPackageVersion : string -> option (Obj.t string) -> option string)
    (st : State) (installed targetVersion : string)
    (u : PackageJsonUpdate) : list PackageJsonUpdate :=
  match pju_packages u with
  | None => []
  | Some packages =>
      if Migrator.lte (pju_version u) installed
         || Migrator.gt (pju_version u) targetVersion
      then []
      else match Migrator.filterPackages packageJson getInstalledPackageVersion
                   st packages with
           | [] => []
           | kept => [Migrator.withPackages u kept]
           end
  end.

(** * Properties *)

(** ** The order on versions *)

Lemma tc_refl {A} (c : A -> A -> comparison) :
  TotalCompare c -> forall x, c x x = Eq.
Proof. intros H x. now apply (tc_eq c H). Qed.

Lemma N_compare_total : TotalCompare N.compare.
Proof.
  split.
  - intros x y. apply N.compare_eq_iff.
  - intros x y. apply N.compare_antisym.
  - intros x y z. rewrite !N.compare_lt_iff. lia.
Qed.

Lemma ascii_compare_total : TotalCompare Ascii.compare.
Proof.
  split.
  - intros x y. split.
    + apply Ascii.compare_eq_iff.
    + intros ->. unfold Ascii.compare. apply N.compare_refl.
  - intros x y. apply Ascii.compare_antisym.
  - intros x y z. unfold Ascii.compare. apply (tc_trans _ N_compare_total).
Qed.

(** Comparing first by [c] and then by something else. *)
Lemma then_compare_lt_trans {A} (c : A -> A -> comparison) :
  TotalCompare c ->
  forall a1 a2 a3 (d12 d23 d13 : comparison),
    (d12 = Lt -> d23 = Lt -> d13 = Lt) ->
    Semver.then_compare (c a1 a2) d12 = Lt ->
    Semver.then_compare (c a2 a3) d23 = Lt ->
    Semver.then_compare (c a1 a3) d13 = Lt.
Proof.
  intros H a1 a2 a3 d12 d23 d13 Hd.
  destruct (c a1 a2) eqn:E12; simpl; try discriminate.
  - apply (tc_eq c H) in E12. subst a2.
    destruct (c a1 a3) eqn:E13; simpl; try discriminate; auto.
  - destruct (c a2 a3) eqn:E23; simpl; try discriminate; intros _ _.
    + apply (tc_eq c H) in E23. subst a3. rewrite E12. reflexivity.
    + rewrite (tc_trans c H _ _ _ E12 E23). reflexivity.
Qed.

Lemma then_compare_antisym (c d c' d' : comparison) :
  c' = CompOpp c -> d' = CompOpp d ->
  Semver.then_compare c' d' = CompOpp (Semver.then_compare c d).
Proof. intros -> ->. destruct c; reflexivity. Qed.

Lemma then_compare_eq (c d : comparison) :
  Semver.then_compare c d = Eq <-> c = Eq /\ d = Eq.
Proof. destruct c; simpl; intuition discriminate. Qed.

Lemma then_compare_assoc (a b c : comparison) :
  Semver.then_compare (Semver.then_compare a b) c
  = Semver.then_compare a (Semver.then_compare b c).
Proof. destruct a; reflexivity. Qed.

Lemma string_compare_total : TotalCompare String.compare.
Proof.
  split.
  - intros x y. split.
    + apply String.compare_eq_iff.
    + intros ->. induction y as [|c y IH]; simpl; auto.
      rewrite (tc_refl _ ascii_compare_total). exact IH.
  - intros x y. rewrite (String.compare_antisym x y).
    destruct (String.compare y x); reflexivity.
  - intros x. induction x as [|a x IH]; intros [|b y] [|c z]; simpl;
      try discriminate; auto.
    apply (then_compare_lt_trans _ ascii_compare_total a b c
             (String.compare x y) (String.compare y z) (String.compare x z)).
    apply IH.
Qed.

(** Identifiers.  [compareIdentifiers] is not a total order on
    identifiers: two different runs of digits from 2^53 on can have the
    same value as doubles.  It is a strict weak order, which is what the
    planner's [gt] needs. *)

Lemma identical_eq (a b : Semver.Identifier) :
  Semver.identical a b = true <-> a = b.
Proof.
  destruct a as [x|s], b as [y|t]; simpl; split; try discriminate.
  - intros H. apply N.eqb_eq in H. now subst.
  - intros [= ->]. apply N.eqb_refl.
  - intros H. apply String.eqb_eq in H. now subst.
  - intros [= ->]. apply String.eqb_refl.
Qed.

Lemma identical_refl (a : Semver.Identifier) : Semver.identical a a = true.
Proof. now apply identical_eq. Qed.

Lemma identical_sym (a b : Semver.Identifier) :
  Semver.identical b a = Semver.identical a b.
Proof.
  destruct (Semver.identical a b) eqn:E.
  - apply identical_eq in E. subst. apply identical_refl.
  - destruct (Semver.identical b a) eqn:E'; auto.
    apply identical_eq in E'. subst. rewrite identical_refl in E. discriminate.
Qed.

Lemma compareIdentifiers_refl (a : Semver.Identifier) :
  Semver.compareIdentifiers a a = Eq.
Proof.
  unfold Semver.compareIdentifiers.
  destruct (Semver.numeric a) eqn:E.
  - apply N.compare_refl.
  - destruct a; [discriminate|]. apply (tc_refl _ string_compare_total).
Qed.

Lemma compareIdentifiers_antisym (a b : Semver.Identifier) :
  Semver.compareIdentifiers b a = CompOpp (Semver.compareIdentifiers a b).
Proof.
  unfold Semver.compareIdentifiers.
  destruct (Semver.numeric a) eqn:Ea, (Semver.numeric b) eqn:Eb; auto.
  - apply N.compare_antisym.
  - destruct a; [discriminate|]. destruct b; [discriminate|].
    apply (tc_antisym _ string_compare_total).
Qed.

Lemma compareIdentifiers_lt_trans (a b c : Semver.Identifier) :
  Semver.compareIdentifiers a b = Lt ->
  Semver.compareIdentifiers b c = Lt ->
  Semver.compareIdentifiers a c = Lt.
Proof.
  unfold Semver.compareIdentifiers.
  destruct (Semver.numeric a) eqn:Ea, (Semver.numeric b) eqn:Eb,
    (Semver.numeric c) eqn:Ec; try discriminate; auto.
  - apply (tc_trans _ N_compare_total).
  - destruct a; [discriminate|]. destruct b; [discriminate|].
    destruct c; [discriminate|]. apply (tc_trans _ string_compare_total).
Qed.

Lemma compareIdentifierLists_refl (p : list Semver.Identifier) :
  Semver.compareIdentifierLists p p = Eq.
Proof.
  induction p as [|a p IH]; simpl; auto. now rewrite identical_refl.
Qed.

Lemma compareIdentifierLists_antisym (p q : list Semver.Identifier) :
  Semver.compareIdentifierLists q p
  = CompOpp (Semver.compareIdentifierLists p q).
Proof.
  revert q. induction p as [|a p IH]; intros [|b q]; simpl; auto.
  rewrite identical_sym. destruct (Semver.identical a b); auto.
  apply compareIdentifiers_antisym.
Qed.

Lemma compareIdentifierLists_lt_trans (p q r : list Semver.Identifier) :
  Semver.compareIdentifierLists p q = Lt ->
  Semver.compareIdentifierLists q r = Lt ->
  Semver.compareIdentifierLists p r = Lt.
Proof.
  revert q r. induction p as [|a p IH]; intros [|b q] [|c r]; simpl;
    try discriminate; auto.
  destruct (Semver.identical a b) eqn:Eab.
  - apply identical_eq in Eab. subst b.
    destruct (Semver.identical a c); auto. apply IH.
  - destruct (Semver.identical b c) eqn:Ebc.
    + apply identical_eq in Ebc. subst c. rewrite Eab. auto.
    + intros Hab Hbc.
      pose proof (compareIdentifiers_lt_trans a b c Hab Hbc) as Hac.
      destruct (Semver.identical a c) eqn:Eac; [|exact Hac].
      apply identical_eq in Eac. subst c.
      rewrite compareIdentifiers_refl in Hac. discriminate.
Qed.

Lemma comparePre_refl (p : list Semver.Identifier) : Semver.comparePre p p = Eq.
Proof.
  destruct p as [|a p]; [reflexivity|].
  apply (compareIdentifierLists_refl (a :: p)).
Qed.

Lemma comparePre_antisym (p q : list Semver.Identifier) :
  Semver.comparePre q p = CompOpp (Semver.comparePre p q).
Proof.
  destruct p as [|a p], q as [|b q]; simpl; auto.
  apply (compareIdentifierLists_antisym (a :: p) (b :: q)).
Qed.

Lemma comparePre_lt_trans (p q r : list Semver.Identifier) :
  Semver.comparePre p q = Lt -> Semver.comparePre q r = Lt ->
  Semver.comparePre p r = Lt.
Proof.
  destruct p as [|a p], q as [|b q], r as [|c r]; try discriminate; auto.
  apply (compareIdentifierLists_lt_trans (a :: p) (b :: q) (c :: r)).
Qed.

(** Versions: [compare] is reflexive, antisymmetric in its outcome and
    transitive on [<] and on [>]. *)

Lemma compareSemVer_refl (x : Semver.SemVer) : Semver.compareSemVer x x = Eq.
Proof.
  unfold Semver.compareSemVer, Semver.compareMain.
  rewrite !N.compare_refl. apply comparePre_refl.
Qed.

Lemma compareSemVer_antisym (x y : Semver.SemVer) :
  Semver.compareSemVer y x = CompOpp (Semver.compareSemVer x y).
Proof.
  unfold Semver.compareSemVer, Semver.compareMain.
  repeat apply then_compare_antisym; try apply N.compare_antisym.
  apply comparePre_antisym.
Qed.

Lemma compareSemVer_lt_trans (x y z : Semver.SemVer) :
  Semver.compareSemVer x y = Lt -> Semver.compareSemVer y z = Lt ->
  Semver.compareSemVer x z = Lt.
Proof.
  unfold Semver.compareSemVer, Semver.compareMain.
  rewrite !then_compare_assoc.
  repeat (apply (then_compare_lt_trans _ N_compare_total)).
  apply comparePre_lt_trans.
Qed.

Lemma compareSemVer_gt_trans (x y z : Semver.SemVer) :
  Semver.compareSemVer x y = Gt -> Semver.compareSemVer y z = Gt ->
  Semver.compareSemVer x z = Gt.
Proof.
  intros Hxy Hyz.
  assert (Hzy : Semver.compareSemVer z y = Lt)
    by (rewrite (compareSemVer_antisym y z), Hyz; reflexivity).
  assert (Hyx : Semver.compareSemVer y x = Lt)
    by (rewrite (compareSemVer_antisym x y), Hxy; reflexivity).
  rewrite (compareSemVer_antisym z x), (compareSemVer_lt_trans z y x Hzy Hyx).
  reflexivity.
Qed.

(** ** Splitting and joining *)

Lemma absent_cons (c a : ascii) (s : string) :
  absent c (String a s) <-> Ascii.eqb a c = false /\ absent c s.
Proof.
  unfold absent. simpl. destruct (Ascii.eqb a c).
  - split; [discriminate | intros [H _]; discriminate].
  - destruct (JS.indexOf c s); simpl; split; try discriminate; auto.
    intros [_ H]. discriminate.
Qed.

Lemma absent_app (c : ascii) (a b : string) :
  absent c (a ++ b) <-> absent c a /\ absent c b.
Proof.
  induction a as [|x a IH]; simpl.
  - unfold absent at 2. simpl. tauto.
  - rewrite !absent_cons, IH. tauto.
Qed.

Lemma split_absent (c : ascii) (s : string) :
  absent c s -> JS.split c s = [s].
Proof.
  induction s as [|a s IH]; simpl; auto.
  rewrite absent_cons. intros [Ha Hs]. rewrite Ha, (IH Hs). reflexivity.
Qed.

Lemma split_app (c : ascii) (a b : string) :
  absent c a -> JS.split c (a ++ String c b) = a :: JS.split c b.
Proof.
  induction a as [|x a IH]; simpl.
  - intros _. rewrite Ascii.eqb_refl. reflexivity.
  - rewrite absent_cons. intros [Hx Ha]. rewrite Hx, (IH Ha). reflexivity.
Qed.

Lemma split_pieces_absent (c : ascii) (s piece : string) :
  In piece (JS.split c s) -> absent c piece.
Proof.
  revert piece. induction s as [|a s IH]; simpl; intros piece.
  - intros [<- | []]. reflexivity.
  - destruct (Ascii.eqb a c) eqn:E.
    + intros [<- | H]; [reflexivity | auto].
    + destruct (JS.split c s) as [|p ps].
      * intros [<- | []]. apply absent_cons. split; [exact E | reflexivity].
      * intros [<- | H].
        -- apply absent_cons. split; [exact E|]. apply IH. now left.
        -- apply IH. now right.
Qed.

Lemma split_first_absent (c d : ascii) (s : string) :
  absent c s ->
  forall piece, In piece (JS.split d s) -> absent c piece.
Proof.
  induction s as [|a s IH]; simpl; intros Hs piece.
  - intros [<- | []]. reflexivity.
  - apply absent_cons in Hs. destruct Hs as [Ha Hs].
    destruct (Ascii.eqb a d).
    + intros [<- | H]; [reflexivity | auto].
    + destruct (JS.split d s) as [|p ps].
      * intros [<- | []]. apply absent_cons. split; [exact Ha | reflexivity].
      * intros [<- | H].
        -- apply absent_cons. split; [exact Ha|]. apply (IH Hs). now left.
        -- apply (IH Hs). now right.
Qed.

Lemma or_zero_absent (c : ascii) (o : option string) :
  Ascii.eqb "0" c = false ->
  (forall s, o = Some s -> absent c s) ->
  absent c (JS.or_zero o) /\ JS.or_zero o <> "".
Proof.
  intros Hc Ho. destruct o as [[|a s]|]; simpl.
  - split; [|discriminate]. apply absent_cons. split; [exact Hc | reflexivity].
  - split; [|discriminate]. now apply Ho.
  - split; [|discriminate]. apply absent_cons. split; [exact Hc | reflexivity].
Qed.

Lemma or_zero_nonempty (s : string) : s <> "" -> JS.or_zero (Some s) = s.
Proof. destruct s; [congruence | reflexivity]. Qed.

(** ** The variations of [normalizeVersion] *)

(** The variations of a string that already has the shape
    [major.minor.patch], optionally followed by [-tag]. *)
Lemma variations_of_plain (M m p : string) :
  absent "." M -> absent "." m -> absent "." p ->
  absent "-" M -> absent "-" m -> absent "-" p ->
  M <> "" -> m <> "" -> p <> "" ->
  variationsToCheck (M ++ "." ++ m ++ "." ++ p)
  = [M ++ "." ++ m ++ "." ++ p; M ++ "." ++ m ++ "." ++ p;
     M ++ "." ++ m ++ ".0"; M ++ ".0.0"].
Proof.
  intros HM Hm Hp HM' Hm' Hp' NM Nm Np.
  unfold variationsToCheck.
  assert (Hfree : absent "-" (M ++ "." ++ m ++ "." ++ p)).
  { simpl. rewrite absent_app, absent_cons, absent_app, absent_cons. auto. }
  rewrite (split_absent "-" _ Hfree). simpl JS.at_index.
  simpl append at 1.
  change (M ++ "." ++ m ++ "." ++ p) with (M ++ String "." (m ++ String "." p)).
  rewrite (split_app "." M _ HM), (split_app "." m _ Hm), (split_absent "." p Hp).
  simpl JS.at_index.
  rewrite !or_zero_nonempty by assumption. reflexivity.
Qed.

Lemma variations_of_tagged (M m p tag : string) :
  absent "." M -> absent "." m -> absent "." p ->
  absent "-" M -> absent "-" m -> absent "-" p ->
  M <> "" -> m <> "" -> p <> "" ->
  absent "-" tag -> tag <> "" ->
  variationsToCheck ((M ++ "." ++ m ++ "." ++ p) ++ "-" ++ tag)
  = [(M ++ "." ++ m ++ "." ++ p) ++ "-" ++ tag; M ++ "." ++ m ++ "." ++ p;
     M ++ "." ++ m ++ ".0"; M ++ ".0.0"].
Proof.
  intros HM Hm Hp HM' Hm' Hp' NM Nm Np Htag Ntag.
  unfold variationsToCheck.
  assert (Hfree : absent "-" (M ++ "." ++ m ++ "." ++ p)).
  { simpl. rewrite absent_app, absent_cons, absent_app, absent_cons. auto. }
  change ((M ++ "." ++ m ++ "." ++ p) ++ "-" ++ tag)
    with ((M ++ "." ++ m ++ "." ++ p) ++ String "-" tag).
  rewrite (split_app "-" _ tag Hfree), (split_absent "-" tag Htag).
  simpl JS.at_index.
  change (M ++ "." ++ m ++ "." ++ p) with (M ++ String "." (m ++ String "." p)).
  rewrite (split_app "." M _ HM), (split_app "." m _ Hm), (split_absent "." p Hp).
  simpl JS.at_index.
  rewrite !or_zero_nonempty by assumption.
  destruct tag as [|t tag']; [congruence|]. reflexivity.
Qed.

Lemma normalizeVersion_fixes_first (v : string) (rest : list string) :
  variationsToCheck v = v :: rest ->
  Semver.gt v "0.0.0" = Some true ->
  normalizeVersion v = v.
Proof.
  intros Hv Hgt. unfold normalizeVersion. rewrite Hv. simpl. rewrite Hgt.
  reflexivity.
Qed.

(** ** [normalizeVersion] *)

Lemma firstGreaterThanZero_some (variations : list string) (variation : string) :
  firstGreaterThanZero variations = Some variation ->
  exists before after,
    variations = (before ++ variation :: after)%list
    /\ Semver.gt variation "0.0.0" = Some true
    /\ Forall notGreaterThanZero before.
Proof.
  induction variations as [|x xs IH]; simpl; [discriminate|].
  destruct (Semver.gt x "0.0.0") as [[|]|] eqn:E.
  - intros [= <-]. exists [], xs. repeat split; auto.
  - intros H. destruct (IH H) as (before & after & -> & Hgt & Hall).
    exists (x :: before), after. repeat split; auto.
    constructor; auto. unfold notGreaterThanZero. rewrite E. discriminate.
  - intros H. destruct (IH H) as (before & after & -> & Hgt & Hall).
    exists (x :: before), after. repeat split; auto.
    constructor; auto. unfold notGreaterThanZero. rewrite E. discriminate.
Qed.


Lemma gt_parses (a b : string) (r : bool) :
  Semver.gt a b = Some r -> exists sv, Semver.construct a = Some sv.
Proof.
  unfold Semver.gt, Semver.compare.
  destruct (Semver.construct a) as [sv|]; [eauto | discriminate].
Qed.

(** [normalizeVersion] always returns a version that [new SemVer]
    accepts. *)
Lemma normalizeVersion_valid (version : string) :
  exists sv, Semver.construct (normalizeVersion version) = Some sv.
Proof.
  unfold normalizeVersion.
  destruct (firstGreaterThanZero (variationsToCheck version)) as [v|] eqn:E.
  - apply firstGreaterThanZero_some in E.
    destruct E as (_ & _ & _ & Hgt & _). eapply gt_parses; eauto.
  - eexists. vm_compute. reflexivity.
Qed.

Lemma compare_normalized (a b : string) :
  exists x y,
    Semver.construct (normalizeVersion a) = Some x
    /\ Semver.construct (normalizeVersion b) = Some y
    /\ Semver.compare (normalizeVersion a) (normalizeVersion b)
       = Some (Semver.compareSemVer x y).
Proof.
  destruct (normalizeVersion_valid a) as [x Hx].
  destruct (normalizeVersion_valid b) as [y Hy].
  exists x, y. unfold Semver.compare. rewrite Hx, Hy. auto.
Qed.

(** [this.gt] and [this.lte] never throw. *)
Lemma gt_total (v1 v2 : string) :
  Semver.gt (normalizeVersion v1) (normalizeVersion v2) = Some (Migrator.gt v1 v2).
Proof.
  unfold Migrator.gt, Semver.gt.
  destruct (compare_normalized v1 v2) as (x & y & _ & _ & ->). reflexivity.
Qed.

Lemma lte_total (v1 v2 : string) :
  Semver.lte (normalizeVersion v1) (normalizeVersion v2) = Some (Migrator.lte v1 v2).
Proof.
  unfold Migrator.lte, Semver.lte.
  destruct (compare_normalized v1 v2) as (x & y & _ & _ & ->). reflexivity.
Qed.











(** ** [parseTargetPackageAndVersion] *)

Lemma lt_normalized (version bound : string) :
  (exists sv, Semver.construct bound = Some sv) ->
  exists below, Semver.lt (normalizeVersion version) bound = Some below.
Proof.
  intros [b Hb]. destruct (normalizeVersion_valid version) as [x Hx].
  unfold Semver.lt, Semver.compare. rewrite Hx, Hb. simpl. eauto.
Qed.

(** C9.  On an argument without ['@']: the tags [latest] and [next] give
    the package [nx] and are passed through as the target version; a
    version that is valid for [semver]'s [valid] (which does not trim
    its argument) or partial ([1], [1.2], [1.2.3]) gives
    [@nrwl/workspace] when its normalized form is below [14.0.0-beta.0]
    and [nx] otherwise, the target version being the normalized form. *)
Theorem parseTargetPackageAndVersion_bare_version (args : string) :
  JS.indexOf "@" args = None ->
  (args = "latest" \/ args = "next" ->
   parseTargetPackageAndVersion args = Ok ("nx", args))
  /\ (args <> "latest" -> args <> "next" ->
      Semver.valid args = true \/ JS.matches_partial_version args = true ->
      exists below,
        Semver.lt (normalizeVersion args) "14.0.0-beta.0" = Some below
        /\ parseTargetPackageAndVersion args
           = Ok (if below then "@nrwl/workspace" else "nx",
                 normalizeVersion args)).
Proof.
  intros Hat. split.
  - intros [-> | ->]; vm_compute; reflexivity.
  - intros Hl Hn Hv.
    destruct (lt_normalized args "14.0.0-beta.0") as [below Hlt].
    { eexists. vm_compute. reflexivity. }
    exists below. split; [exact Hlt|].
    unfold parseTargetPackageAndVersion, normalizeVersionWithTagCheck.
    destruct args as [|c args'].
    { destruct Hv as [Hv | Hv]; vm_compute in Hv; discriminate. }
    rewrite Hat.
    apply String.eqb_neq in Hl. apply String.eqb_neq in Hn.
    rewrite Hl, Hn. simpl orb.
    replace (Semver.valid (String c args')
             || JS.matches_partial_version (String c args')) with true
      by (destruct Hv as [-> | ->]; [reflexivity | now rewrite orb_true_r]).
    rewrite Hlt. destruct below; reflexivity.
Qed.

(** Scenario 5 of the specification: ["13"] selects [@nrwl/workspace]. *)
Lemma parseTargetPackageAndVersion_bare_version_witness :
  exists below,
    Semver.lt (normalizeVersion "13") "14.0.0-beta.0" = Some below
    /\ parseTargetPackageAndVersion "13"
       = Ok (if below then "@nrwl/workspace" else "nx", normalizeVersion "13").
Proof.
  apply (proj2 (parseTargetPackageAndVersion_bare_version "13" eq_refl)).
  - discriminate.
  - discriminate.
  - right. reflexivity.
Defined.

Example parse_15 : parseTargetPackageAndVersion "15" = Ok ("nx", "15.0.0").
Proof. reflexivity. Qed.

Example parse_13 :
  parseTargetPackageAndVersion "13" = Ok ("@nrwl/workspace", "13.0.0").
Proof. reflexivity. Qed.

(** A version with white space before it is not a bare version. *)
Example parse_padded_version :
  Semver.valid " 1.2.3" = false
  /\ parseTargetPackageAndVersion " 1.2.3" = Ok (" 1.2.3", "latest").
Proof. split; reflexivity. Qed.

(** ** Records *)

Lemma get_replace {V} (k k' : string) (v : V) (o : Obj.t V) :
  Obj.get k (Obj.replace k' v o)
  = match Obj.get k' o with
    | Some _ => if String.eqb k' k then Some v else Obj.get k o
    | None => Obj.get k o
    end.
Proof.
  induction o as [|[k0 v0] o IH]; simpl; [reflexivity|].
  destruct (String.eqb k0 k') eqn:E0; simpl.
  - apply String.eqb_eq in E0. subst k0.
    destruct (String.eqb k' k); reflexivity.
  - rewrite IH. destruct (String.eqb k0 k) eqn:E1.
    + apply String.eqb_eq in E1. subst k0. rewrite String.eqb_sym, E0.
      destruct (Obj.get k' o); reflexivity.
    + reflexivity.
Qed.

Lemma get_app_last {V} (k k' : string) (v : V) (o : Obj.t V) :
  Obj.get k (o ++ [(k', v)])%list
  = match Obj.get k o with
    | Some x => Some x
    | None => if String.eqb k' k then Some v else None
    end.
Proof.
  induction o as [|[k0 v0] o IH]; simpl; [reflexivity|].
  destruct (String.eqb k0 k); auto.
Qed.

Lemma get_insertIndex {V} (n : N) (k k' : string) (v : V) (o : Obj.t V) :
  Obj.get k' o = None ->
  Obj.get k (Obj.insertIndex n k' v o)
  = if String.eqb k' k then Some v else Obj.get k o.
Proof.
  induction o as [|[k0 v0] o IH]; simpl; [reflexivity|].
  destruct (String.eqb k0 k') eqn:E0; [discriminate|]. intros Hnone.
  destruct (Obj.arrayIndex k0) as [m|]; [destruct (m <? n)%N|]; simpl;
    try reflexivity.
  rewrite (IH Hnone). destruct (String.eqb k0 k) eqn:E1; [|reflexivity].
  apply String.eqb_eq in E1. subst k0. rewrite String.eqb_sym, E0. reflexivity.
Qed.

Lemma get_set {V} (k k' : string) (v : V) (o : Obj.t V) :
  Obj.get k (Obj.set k' v o) = if String.eqb k' k then Some v else Obj.get k o.
Proof.
  unfold Obj.set. destruct (Obj.get k' o) as [x|] eqn:E.
  - rewrite get_replace, E. reflexivity.
  - destruct (Obj.arrayIndex k') as [n|].
    + now apply get_insertIndex.
    + rewrite get_app_last. destruct (String.eqb k' k) eqn:Ek.
      * apply String.eqb_eq in Ek. subst k'. rewrite E. reflexivity.
      * destruct (Obj.get k o); reflexivity.
Qed.

Lemma get_set_same {V} (k : string) (v : V) (o : Obj.t V) :
  Obj.get k (Obj.set k v o) = Some v.
Proof. rewrite get_set, String.eqb_refl. reflexivity. Qed.

(** The first property of an object. *)
Lemma set_empty {V} (k : string) (v : V) : Obj.set k v [] = [(k, v)].
Proof. unfold Obj.set. simpl. destruct (Obj.arrayIndex k); reflexivity. Qed.

Lemma keys_replace {V} (k : string) (v : V) (o : Obj.t V) :
  Obj.keys (Obj.replace k v o) = Obj.keys o.
Proof.
  induction o as [|[k0 v0] o IH]; simpl; [reflexivity|].
  destruct (String.eqb k0 k); simpl; [reflexivity|].
  f_equal. exact IH.
Qed.

Lemma insertIndex_perm {V} (n : N) (k : string) (v : V) (o : Obj.t V) :
  Permutation (Obj.insertIndex n k v o) ((k, v) :: o).
Proof.
  induction o as [|[k0 v0] o IH]; simpl; [reflexivity|].
  destruct (Obj.arrayIndex k0) as [m|]; [destruct (m <? n)%N|];
    try reflexivity.
  eapply perm_trans;
    [apply perm_skip, IH | apply perm_swap].
Qed.

(** A new key is added somewhere, and nothing else moves. *)
Lemma set_absent_perm {V} (k : string) (v : V) (o : Obj.t V) :
  Obj.get k o = None ->
  Permutation (Obj.set k v o) ((k, v) :: o).
Proof.
  intros H. unfold Obj.set. rewrite H.
  destruct (Obj.arrayIndex k) as [n|]; [apply insertIndex_perm|].
  symmetry. apply Permutation_cons_append.
Qed.

(** ** The plan only grows (invariant 1) *)

Lemma semver_gt_trans (a b c : string) :
  Semver.gt a b = Some true -> Semver.gt b c = Some true ->
  Semver.gt a c = Some true.
Proof.
  unfold Semver.gt, Semver.compare.
  destruct (Semver.construct a) as [x|]; [|discriminate].
  destruct (Semver.construct b) as [y|]; [|discriminate].
  destruct (Semver.construct c) as [z|]; [|discriminate].
  simpl. intros [= Hxy] [= Hyz].
  destruct (Semver.compareSemVer x y) eqn:Exy; try discriminate.
  destruct (Semver.compareSemVer y z) eqn:Eyz; try discriminate.
  rewrite (compareSemVer_gt_trans x y z Exy Eyz). reflexivity.
Qed.

Lemma semver_gt_gte (a b : string) :
  Semver.gt a b = Some true -> Semver.gte a b = Some true.
Proof.
  unfold Semver.gt, Semver.gte.
  destruct (Semver.compare a b) as [[| |]|]; simpl; congruence.
Qed.

Lemma semver_gte_refl_normalized (v : string) :
  Semver.gte (normalizeVersion v) (normalizeVersion v) = Some true.
Proof.
  destruct (normalizeVersion_valid v) as [x Hx].
  unfold Semver.gte, Semver.compare. rewrite Hx. simpl.
  rewrite compareSemVer_refl. reflexivity.
Qed.

Lemma plan_grows_refl (st : State) : plan_grows st st.
Proof.
  intros p old H. exists old. repeat split; auto.
  apply semver_gte_refl_normalized.
Qed.

Lemma plan_grows_same_plan (st st' : State) :
  packageUpdates st' = packageUpdates st -> plan_grows st st'.
Proof.
  intros E p old H. exists old. rewrite E. repeat split; auto.
  apply semver_gte_refl_normalized.
Qed.

Lemma plan_grows_trans (st1 st2 st3 : State) :
  plan_grows st1 st2 -> plan_grows st2 st3 -> plan_grows st1 st3.
Proof.
  intros H12 H23 p old Hold.
  destruct (H12 p old Hold) as (mid & Hmid & Hcmp1 & Hge1).
  destruct (H23 p mid Hmid) as (new & Hnew & Hcmp2 & Hge2).
  exists new. split; [exact Hnew|].
  assert (Hcmp : new = old
                 \/ Semver.gt (normalizeVersion (pu_version new))
                              (normalizeVersion (pu_version old)) = Some true).
  { destruct Hcmp2 as [-> | Hgt2]; [exact Hcmp1|].
    destruct Hcmp1 as [-> | Hgt1]; [right; exact Hgt2|].
    right. eapply semver_gt_trans; eauto. }
  split; [exact Hcmp|].
  destruct Hcmp as [-> | Hgt].
  - apply semver_gte_refl_normalized.
  - now apply semver_gt_gte.
Qed.

(** [addPackageUpdate] replaces an entry only by a strictly greater one. *)
Lemma addPackageUpdate_grows (name : string) (packageUpdate : PackageUpdate)
    (st : State) :
  plan_grows st (Migrator.addPackageUpdate name packageUpdate st).
Proof.
  unfold Migrator.addPackageUpdate.
  destruct (Obj.get name (packageUpdates st)) as [existing|] eqn:E.
  - destruct (Migrator.gt (pu_version packageUpdate) (pu_version existing)) eqn:G;
      [|apply plan_grows_refl].
    intros p old Hold. simpl. rewrite get_set.
    destruct (String.eqb name p) eqn:Ep.
    + apply String.eqb_eq in Ep. subst p.
      assert (old = existing) by congruence. subst old.
      assert (Hgt : Semver.gt (normalizeVersion (pu_version packageUpdate))
                              (normalizeVersion (pu_version existing)) = Some true)
        by (rewrite gt_total, G; reflexivity).
      exists packageUpdate. repeat split; auto. now apply semver_gt_gte.
    + exists old. repeat split; auto. apply semver_gte_refl_normalized.
  - intros p old Hold. simpl. rewrite get_set.
    destruct (String.eqb name p) eqn:Ep.
    + apply String.eqb_eq in Ep. subst p. congruence.
    + exists old. repeat split; auto. apply semver_gte_refl_normalized.
Qed.

Lemma planner_write_grows (st st' : State) :
  planner_write st st' -> plan_grows st st'.
Proof.
  intros [name packageUpdate s | name version s | child version s].
  - apply addPackageUpdate_grows.
  - apply plan_grows_same_plan. reflexivity.
  - apply plan_grows_same_plan. unfold Migrator.defaultOverride.
    destruct (Obj.get child (installedPkgVersionOverrides s)); reflexivity.
Qed.

(** C2.  Along any sequence of planner writes, the plan entry of every
    package is either kept or replaced by an entry of strictly greater
    version (compared after [normalizeVersion]); hence its version never
    decreases. *)
Theorem packageUpdates_monotone (st st' : State) :
  planner_run st st' ->
  forall p old,
    Obj.get p (packageUpdates st) = Some old ->
    exists new,
      Obj.get p (packageUpdates st') = Some new
      /\ (new = old
          \/ Semver.gt (normalizeVersion (pu_version new))
                       (normalizeVersion (pu_version old)) = Some true)
      /\ Semver.gte (normalizeVersion (pu_version new))
                    (normalizeVersion (pu_version old)) = Some true.
Proof.
  intros Hrun. change (plan_grows st st').
  induction Hrun as [s s' Hstep | s | s1 s2 s3 _ IH12 _ IH23].
  - now apply planner_write_grows.
  - apply plan_grows_refl.
  - eapply plan_grows_trans; eauto.
Qed.

(** ** Phase 1 is a sequence of planner writes *)

Lemma writes_only_ret {A} (a : A) : writes_only (ret a).
Proof. intros st a' st' [= _ <-]. apply rt_refl. Qed.

Lemma writes_only_bind {A B} (m : M A) (f : A -> M B) :
  writes_only m -> (forall a, writes_only (f a)) -> writes_only (bind m f).
Proof.
  intros Hm Hf st b st'. unfold bind.
  destruct (m st) as [[a st1]| |] eqn:E; try discriminate.
  intros H. eapply rt_trans; [eapply Hm; eauto | eapply Hf; eauto].
Qed.

Lemma writes_only_modify (f : State -> State) :
  (forall st, planner_write st (f st)) -> writes_only (modify f).
Proof. intros Hf st a st' [= _ <-]. apply rt_step, Hf. Qed.

Lemma writes_only_read {A} (r : State -> Result A) :
  writes_only (fun st => bindR (r st) (fun a => Ok (a, st))).
Proof.
  intros st a st'. destruct (r st); simpl; try discriminate.
  intros [= _ <-]. apply rt_refl.
Qed.

Lemma writes_only_mapM {A B} (f : A -> M B) (l : list A) :
  (forall x, writes_only (f x)) -> writes_only (mapM f l).
Proof.
  intros Hf. induction l as [|x xs IH]; simpl.
  - apply writes_only_ret.
  - apply writes_only_bind; [apply Hf|]. intros y.
    apply writes_only_bind; [apply IH|]. intros ys. apply writes_only_ret.
Qed.

Lemma expandGroup_run (packageName targetVersion : string)
    (packageGroup : ArrayPackageGroup) (packages : Obj.t PackageUpdate) (st : State) :
  planner_run st
    (snd (Migrator.expandGroup packageName targetVersion packageGroup packages st)).
Proof.
  revert packages st.
  induction packageGroup as [|packageConfig rest IH]; intros packages st; simpl.
  - apply rt_refl.
  - eapply rt_trans; [|apply IH].
    destruct (String.eqb (pg_version packageConfig) "*"); [|apply rt_refl].
    destruct (Obj.get packageName (installedPkgVersionOverrides st))
      as [[|c v]|]; try apply rt_refl.
    apply rt_step. constructor.
Qed.

Lemma getPackageJsonUpdatesFromPackageGroup_writes
    (packageName targetVersion : string)
    (migrationConfig : ResolvedMigrationConfiguration) :
  writes_only (Migrator.getPackageJsonUpdatesFromPackageGroup
                 packageName targetVersion migrationConfig).
Proof.
  intros st a st'. unfold Migrator.getPackageJsonUpdatesFromPackageGroup.
  destruct (Migrator.selectPackageGroup packageName targetVersion migrationConfig)
    as [packageGroup| |]; simpl; try discriminate.
  destruct packageGroup as [|e rest].
  - intros [= _ <-]. apply rt_refl.
  - pose proof (expandGroup_run packageName targetVersion (e :: rest) Obj.empty st)
      as Hrun.
    destruct (Migrator.expandGroup packageName targetVersion (e :: rest) Obj.empty st)
      as [packages st1].
    intros [= _ <-]. exact Hrun.
Qed.

Section PlannerProperties.

Variable satisfies : string -> string -> bool.
Variable cleanSemver : string -> option string.
Variable confirm : string -> bool.
Variable packageJson : PackageJson.
Variable getInstalledPackageVersion :
  string -> option (Obj.t string) -> option string.
Variable fetch : string -> string -> Result ResolvedMigrationConfiguration.
Variable to : Obj.t string.
Variable interactive : bool.
Variable excludeAppliedMigrations : bool.

Local Abbreviation getPkgVersion :=
  (Migrator.getPkgVersion getInstalledPackageVersion).
Local Abbreviation areRequirementsMet :=
  (Migrator.areRequirementsMet satisfies cleanSemver getInstalledPackageVersion).
Local Abbreviation populateAfterCheck :=
  (Migrator.populateAfterCheck packageJson getInstalledPackageVersion interactive).
Local Abbreviation populateAfterFetch :=
  (Migrator.populateAfterFetch packageJson getInstalledPackageVersion interactive).
Local Abbreviation populateBody :=
  (Migrator.populateBody packageJson getInstalledPackageVersion fetch to
     interactive).
Local Abbreviation populatePackageJsonUpdatesAndGetPackagesToCheck :=
  (Migrator.populatePackageJsonUpdatesAndGetPackagesToCheck
     packageJson getInstalledPackageVersion fetch to interactive).
Local Abbreviation buildPackageJsonUpdates :=
  (Migrator.buildPackageJsonUpdates satisfies cleanSemver confirm packageJson
     getInstalledPackageVersion fetch to interactive).

Lemma getPackageJsonUpdatesFromMigrationConfig_writes
    (packageName targetVersion : string)
    (migrationConfig : ResolvedMigrationConfiguration) :
  writes_only (Migrator.getPackageJsonUpdatesFromMigrationConfig
                 packageJson getInstalledPackageVersion
                 packageName targetVersion migrationConfig).
Proof.
  unfold Migrator.getPackageJsonUpdatesFromMigrationConfig.
  apply writes_only_bind;
    [apply getPackageJsonUpdatesFromPackageGroup_writes|].
  intros [order config'] st a st'.
  destruct (mc_packageJsonUpdates config') as [updates|].
  - destruct (negb (JS.truthy (getPkgVersion st packageName))).
    + intros [= _ <-]. apply rt_refl.
    + destruct (Migrator.filterPackageJsonUpdates _ _ _ _ _ _); simpl;
        try discriminate.
      intros [= _ <-]. apply rt_refl.
  - intros [= _ <-]. apply rt_refl.
Qed.

Lemma populateAfterCheck_writes recurse targetPackage target migrationConfig :
  (forall name update, writes_only (recurse name update)) ->
  writes_only (populateAfterCheck recurse targetPackage target migrationConfig).
Proof.
  intros Hrec. unfold Migrator.populateAfterCheck.
  apply writes_only_bind.
  { apply writes_only_modify. intros st. constructor. }
  intros _. apply writes_only_bind.
  { apply getPackageJsonUpdatesFromMigrationConfig_writes. }
  intros [updates order]. destruct updates as [|u updates].
  - apply writes_only_ret.
  - destruct (existsb _ _).
    + apply writes_only_ret.
    + apply writes_only_bind.
      * apply writes_only_mapM. intros x. apply Hrec.
      * intros results. apply writes_only_ret.
Qed.

Lemma populateAfterFetch_writes recurse targetPackage target migrationConfig :
  (forall name update, writes_only (recurse name update)) ->
  writes_only (populateAfterFetch recurse targetPackage target migrationConfig).
Proof.
  intros Hrec st a st'. unfold Migrator.populateAfterFetch.
  assert (Hcont :
    populateAfterCheck recurse targetPackage target migrationConfig
      (Migrator.setCollectedVersion targetPackage (mc_version migrationConfig) st)
    = Ok (a, st') -> planner_run st st').
  { intros H. eapply rt_trans.
    - apply rt_step. apply write_collectedVersion.
    - eapply populateAfterCheck_writes; eauto. }
  destruct (Obj.get targetPackage (collectedVersions st)) as [[|c v]|]; auto.
  destruct (Semver.gte _ _) as [[|]|]; auto; try discriminate.
  intros [= _ <-]. apply rt_refl.
Qed.

Lemma populateBody_writes recurse targetPackage target :
  (forall name update, writes_only (recurse name update)) ->
  writes_only (populateBody recurse targetPackage target).
Proof.
  intros Hrec st a st'. unfold Migrator.populateBody.
  destruct (negb (JS.truthy (getPkgVersion st targetPackage))).
  - intros [= _ <-]. apply rt_step. constructor.
  - destruct (Migrator.fetchOrExplain _ _ _) as [config| |]; simpl;
      try discriminate.
    apply populateAfterFetch_writes. exact Hrec.
Qed.

Lemma populate_writes fuel targetPackage target :
  writes_only
    (populatePackageJsonUpdatesAndGetPackagesToCheck fuel targetPackage target).
Proof.
  revert targetPackage target.
  induction fuel as [|fuel IH]; intros targetPackage target; simpl.
  - intros st a st'. discriminate.
  - apply populateBody_writes. exact IH.
Qed.

(** The executable planner only performs planner writes; with
    [packageUpdates_monotone], its plan only grows. *)
Lemma buildPackageJsonUpdates_writes fuel targetPackage target :
  writes_only (buildPackageJsonUpdates fuel targetPackage target).
Proof.
  revert targetPackage target.
  induction fuel as [|fuel IH]; intros targetPackage target; simpl.
  - intros st a st'. discriminate.
  - apply writes_only_bind; [apply (populate_writes (S fuel))|].
    intros packagesToCheck. apply writes_only_bind; [|intros; apply writes_only_ret].
    apply writes_only_mapM. intros packageToCheck.
    apply writes_only_bind.
    { apply (writes_only_read
               (fun st => Migrator.admitUpdates satisfies cleanSemver confirm
                            getInstalledPackageVersion interactive st
                            (Migrator.ptc_updates packageToCheck) Obj.empty)). }
    intros filteredUpdates.
    apply writes_only_bind; [|intros; apply writes_only_ret].
    apply writes_only_mapM. intros e. apply IH.
Qed.

End PlannerProperties.

(** ** Single calls of the planner *)

Section PopulateClaims.

Variable packageJson : PackageJson.
Variable getInstalledPackageVersion :
  string -> option (Obj.t string) -> option string.
Variable fetch : string -> string -> Result ResolvedMigrationConfiguration.
Variable to : Obj.t string.
Variable interactive : bool.

Local Abbreviation getPkgVersion :=
  (Migrator.getPkgVersion getInstalledPackageVersion).
Local Abbreviation populateAfterCheck :=
  (Migrator.populateAfterCheck packageJson getInstalledPackageVersion interactive).
Local Abbreviation populatePackageJsonUpdatesAndGetPackagesToCheck :=
  (Migrator.populatePackageJsonUpdatesAndGetPackagesToCheck
     packageJson getInstalledPackageVersion fetch to interactive).

(** C10.  For a package that is not installed and has a [--to] override,
    the call hands [addPackageUpdate] the caller's [target.version] (not
    the override) and returns the empty list, whatever [fetch] would
    answer; [collectedVersions] is left alone. *)
Theorem populate_not_installed_ignores_to
    (fuel : nat) (targetPackage : string) (target : PackageUpdate)
    (st : State) (override : string) :
  getPkgVersion st targetPackage = None ->
  Obj.get targetPackage to = Some override ->
  let recorded :=
    planEntry (pu_version target) (orFalse (pu_addToPackageJson target)) in
  let st' := Migrator.addPackageUpdate targetPackage recorded st in
  populatePackageJsonUpdatesAndGetPackagesToCheck (S fuel) targetPackage target st
  = Ok ([], st')
  /\ collectedVersions st' = collectedVersions st
  /\ (Obj.get targetPackage (packageUpdates st) = None ->
      Obj.get targetPackage (packageUpdates st') = Some recorded)
  /\ (forall existing,
         Obj.get targetPackage (packageUpdates st) = Some existing ->
         Obj.get targetPackage (packageUpdates st')
         = Some (if Migrator.gt (pu_version target) (pu_version existing)
                 then recorded else existing)).
Proof.
  intros Hnot Hto recorded st'. subst st'. repeat split.
  - simpl. unfold Migrator.populateBody. rewrite Hnot. reflexivity.
  - unfold Migrator.addPackageUpdate.
    destruct (Obj.get targetPackage (packageUpdates st)) as [e|]; [|reflexivity].
    destruct (Migrator.gt _ _); reflexivity.
  - intros Hnone. unfold Migrator.addPackageUpdate. rewrite Hnone. simpl.
    apply get_set_same.
  - intros existing Hex. unfold Migrator.addPackageUpdate. rewrite Hex.
    change (pu_version recorded) with (pu_version target).
    destruct (Migrator.gt (pu_version target) (pu_version existing)); simpl.
    + apply get_set_same.
    + exact Hex.
Qed.


End PopulateClaims.

(** ** Phase 2 *)

Lemma mapR_in {A B} (f : A -> Result B) (l : list A) (rs : list B) :
  mapR f l = Ok rs ->
  forall r, In r rs -> exists x, In x l /\ f x = Ok r.
Proof.
  revert rs. induction l as [|x xs IH]; simpl; intros rs.
  - intros [= <-] r [].
  - destruct (f x) as [y| |] eqn:Ex; simpl; try discriminate.
    destruct (mapR f xs) as [ys| |]; simpl; try discriminate.
    intros [= <-] r [<- | Hin].
    + exists x. auto.
    + destruct (IH ys eq_refl r Hin) as (x' & Hx' & Hf). eauto.
Qed.

Lemma filterR_in {A} (p : A -> Result bool) (l ys : list A) :
  filterR p l = Ok ys ->
  forall y, In y ys -> In y l /\ p y = Ok true.
Proof.
  revert ys. induction l as [|x xs IH]; simpl; intros ys.
  - intros [= <-] y [].
  - destruct (p x) as [b| |] eqn:Ex; simpl; try discriminate.
    destruct (filterR p xs) as [zs| |]; simpl; try discriminate.
    intros [= <-] y Hin.
    destruct b.
    + destruct Hin as [<- | Hin]; auto.
      destruct (IH zs eq_refl y Hin); auto.
    + destruct (IH zs eq_refl y Hin); auto.
Qed.

Section GateClaims.

Variable satisfies : string -> string -> bool.
Variable cleanSemver : string -> option string.
Variable getInstalledPackageVersion :
  string -> option (Obj.t string) -> option string.

Local Abbreviation getPkgVersion :=
  (Migrator.getPkgVersion getInstalledPackageVersion).
Local Abbreviation areRequirementsMet :=
  (Migrator.areRequirementsMet satisfies cleanSemver getInstalledPackageVersion).
Local Abbreviation wasMigrationSkipped :=
  (Migrator.wasMigrationSkipped satisfies getInstalledPackageVersion).
Local Abbreviation areMigrationRequirementsMet :=
  (Migrator.areMigrationRequirementsMet satisfies cleanSemver
     getInstalledPackageVersion).

Lemma requirementMet_iff (st : State) (pkgName versionRange : string) :
  Migrator.requirementMet satisfies cleanSemver getInstalledPackageVersion
    st None (pkgName, versionRange) = true
  <-> (exists v,
          getPkgVersion st pkgName = Some v
          /\ v <> "" /\ satisfies v versionRange = true)
      \/ (exists planned,
             Obj.get pkgName (packageUpdates st) = Some planned
             /\ pu_version planned <> ""
             /\ satisfies (pu_version planned) versionRange = true).
Proof.
  unfold Migrator.requirementMet.
  rewrite orb_false_r, orb_true_iff.
  match goal with
  | |- (?a \/ ?b) <-> (?c \/ ?d) =>
      enough ((a <-> c) /\ (b <-> d)) by tauto; split
  end.
  - destruct (getPkgVersion st pkgName) as [[|c v]|]; split;
      try discriminate.
    + intros (v & [= <-] & Hne & _). congruence.
    + intros H. exists (String c v). repeat split; auto. discriminate.
    + intros (v' & [= <-] & _ & H). exact H.
    + intros (v & H & _). discriminate.
  - destruct (Obj.get pkgName (packageUpdates st)) as [[[|c v] i a d]|]; split;
      try discriminate.
    + intros (planned & [= <-] & Hne & _). simpl in Hne. congruence.
    + intros H. eexists. repeat split; eauto. discriminate.
    + intros (planned & [= <-] & _ & H). exact H.
    + intros (planned & H & _). discriminate.
Qed.

(** [areRequirementsMet(requires)] decides [requiresSatisfied]. *)
Lemma areRequirementsMet_iff (st : State) (requirements : option (Obj.t string)) :
  areRequirementsMet st requirements None = true
  <-> requiresSatisfied satisfies getInstalledPackageVersion st requirements.
Proof.
  unfold Migrator.areRequirementsMet, requiresSatisfied.
  destruct requirements as [[|r reqs]|].
  - split; auto. intros _ reqs p range [= <-] [].
  - unfold Obj.entries. rewrite forallb_forall. split.
    + intros H reqs' p range [= <-] Hin.
      apply requirementMet_iff. apply H. exact Hin.
    + intros H [p range] Hin. apply requirementMet_iff.
      eapply H; eauto.
  - split; auto. intros _ reqs p range [=].
Qed.

Lemma wasMigrationSkipped_iff (requirements : option (Obj.t string)) :
  wasMigrationSkipped requirements = true
  <-> skippedBefore satisfies getInstalledPackageVersion requirements.
Proof.
  unfold Migrator.wasMigrationSkipped, skippedBefore.
  destruct requirements as [[|r reqs]|].
  - split; [discriminate|]. intros (reqs & p & range & [= <-] & [] & _).
  - unfold Obj.entries. rewrite existsb_exists. split.
    + intros ([p range] & Hin & H). exists (r :: reqs), p, range.
      repeat split; auto. unfold Migrator.requirementUnmetWhenInstalled in H.
      destruct (getInstalledPackageVersion p None) as [[|c v]|]; auto.
      right. exists (String c v). split; auto.
      now apply negb_true_iff in H.
    + intros (reqs' & p & range & [= <-] & Hin & H).
      exists (p, range). split; auto.
      unfold Migrator.requirementUnmetWhenInstalled.
      destruct (getInstalledPackageVersion p None) as [[|c v]|]; auto.
      destruct H as [H | (v' & [= <-] & H)]; [discriminate|].
      now apply negb_true_iff.
  - split; [discriminate|]. intros (reqs & p & range & [=] & _).
Qed.

Lemma areMigrationRequirementsMet_requires (flag : bool) (st : State)
    (packageName : string) (migration : MigrationsJsonEntry) :
  areMigrationRequirementsMet flag st packageName migration = Ok true ->
  areRequirementsMet st (mig_requires migration) None = true.
Proof.
  unfold Migrator.areMigrationRequirementsMet.
  destruct (negb flag).
  - now intros [= ->].
  - destruct (wasMigrationSkipped (mig_requires migration)); simpl.
    + now intros [= ->].
    + destruct (Migrator.isMigrationForHigherVersionThanWhatIsInstalled _ _ _ _)
        as [b| |]; simpl; try discriminate.
      intros [= H]. apply andb_true_iff in H. tauto.
Qed.

Lemma isMigrationForHigherVersion_iff (st : State) (packageName : string)
    (migration : MigrationsJsonEntry) (planned : PackageUpdate) :
  Obj.get packageName (packageUpdates st) = Some planned ->
  exists higher,
    Migrator.isMigrationForHigherVersionThanWhatIsInstalled
      getInstalledPackageVersion st packageName migration = Ok higher
    /\ (higher = true
        <-> forHigherVersionThanInstalled getInstalledPackageVersion
              packageName migration planned).
Proof.
  intros Hplan.
  unfold Migrator.isMigrationForHigherVersionThanWhatIsInstalled,
    forHigherVersionThanInstalled.
  destruct (mig_version migration) as [[|c v]|].
  - exists false. split; auto. split; [discriminate|].
    intros (v & [= <-] & Hne & _). congruence.
  - rewrite Hplan.
    assert (Hlte : forall b,
      Migrator.lte (String c v) (pu_version planned) = b ->
      (b = true <->
       Semver.lte (normalizeVersion (String c v))
                  (normalizeVersion (pu_version planned)) = Some true)).
    { intros b <-. rewrite lte_total. split; congruence. }
    destruct (getInstalledPackageVersion packageName None) as [[|c' i]|].
    + eexists. split; [reflexivity|]. rewrite (Hlte _ eq_refl). split.
      * intros H. exists (String c v). repeat split; auto. discriminate.
      * intros (v' & [= <-] & _ & _ & H). exact H.
    + destruct (Migrator.gt (String c v) (String c' i)) eqn:Egt.
      * eexists. split; [reflexivity|]. rewrite (Hlte _ eq_refl). split.
        -- intros H. exists (String c v). repeat split; auto; [discriminate|].
           right. eexists. split; [reflexivity|].
           rewrite gt_total, Egt. reflexivity.
        -- intros (v' & [= <-] & _ & _ & H). exact H.
      * exists false. split; auto. split; [discriminate|].
        intros (v' & [= <-] & _ & [H | (i' & [= <-] & H)] & _);
          [discriminate|].
        rewrite gt_total, Egt in H. discriminate.
    + eexists. split; [reflexivity|]. rewrite (Hlte _ eq_refl). split.
      * intros H. exists (String c v). repeat split; auto. discriminate.
      * intros (v' & [= <-] & _ & _ & H). exact H.
  - exists false. split; auto. split; [discriminate|].
    intros (v & [=] & _).
Qed.

(** The gate on any migration of a package of the plan: it never throws;
    with the flag set, [isMigrationForHigherVersionThanWhatIsInstalled]
    also asks for a version that is at most the planned one. *)
Lemma areMigrationRequirementsMet_decides (excludeAppliedMigrations : bool)
    (st : State) (packageName : string) (migration : MigrationsJsonEntry)
    (planned : PackageUpdate) :
  Obj.get packageName (packageUpdates st) = Some planned ->
  exists passes,
    areMigrationRequirementsMet excludeAppliedMigrations st packageName migration
    = Ok passes
    /\ (passes = true
        <-> (excludeAppliedMigrations = true ->
             skippedBefore satisfies getInstalledPackageVersion
               (mig_requires migration)
             \/ forHigherVersionThanInstalled getInstalledPackageVersion
                  packageName migration planned)
            /\ requiresSatisfied satisfies getInstalledPackageVersion st
                 (mig_requires migration)).
Proof.
  intros Hplan. unfold Migrator.areMigrationRequirementsMet.
  pose proof (areRequirementsMet_iff st (mig_requires migration)) as Hreq.
  pose proof (wasMigrationSkipped_iff (mig_requires migration)) as Hskip.
  destruct (areRequirementsMet st (mig_requires migration) None).
  - assert (Hsat : requiresSatisfied satisfies getInstalledPackageVersion st
                     (mig_requires migration)) by now apply Hreq.
    destruct excludeAppliedMigrations; simpl negb; cbv iota.
    + destruct (wasMigrationSkipped (mig_requires migration)); simpl.
      * eexists. split; [reflexivity|]. intuition.
      * destruct (isMigrationForHigherVersion_iff st packageName migration
                    planned Hplan) as (higher & -> & Hhigher).
        simpl. eexists. split; [reflexivity|]. rewrite andb_true_r.
        intuition discriminate.
    + eexists. split; [reflexivity|]. intuition discriminate.
  - assert (Hsat : ~ requiresSatisfied satisfies getInstalledPackageVersion st
                     (mig_requires migration))
      by (intros H; apply Hreq in H; discriminate).
    destruct excludeAppliedMigrations; simpl negb; cbv iota.
    + destruct (wasMigrationSkipped (mig_requires migration)); simpl.
      * eexists. split; [reflexivity|]. intuition discriminate.
      * destruct (isMigrationForHigherVersion_iff st packageName migration
                    planned Hplan) as (higher & -> & Hhigher).
        simpl. eexists. split; [reflexivity|]. rewrite andb_false_r.
        intuition discriminate.
    + eexists. split; [reflexivity|]. intuition discriminate.
Qed.

(** The tests that [createMigrateJson] makes before it calls the gate:
    the gate is only asked about a migration that has a version, above
    the installed version of its package (under the [--from] overrides)
    and at most the planned one. *)
Lemma window_before_gate (excludeAppliedMigrations : bool) (st : State)
    (packageName currentVersion version name : string)
    (migration : MigrationsJsonEntry) :
  (exists v,
      mig_version migration = Some v /\ v <> ""
      /\ Semver.gt (normalizeVersion v) (normalizeVersion currentVersion)
         = Some true
      /\ Semver.lte (normalizeVersion v) (normalizeVersion version) = Some true
      /\ Migrator.migrationApplies satisfies cleanSemver
           getInstalledPackageVersion excludeAppliedMigrations st packageName
           currentVersion version (name, migration)
         = areMigrationRequirementsMet excludeAppliedMigrations st packageName
             migration)
  \/ Migrator.migrationApplies satisfies cleanSemver getInstalledPackageVersion
       excludeAppliedMigrations st packageName currentVersion version
       (name, migration)
     = Ok false.
Proof.
  unfold Migrator.migrationApplies. simpl snd.
  destruct (mig_version migration) as [[|c v]|]; auto.
  destruct (Migrator.gt (String c v) currentVersion) eqn:Egt; auto.
  destruct (Migrator.lte (String c v) version) eqn:Elte; auto.
  left. exists (String c v). repeat split.
  - discriminate.
  - rewrite gt_total, Egt. reflexivity.
  - rewrite lte_total, Elte. reflexivity.
Qed.

(** C6, as the code has it.  [createMigrateJson] asks the gate about a
    migration of a package of the plan that has a version, at most the
    planned one.  On such a migration the gate never throws.  With
    [excludeAppliedMigrations] unset it passes exactly when the
    [requires] predicate is satisfied.  With the flag set it passes
    exactly when, in addition, the migration was skipped before, or its
    package is not installed, or its version is strictly greater than the
    installed version of its package; these three read what is on disk,
    without the [--from] overrides, while the [requires] predicate reads
    the installed versions under the overrides. *)
Theorem areMigrationRequirementsMet_gate (excludeAppliedMigrations : bool)
    (st : State) (packageName : string) (migration : MigrationsJsonEntry)
    (planned : PackageUpdate) (version : string) :
  Obj.get packageName (packageUpdates st) = Some planned ->
  mig_version migration = Some version ->
  version <> "" ->
  Semver.lte (normalizeVersion version) (normalizeVersion (pu_version planned))
  = Some true ->
  exists passes,
    areMigrationRequirementsMet excludeAppliedMigrations st packageName migration
    = Ok passes
    /\ (passes = true
        <-> (excludeAppliedMigrations = true ->
             skippedBefore satisfies getInstalledPackageVersion
               (mig_requires migration)
             \/ aboveWhatIsOnDisk getInstalledPackageVersion
                  packageName version)
            /\ requiresSatisfied satisfies getInstalledPackageVersion st
                 (mig_requires migration)).
Proof.
  intros Hplan Hversion Hne Hlte.
  destruct (areMigrationRequirementsMet_decides excludeAppliedMigrations st
              packageName migration planned Hplan)
    as (passes & Hrun & Hiff).
  exists passes. split; [exact Hrun|]. rewrite Hiff.
  assert (Hsame : forHigherVersionThanInstalled getInstalledPackageVersion
                    packageName migration planned
                  <-> aboveWhatIsOnDisk getInstalledPackageVersion
                        packageName version).
  { unfold forHigherVersionThanInstalled, aboveWhatIsOnDisk. split.
    - intros (v & Hv & _ & Hdisk & _). rewrite Hversion in Hv.
      injection Hv as <-. exact Hdisk.
    - intros Hdisk. exists version. auto. }
  rewrite Hsame. reflexivity.
Qed.

End GateClaims.

Section Phase2Claims.

Variable satisfies : string -> string -> bool.
Variable cleanSemver : string -> option string.
Variable getInstalledPackageVersion :
  string -> option (Obj.t string) -> option string.
Variable fetch : string -> string -> Result ResolvedMigrationConfiguration.

Local Abbreviation getPkgVersion :=
  (Migrator.getPkgVersion getInstalledPackageVersion).
Local Abbreviation createMigrateJson :=
  (Migrator.createMigrateJson satisfies cleanSemver getInstalledPackageVersion
     fetch).

(** C1.  Every migration emitted by Phase 2 belongs to a package of the
    plan whose installed version (under the [--from] overrides) is not
    null, and its version [v] satisfies
    [installed(p) < v <= packageUpdates[p].version], both compared after
    [normalizeVersion]; its [requires] predicate holds against the
    installed and planned versions of the final state.  In particular no
    migration is emitted for a package whose installed version is null. *)
Theorem createMigrateJson_window (excludeAppliedMigrations : bool)
    (st : State) (migrations : list Migration) :
  createMigrateJson excludeAppliedMigrations st = Ok migrations ->
  (forall m, In m migrations ->
     exists currentVersion planned v,
       getPkgVersion st (m_package m) = Some currentVersion
       /\ Obj.get (m_package m) (packageUpdates st) = Some planned
       /\ mig_version (m_entry m) = Some v /\ v <> ""
       /\ Semver.gt (normalizeVersion v) (normalizeVersion currentVersion)
          = Some true
       /\ Semver.lte (normalizeVersion v) (normalizeVersion (pu_version planned))
          = Some true
       /\ requiresSatisfied satisfies getInstalledPackageVersion st
            (mig_requires (m_entry m)))
  /\ (forall p, getPkgVersion st p = None ->
        forall m, In m migrations -> m_package m <> p).
Proof.
  intros Hrun.
  assert (Hmain : forall m, In m migrations ->
     exists currentVersion planned v,
       getPkgVersion st (m_package m) = Some currentVersion
       /\ Obj.get (m_package m) (packageUpdates st) = Some planned
       /\ mig_version (m_entry m) = Some v /\ v <> ""
       /\ Semver.gt (normalizeVersion v) (normalizeVersion currentVersion)
          = Some true
       /\ Semver.lte (normalizeVersion v) (normalizeVersion (pu_version planned))
          = Some true
       /\ requiresSatisfied satisfies getInstalledPackageVersion st
            (mig_requires (m_entry m))).
  { intros m Hm. unfold Migrator.createMigrateJson in Hrun.
    destruct (mapR _ _) as [perPackage| |] eqn:Emap; simpl in Hrun;
      try discriminate.
    injection Hrun as <-.
    apply in_concat in Hm. destruct Hm as (ms & Hms & Hm).
    destruct (mapR_in _ _ _ Emap ms Hms) as (packageName & _ & Hpkg).
    unfold Migrator.migrationsOfPackage in Hpkg.
    destruct (getPkgVersion st packageName) as [currentVersion|] eqn:Ecur;
      [|injection Hpkg as <-; destruct Hm].
    destruct (Obj.get packageName (packageUpdates st)) as [planned|] eqn:Eplan;
      [|discriminate].
    destruct (fetch packageName (pu_version planned)) as [config| |];
      simpl in Hpkg; try discriminate.
    destruct (mc_generators config) as [generators|];
      [|injection Hpkg as <-; destruct Hm].
    destruct (filterR _ _) as [kept| |] eqn:Efilter; simpl in Hpkg;
      try discriminate.
    injection Hpkg as <-.
    apply in_map_iff in Hm. destruct Hm as ([name migration] & <- & Hkept).
    destruct (filterR_in _ _ _ Efilter _ Hkept) as [_ Happ].
    unfold Migrator.migrationApplies in Happ. simpl in Happ |- *.
    destruct (mig_version migration) as [[|c v]|] eqn:Ever; try discriminate.
    destruct (Migrator.gt (String c v) currentVersion) eqn:Egt;
      [|discriminate].
    destruct (Migrator.lte (String c v) (pu_version planned)) eqn:Elte;
      [|discriminate].
    simpl in Happ.
    apply (areMigrationRequirementsMet_requires satisfies cleanSemver) in Happ.
    exists currentVersion, planned, (String c v).
    repeat split; auto.
    - discriminate.
    - rewrite gt_total, Egt. reflexivity.
    - rewrite lte_total, Elte. reflexivity.
    - now apply (areRequirementsMet_iff satisfies cleanSemver). }
  split; [exact Hmain|].
  intros p Hnull m Hm Heq.
  destruct (Hmain m Hm) as (cur & _ & _ & Hcur & _).
  rewrite Heq in Hcur. congruence.
Qed.

End Phase2Claims.

(** ** Package-group expansion *)

Lemma find_app_last {A} (f : A -> bool) (l : list A) (x : A) :
  find f (l ++ [x])%list
  = match find f l with
    | Some y => Some y
    | None => if f x then Some x else None
    end.
Proof.
  induction l as [|y l IH]; simpl.
  - reflexivity.
  - destruct (f y); auto.
Qed.

Lemma expandGroup_packages (packageName targetVersion : string)
    (packageGroup : ArrayPackageGroup) (packages : Obj.t PackageUpdate)
    (st : State) (child : string) :
  Obj.get child
    (fst (Migrator.expandGroup packageName targetVersion packageGroup packages st))
  = match lastGroupEntry child packageGroup with
    | Some e =>
        Some (mkPackageUpdate (Migrator.groupVersion targetVersion e)
                              None (Some false) None)
    | None => Obj.get child packages
    end.
Proof.
  revert packages st.
  induction packageGroup as [|e rest IH]; intros packages st.
  - reflexivity.
  - simpl Migrator.expandGroup. rewrite IH.
    unfold lastGroupEntry. simpl rev. rewrite find_app_last.
    destruct (find _ (rev rest)); [reflexivity|].
    rewrite get_set. destruct (String.eqb (pg_package e) child); reflexivity.
Qed.

(** C5.  For [@nrwl/workspace] below [14.0.0-beta.0] the group that is
    expanded is the built-in legacy group: [@nrwl/workspace] and its
    twenty siblings, all versioned ["*"] except [@nrwl/nx-cloud], which is
    ["latest"]; otherwise it is the document's own group.  A non-empty
    group yields the synthetic update [targetVersion--PackageGroup] of
    version [targetVersion], in which every child of the group has the
    version of its (last) group entry, ["*"] standing for
    [targetVersion], and [alwaysAddToPackageJson: false]; the returned
    order is the declared order of the children.  So the legacy group
    plans [@nrwl/nx-cloud] at ["latest"] and every other member at
    [targetVersion]. *)
Theorem packageGroup_expansion (packageName targetVersion : string)
    (migrationConfig : ResolvedMigrationConfiguration) (st : State) :
  (packageName = "@nrwl/workspace" ->
   Semver.lt targetVersion "14.0.0-beta.0" = Some true ->
   Migrator.selectPackageGroup packageName targetVersion migrationConfig
   = Ok Migrator.LEGACY_NRWL_PACKAGE_GROUP)
  /\ (packageName <> "@nrwl/workspace"
      \/ Semver.lt targetVersion "14.0.0-beta.0" = Some false ->
      Migrator.selectPackageGroup packageName targetVersion migrationConfig
      = Ok match mc_packageGroup migrationConfig with
           | Some g => g
           | None => []
           end)
  /\ map pg_package Migrator.LEGACY_NRWL_PACKAGE_GROUP
     = ["@nrwl/workspace"; "@nrwl/angular"; "@nrwl/cypress"; "@nrwl/devkit";
        "@nrwl/eslint-plugin-nx"; "@nrwl/express"; "@nrwl/jest";
        "@nrwl/linter"; "@nrwl/nest"; "@nrwl/next"; "@nrwl/node";
        "@nrwl/nx-plugin"; "@nrwl/react"; "@nrwl/storybook"; "@nrwl/web";
        "@nrwl/js"; "@nrwl/cli"; "@nrwl/nx-cloud"; "@nrwl/react-native";
        "@nrwl/detox"; "@nrwl/expo"]
  /\ (forall e, In e Migrator.LEGACY_NRWL_PACKAGE_GROUP ->
        pg_version e
        = if String.eqb (pg_package e) "@nrwl/nx-cloud" then "latest" else "*")
  /\ (forall packageGroup,
        Migrator.selectPackageGroup packageName targetVersion migrationConfig
        = Ok packageGroup ->
        packageGroup <> [] ->
        exists packages updates st',
          Migrator.getPackageJsonUpdatesFromPackageGroup
            packageName targetVersion migrationConfig st
          = Ok ((map pg_package packageGroup,
                 mkConfig (mc_version migrationConfig)
                          (mc_packageGroup migrationConfig)
                          (Some updates)
                          (mc_generators migrationConfig)),
                st')
          /\ Obj.get (targetVersion ++ "--PackageGroup") updates
             = Some (mkPackageJsonUpdate targetVersion (Some packages) None None)
          /\ forall child,
               Obj.get child packages
               = option_map
                   (fun e =>
                      mkPackageUpdate
                        (if String.eqb (pg_version e) "*"
                         then targetVersion else pg_version e)
                        None (Some false) None)
                   (lastGroupEntry child packageGroup))
  /\ (packageName = "@nrwl/workspace" ->
      Semver.lt targetVersion "14.0.0-beta.0" = Some true ->
      exists packages updates st',
        Migrator.getPackageJsonUpdatesFromPackageGroup
          packageName targetVersion migrationConfig st
        = Ok ((map pg_package Migrator.LEGACY_NRWL_PACKAGE_GROUP,
               mkConfig (mc_version migrationConfig)
                        (mc_packageGroup migrationConfig)
                        (Some updates)
                        (mc_generators migrationConfig)),
              st')
        /\ Obj.get (targetVersion ++ "--PackageGroup") updates
           = Some (mkPackageJsonUpdate targetVersion (Some packages) None None)
        /\ Obj.get "@nrwl/nx-cloud" packages
           = Some (mkPackageUpdate "latest" None (Some false) None)
        /\ forall child,
             In child (map pg_package Migrator.LEGACY_NRWL_PACKAGE_GROUP) ->
             child <> "@nrwl/nx-cloud" ->
             Obj.get child packages
             = Some (mkPackageUpdate targetVersion None (Some false) None)).
Proof.
  assert (Hlegacy : packageName = "@nrwl/workspace" ->
                    Semver.lt targetVersion "14.0.0-beta.0" = Some true ->
                    Migrator.selectPackageGroup packageName targetVersion
                      migrationConfig
                    = Ok Migrator.LEGACY_NRWL_PACKAGE_GROUP).
  { intros -> Hlt. unfold Migrator.selectPackageGroup. simpl String.eqb.
    rewrite Hlt. reflexivity. }
  assert (Hexpand : forall packageGroup,
        Migrator.selectPackageGroup packageName targetVersion migrationConfig
        = Ok packageGroup ->
        packageGroup <> [] ->
        exists packages updates st',
          Migrator.getPackageJsonUpdatesFromPackageGroup
            packageName targetVersion migrationConfig st
          = Ok ((map pg_package packageGroup,
                 mkConfig (mc_version migrationConfig)
                          (mc_packageGroup migrationConfig)
                          (Some updates)
                          (mc_generators migrationConfig)),
                st')
          /\ Obj.get (targetVersion ++ "--PackageGroup") updates
             = Some (mkPackageJsonUpdate targetVersion (Some packages) None None)
          /\ forall child,
               Obj.get child packages
               = option_map
                   (fun e =>
                      mkPackageUpdate
                        (if String.eqb (pg_version e) "*"
                         then targetVersion else pg_version e)
                        None (Some false) None)
                   (lastGroupEntry child packageGroup)).
  { intros packageGroup Hsel Hne.
    unfold Migrator.getPackageJsonUpdatesFromPackageGroup. rewrite Hsel. simpl.
    destruct packageGroup as [|e rest]; [congruence|].
    pose proof (expandGroup_packages packageName targetVersion (e :: rest)
                  Obj.empty st) as Hpk.
    destruct (Migrator.expandGroup packageName targetVersion (e :: rest)
                Obj.empty st) as [packages st1].
    exists packages. eexists. exists st1.
    split; [reflexivity|]. split; [apply get_set_same|].
    intros child. simpl in Hpk. rewrite Hpk.
    destruct (lastGroupEntry child (e :: rest)); reflexivity. }
  split; [exact Hlegacy|]. split; [|split; [|split; [|split]]].
  - intros H. unfold Migrator.selectPackageGroup.
    destruct (String.eqb packageName "@nrwl/workspace") eqn:E; [|reflexivity].
    apply String.eqb_eq in E.
    destruct H as [H | H]; [contradiction|]. rewrite H. reflexivity.
  - reflexivity.
  - intros e H. simpl in H.
    repeat (destruct H as [<- | H]; [reflexivity|]). contradiction.
  - exact Hexpand.
  - intros Hname Hlt.
    destruct (Hexpand Migrator.LEGACY_NRWL_PACKAGE_GROUP (Hlegacy Hname Hlt))
      as (packages & updates & st' & Hrun & Hentry & Hchildren);
      [discriminate|].
    exists packages, updates, st'.
    split; [exact Hrun|]. split; [exact Hentry|]. split.
    + rewrite Hchildren. reflexivity.
    + intros child Hin Hcloud. rewrite Hchildren.
      simpl in Hin.
      repeat (destruct Hin as [<- | Hin];
              [first [reflexivity | congruence]|]).
      contradiction.
Qed.

(** ** Filtering of [packageJsonUpdates] *)

Section FilterClaims.

Variable packageJson : PackageJson.
Variable getInstalledPackageVersion :
  string -> option (Obj.t string) -> option string.

Local Abbreviation getPkgVersion :=
  (Migrator.getPkgVersion getInstalledPackageVersion).
Local Abbreviation filterPackages :=
  (Migrator.filterPackages packageJson getInstalledPackageVersion).
Local Abbreviation filterLoop :=
  (Migrator.filterLoop packageJson getInstalledPackageVersion).
Local Abbreviation filterPackageJsonUpdates :=
  (Migrator.filterPackageJsonUpdates packageJson getInstalledPackageVersion).

Local Abbreviation admitted :=
  (admittedUpdate packageJson getInstalledPackageVersion).

Lemma filterLoop_flat_map (st : State) (packageName targetVersion installed : string)
    (updates filtered : list PackageJsonUpdate) :
  getPkgVersion st packageName = Some installed ->
  filterLoop st packageName targetVersion updates filtered
  = Ok (filtered ++ flat_map (admitted st installed targetVersion) updates)%list.
Proof.
  intros Hinst. revert filtered.
  induction updates as [|u rest IH]; intros filtered; simpl.
  - rewrite app_nil_r. reflexivity.
  - unfold admittedUpdate at 1.
    destruct (pju_packages u) as [packages|]; [|apply IH].
    rewrite Hinst.
    destruct (Migrator.lte (pju_version u) installed
              || Migrator.gt (pju_version u) targetVersion); [apply IH|].
    destruct (filterPackages st packages) as [|k kept]; [apply IH|].
    rewrite IH, <- app_assoc. reflexivity.
Qed.

(** C4.  For an installed package the filter never throws, and a
    candidate update contributes to the returned list exactly when its
    [packages] are present, its version is neither [<=] the installed
    version nor [>] [targetVersion] (so a version equal to
    [targetVersion] is admitted; comparisons after [normalizeVersion])
    and at least one of its children survives the per-child filter; it is
    then returned with the surviving children as its [packages]. *)
Theorem filterPackageJsonUpdates_admits (st : State)
    (packageJsonUpdates : Obj.t PackageJsonUpdate)
    (packageName targetVersion installed : string) :
  getPkgVersion st packageName = Some installed ->
  exists filtered,
    filterPackageJsonUpdates st packageJsonUpdates packageName targetVersion
    = Ok filtered
    /\ forall u',
         In u' filtered
         <-> exists u packages,
               In u (Obj.values packageJsonUpdates)
               /\ pju_packages u = Some packages
               /\ Semver.lte (normalizeVersion (pju_version u))
                             (normalizeVersion installed) = Some false
               /\ Semver.gt (normalizeVersion (pju_version u))
                            (normalizeVersion targetVersion) = Some false
               /\ filterPackages st packages <> []
               /\ u' = Migrator.withPackages u (filterPackages st packages).
Proof.
  intros Hinst. eexists. split.
  - unfold Migrator.filterPackageJsonUpdates.
    apply (filterLoop_flat_map st packageName targetVersion installed _ []).
    exact Hinst.
  - intros u'. simpl. rewrite in_flat_map. split.
    + intros (u & Hin & Hadm). unfold admittedUpdate in Hadm.
      destruct (pju_packages u) as [packages|] eqn:Epk; [|destruct Hadm].
      destruct (Migrator.lte (pju_version u) installed) eqn:Elte;
        [destruct Hadm|].
      destruct (Migrator.gt (pju_version u) targetVersion) eqn:Egt;
        [destruct Hadm|].
      simpl in Hadm.
      destruct (filterPackages st packages) as [|k kept] eqn:Ekept;
        [destruct Hadm|].
      destruct Hadm as [<- | []].
      exists u, packages. rewrite lte_total, gt_total, Elte, Egt, Ekept.
      repeat split; auto. discriminate.
    + intros (u & packages & Hin & Epk & Hlte & Hgt & Hkept & ->).
      exists u. split; [exact Hin|]. unfold admittedUpdate. rewrite Epk.
      rewrite lte_total in Hlte. rewrite gt_total in Hgt.
      injection Hlte as ->. injection Hgt as ->. simpl.
      destruct (filterPackages st packages) as [|k kept]; [congruence|].
      left. reflexivity.
Qed.

End FilterClaims.

(** ** The plan writer *)




(** ** The claims on the worked scenarios *)

(** Scenarios 1 and 2 of the specification. *)
Example scenario1 :
  Scenario.run1
  = Ok ([("pkg", planEntry "2.0.0" AddFalse)], Scenario.migrations1).
Proof. vm_compute. reflexivity. Qed.

Example scenario2 :
  Scenario.run2
  = Ok ([("root", planEntry "2.0.0" AddFalse);
         ("child", planEntry "2.0.0" AddFalse)], []).
Proof. vm_compute. reflexivity. Qed.

(** Phase 2 on scenario 1: the first emitted migration lies in the window
    of its package. *)
Lemma createMigrateJson_window_witness :
  exists currentVersion planned v,
    Migrator.getPkgVersion Scenario.installed1 Scenario.final1 "pkg"
    = Some currentVersion
    /\ Obj.get "pkg" (packageUpdates Scenario.final1) = Some planned
    /\ Some "1.5.0" = Some v /\ v <> ""
    /\ Semver.gt (normalizeVersion v) (normalizeVersion currentVersion)
       = Some true
    /\ Semver.lte (normalizeVersion v) (normalizeVersion (pu_version planned))
       = Some true
    /\ requiresSatisfied Scenario.satisfies Scenario.installed1 Scenario.final1
         None.
Proof.
  exact (proj1 (createMigrateJson_window
                  Scenario.satisfies Scenario.cleanSemver Scenario.installed1
                  Scenario.fetch1 false Scenario.final1 Scenario.migrations1
                  eq_refl)
               (mkMigration (Scenario.noMigration "1.5.0") "pkg" "m1")
               (or_introl eq_refl)).
Defined.

(** Phase 1 of scenario 2, started from a plan that already has [root]
    at [1.5.0], raises [root] and never lowers it. *)
Lemma packageUpdates_monotone_witness :
  exists new,
    Obj.get "root" (packageUpdates Scenario.grown) = Some new
    /\ (new = planEntry "1.5.0" AddFalse
        \/ Semver.gt (normalizeVersion (pu_version new))
                     (normalizeVersion "1.5.0") = Some true)
    /\ Semver.gte (normalizeVersion (pu_version new))
                  (normalizeVersion "1.5.0") = Some true.
Proof.
  apply (packageUpdates_monotone Scenario.seeded Scenario.grown).
  - apply (buildPackageJsonUpdates_writes
             Scenario.satisfies Scenario.cleanSemver Scenario.confirm
             Scenario.manifest2 Scenario.installed2 Scenario.fetch2 [] false
             5 "root" (planEntry "2.0.0" AddFalse) Scenario.seeded tt).
    vm_compute. reflexivity.
  - reflexivity.
Defined.


(** The update at exactly the target version is admitted. *)
Lemma filterPackageJsonUpdates_admits_witness :
  exists filtered,
    Migrator.filterPackageJsonUpdates Scenario.manifest3 Scenario.installed1
      Scenario.initial Scenario.updates3 "pkg" "2.0.0"
    = Ok filtered.
Proof.
  destruct (filterPackageJsonUpdates_admits
              Scenario.manifest3 Scenario.installed1 Scenario.initial
              Scenario.updates3 "pkg" "2.0.0" "1.0.0" eq_refl)
    as (filtered & Hrun & _).
  exists filtered. exact Hrun.
Defined.

Example filter_admits_equal_version :
  Migrator.filterPackageJsonUpdates Scenario.manifest3 Scenario.installed1
    Scenario.initial Scenario.updates3 "pkg" "2.0.0"
  = Ok [mkPackageJsonUpdate "2.0.0"
          (Some [("dep", planEntry "3.0.0" AddFalse)]) None None].
Proof. vm_compute. reflexivity. Qed.

(** The group of scenario 2: the wildcard child gets the target version. *)
Lemma packageGroup_expansion_witness :
  exists packages updates st',
    Migrator.getPackageJsonUpdatesFromPackageGroup "root" "2.0.0"
      (mkConfig "2.0.0" (Some [mkPackageGroupEntry "child" "*"]) None None)
      Scenario.initial
    = Ok ((["child"],
           mkConfig "2.0.0" (Some [mkPackageGroupEntry "child" "*"])
                    (Some updates) None),
          st')
    /\ Obj.get "2.0.0--PackageGroup" updates
       = Some (mkPackageJsonUpdate "2.0.0" (Some packages) None None)
    /\ forall child,
         Obj.get child packages
         = option_map
             (fun e =>
                mkPackageUpdate
                  (if String.eqb (pg_version e) "*" then "2.0.0" else pg_version e)
                  None (Some false) None)
             (lastGroupEntry child [mkPackageGroupEntry "child" "*"]).
Proof.
  apply (proj1 (proj2 (proj2 (proj2 (proj2 (packageGroup_expansion "root" "2.0.0"
           (mkConfig "2.0.0" (Some [mkPackageGroupEntry "child" "*"]) None None)
           Scenario.initial)))))
           [mkPackageGroupEntry "child" "*"]).
  - reflexivity.
  - discriminate.
Defined.

Example legacy_group_for_old_workspace :
  Migrator.selectPackageGroup "@nrwl/workspace" "13.10.0"
    (mkConfig "13.10.0" (Some [mkPackageGroupEntry "child" "*"]) None None)
  = Ok Migrator.LEGACY_NRWL_PACKAGE_GROUP.
Proof. reflexivity. Qed.

(** Scenario 4: the gate on a migration that was skipped before. *)
Lemma areMigrationRequirementsMet_gate_witness :
  exists passes,
    Migrator.areMigrationRequirementsMet Scenario.satisfies Scenario.cleanSemver
      Scenario.installed4 true Scenario.planned4 "pkg" Scenario.skipped4
    = Ok passes.
Proof.
  destruct (areMigrationRequirementsMet_gate
              Scenario.satisfies Scenario.cleanSemver Scenario.installed4 true
              Scenario.planned4 "pkg" Scenario.skipped4
              (planEntry "2.0.0" AddFalse) "1.5.0" eq_refl eq_refl)
    as (passes & Hrun & _).
  - discriminate.
  - vm_compute. reflexivity.
  - exists passes. exact Hrun.
Defined.

(** C6, as stated, fails, whichever way "installed" is read in it.
    - The installed version of the package read under the [--from]
      overrides: with [pkg@2.0.0] installed and [--from pkg@1.0.0], the
      migration [1.5.0] is above the installed version [1.0.0] and has no
      requirements, so the condition of the claim holds; yet the gate
      rejects it and nothing is emitted, because [2.0.0] is on disk.
    - Read on disk: with [pkg] not installed and [--from pkg@1.0.0],
      there is no installed version for [1.5.0] to be greater than and
      the migration has no requirements, so the condition of the claim
      fails; yet the gate passes and the migration is emitted.
    - Whether a migration was skipped before is read on disk as well:
      with [peer@2.0.0] installed and [--from peer@3.0.0] the requirement
      [peer >= 3.0.0] is met under the overrides, and [1.5.0] is not
      above the [pkg@2.0.0] on disk; yet the gate passes. *)
Lemma gate_reads_versions_on_disk :
  (Scenario.underFrom Scenario.diskPinned Scenario.statePinned "pkg"
   = Some "1.0.0"
   /\ Scenario.onDisk Scenario.diskPinned "pkg" = Some "2.0.0"
   /\ Scenario.wordedOn Scenario.diskPinned Scenario.statePinned
        (Scenario.onDisk Scenario.diskPinned)
        (Scenario.underFrom Scenario.diskPinned Scenario.statePinned)
        (Scenario.noMigration "1.5.0")
      = true
   /\ Scenario.wordedOn Scenario.diskPinned Scenario.statePinned
        (Scenario.underFrom Scenario.diskPinned Scenario.statePinned)
        (Scenario.underFrom Scenario.diskPinned Scenario.statePinned)
        (Scenario.noMigration "1.5.0")
      = true
   /\ Scenario.gateOn Scenario.diskPinned Scenario.statePinned
        (Scenario.noMigration "1.5.0")
      = Ok false
   /\ Scenario.migrateOn Scenario.diskPinned [("pkg", "1.0.0")]
        Scenario.fetchPinned true
      = Ok ([("pkg", planEntry "3.0.0" AddFalse)], [])
   /\ Scenario.migrateOn Scenario.diskPinned [("pkg", "1.0.0")]
        Scenario.fetchPinned false
      = Ok ([("pkg", planEntry "3.0.0" AddFalse)],
            [mkMigration (Scenario.noMigration "1.5.0") "pkg" "m"]))
  /\ (Scenario.onDisk Scenario.diskAbsent "pkg" = None
      /\ Scenario.wordedOn Scenario.diskAbsent Scenario.statePinned
           (Scenario.onDisk Scenario.diskAbsent)
           (Scenario.onDisk Scenario.diskAbsent)
           (Scenario.noMigration "1.5.0")
         = false
      /\ Scenario.wordedOn Scenario.diskAbsent Scenario.statePinned
           (Scenario.underFrom Scenario.diskAbsent Scenario.statePinned)
           (Scenario.onDisk Scenario.diskAbsent)
           (Scenario.noMigration "1.5.0")
         = false
      /\ Scenario.gateOn Scenario.diskAbsent Scenario.statePinned
           (Scenario.noMigration "1.5.0")
         = Ok true
      /\ Scenario.migrateOn Scenario.diskAbsent [("pkg", "1.0.0")]
           Scenario.fetchPinned true
         = Ok ([("pkg", planEntry "3.0.0" AddFalse)],
               [mkMigration (Scenario.noMigration "1.5.0") "pkg" "m"]))
  /\ (Scenario.underFrom Scenario.diskPeer Scenario.statePeer "peer"
      = Some "3.0.0"
      /\ Scenario.onDisk Scenario.diskPeer "peer" = Some "2.0.0"
      /\ Scenario.onDisk Scenario.diskPeer "pkg" = Some "2.0.0"
      /\ Scenario.wordedOn Scenario.diskPeer Scenario.statePeer
           (Scenario.underFrom Scenario.diskPeer Scenario.statePeer)
           (Scenario.onDisk Scenario.diskPeer)
           Scenario.skipped4
         = false
      /\ Scenario.gateOn Scenario.diskPeer Scenario.statePeer Scenario.skipped4
         = Ok true
      /\ Scenario.migrateOn Scenario.diskPeer
           [("pkg", "1.0.0"); ("peer", "3.0.0")] Scenario.fetchPeer true
         = Ok ([("pkg", planEntry "3.0.0" AddFalse)],
               [mkMigration Scenario.skipped4 "pkg" "m"])).
Proof. repeat split; vm_compute; reflexivity. Qed.

(** The states on which the gate is evaluated above are those that
    Phase 1 leaves in the three workspaces. *)
Example gate_states_reached :
  Scenario.phase1On Scenario.diskPinned [("pkg", "1.0.0")] Scenario.fetchPinned
  = Ok (tt, Scenario.statePinned)
  /\ Scenario.phase1On Scenario.diskAbsent [("pkg", "1.0.0")]
       Scenario.fetchPinned
     = Ok (tt, Scenario.statePinned)
  /\ Scenario.phase1On Scenario.diskPeer [("pkg", "1.0.0"); ("peer", "3.0.0")]
       Scenario.fetchPeer
     = Ok (tt, Scenario.statePeer).
Proof. repeat split; vm_compute; reflexivity. Qed.

(** A package that is not installed is planned at the requested version,
    not at its [--to] override. *)
Lemma populate_not_installed_ignores_to_witness :
  Migrator.populatePackageJsonUpdatesAndGetPackagesToCheck
    Scenario.manifest1 Scenario.installed1 Scenario.fetch1 Scenario.toGhost false
    1 "ghost" Scenario.ghostTarget Scenario.initial
  = Ok ([], mkState [] [("ghost", planEntry "3.0.0" AddDependencies)] []).
Proof.
  apply (proj1 (populate_not_installed_ignores_to
                  Scenario.manifest1 Scenario.installed1 Scenario.fetch1
                  Scenario.toGhost false 0 "ghost" Scenario.ghostTarget
                  Scenario.initial "9.9.9" eq_refl eq_refl)).
Defined.

(** The migration of scenario 4 ([requires] [peer >= 3.0.0], [peer]
    installed at [2.0.0]) was skipped before; the gate lets it through
    once the plan brings [peer] into the range, and not while the
    [requires] predicate fails. *)
Example scenario4_gate :
  let m := mkMigrationsJsonEntry (Some "1.5.0") None None None None
             (Some [("peer", ">=3.0.0")]) in
  let gate flag st :=
    Migrator.areMigrationRequirementsMet Scenario.satisfies Scenario.cleanSemver
      Scenario.installed4 flag st "pkg" m in
  let withPeer :=
    mkState [] [("pkg", planEntry "2.0.0" AddFalse);
                ("peer", planEntry "3.0.0" AddFalse)] [] in
  Migrator.wasMigrationSkipped Scenario.satisfies Scenario.installed4
    (mig_requires m) = true
  /\ gate true withPeer = Ok true
  /\ gate false withPeer = Ok true
  /\ gate true Scenario.planned4 = Ok false
  /\ gate false Scenario.planned4 = Ok false.
Proof. repeat split; vm_compute; reflexivity. Qed.

(** * Further properties of the source *)

(** ** [normalizeVersion] is idempotent *)

(** X1.  Normalizing twice is normalizing once. *)
Theorem normalizeVersion_idempotent (version : string) :
  normalizeVersion (normalizeVersion version) = normalizeVersion version.
Proof.
  unfold normalizeVersion at 2 3.
  destruct (firstGreaterThanZero (variationsToCheck version)) as [r|] eqn:E;
    [|vm_compute; reflexivity].
  apply firstGreaterThanZero_some in E.
  destruct E as (before & after & Hvars & Hgt & _).
  assert (Hin : In r (variationsToCheck version))
    by (rewrite Hvars; apply in_elt).
  clear Hvars before after.
  unfold variationsToCheck in Hin. cbv zeta in Hin.
  set (parts := JS.split "-" version) in *.
  set (semver := match parts with s :: _ => s | [] => "" end) in *.
  set (comps := JS.split "." semver) in *.
  assert (Hsemver : absent "-" semver).
  { subst semver. pose proof (split_pieces_absent "-" version) as H.
    fold parts in H. destruct parts as [|s ps]; [reflexivity|].
    apply H. now left. }
  assert (Hcomp : forall i s, JS.at_index comps i = Some s ->
                              absent "." s /\ absent "-" s).
  { intros i s H. apply nth_error_In in H. split.
    - eapply split_pieces_absent; eauto.
    - eapply split_first_absent; eauto. }
  destruct (or_zero_absent "." (JS.at_index comps 0) eq_refl
              (fun s H => proj1 (Hcomp 0 s H))) as [HM NM].
  destruct (or_zero_absent "-" (JS.at_index comps 0) eq_refl
              (fun s H => proj2 (Hcomp 0 s H))) as [HM' _].
  destruct (or_zero_absent "." (JS.at_index comps 1) eq_refl
              (fun s H => proj1 (Hcomp 1 s H))) as [Hm Nm].
  destruct (or_zero_absent "-" (JS.at_index comps 1) eq_refl
              (fun s H => proj2 (Hcomp 1 s H))) as [Hm' _].
  destruct (or_zero_absent "." (JS.at_index comps 2) eq_refl
              (fun s H => proj1 (Hcomp 2 s H))) as [Hp Np].
  destruct (or_zero_absent "-" (JS.at_index comps 2) eq_refl
              (fun s H => proj2 (Hcomp 2 s H))) as [Hp' _].
  set (M := JS.or_zero (JS.at_index comps 0)) in *.
  set (m := JS.or_zero (JS.at_index comps 1)) in *.
  set (p := JS.or_zero (JS.at_index comps 2)) in *.
  assert (Hzero : absent "." "0" /\ absent "-" "0" /\ "0" <> "")
    by (repeat split; discriminate).
  destruct Hzero as (Z1 & Z2 & Z3).
  assert (Htag : forall tag, JS.at_index parts 1 = Some tag -> absent "-" tag).
  { intros tag Etag. apply nth_error_In in Etag.
    eapply split_pieces_absent; eauto. }
  destruct (JS.at_index parts 1) as [[|t tag]|];
    destruct Hin as [Hr | [Hr | [Hr | [Hr | []]]]]; subst r;
    (eapply normalizeVersion_fixes_first; [|exact Hgt]);
    first [ now apply variations_of_plain
          | apply (variations_of_plain M m "0"); now auto
          | apply (variations_of_plain M "0" "0"); now auto
          | apply variations_of_tagged; auto; discriminate ].
Qed.

(** ** The planner's comparisons *)

(** X2.  [this.gt] and [this.lte] never throw, [lte] is the negation of
    [gt], and [gt] is a strict order on versions: irreflexive, asymmetric
    and transitive; of any two versions one is [lte] the other.  [lte]
    itself is not transitive: numeric prerelease identifiers are compared
    as doubles, and the first pair of identifiers that differ decides
    even when their doubles are equal. *)
Theorem planner_comparisons_are_an_order (a b c : string) :
  Semver.gt (normalizeVersion a) (normalizeVersion b) = Some (Migrator.gt a b)
  /\ Semver.lte (normalizeVersion a) (normalizeVersion b) = Some (Migrator.lte a b)
  /\ Migrator.lte a b = negb (Migrator.gt a b)
  /\ Migrator.gt a a = false
  /\ (Migrator.gt a b = true -> Migrator.gt b a = false)
  /\ (Migrator.gt a b = true -> Migrator.gt b c = true -> Migrator.gt a c = true)
  /\ (Migrator.lte a b = true \/ Migrator.lte b a = true)
  /\ (Migrator.lte "1.0.0-9007199254740993.9" "1.0.0-9007199254740992.0" = true
      /\ Migrator.lte "1.0.0-9007199254740992.0" "1.0.0-9007199254740993.1" = true
      /\ Migrator.lte "1.0.0-9007199254740993.9" "1.0.0-9007199254740993.1" = false).
Proof.
  destruct (normalizeVersion_valid a) as [x Hx].
  destruct (normalizeVersion_valid b) as [y Hy].
  destruct (normalizeVersion_valid c) as [z Hz].
  assert (Hgt : forall u v su sv,
             Semver.construct (normalizeVersion u) = Some su ->
             Semver.construct (normalizeVersion v) = Some sv ->
             Migrator.gt u v = Semver.is_gt (Semver.compareSemVer su sv)
             /\ Migrator.lte u v = negb (Semver.is_gt (Semver.compareSemVer su sv))).
  { intros u v su sv Hu Hv.
    unfold Migrator.gt, Migrator.lte, Semver.gt, Semver.lte, Semver.compare.
    rewrite Hu, Hv. auto. }
  destruct (Hgt a b x y Hx Hy) as [Gab Lab].
  destruct (Hgt b a y x Hy Hx) as [Gba Lba].
  destruct (Hgt b c y z Hy Hz) as [Gbc Lbc].
  destruct (Hgt a c x z Hx Hz) as [Gac Lac].
  destruct (Hgt a a x x Hx Hx) as [Gaa _].
  pose proof (compareSemVer_antisym x y) as Hanti.
  split; [apply gt_total|]. split; [apply lte_total|].
  split; [congruence|].
  split; [rewrite Gaa, compareSemVer_refl; reflexivity|].
  split.
  { rewrite Gab, Gba, Hanti. destruct (Semver.compareSemVer x y); auto. }
  split.
  { rewrite Gab, Gbc, Gac.
    destruct (Semver.compareSemVer x y) eqn:Exy; try discriminate.
    destruct (Semver.compareSemVer y z) eqn:Eyz; try discriminate.
    rewrite (compareSemVer_gt_trans x y z Exy Eyz). reflexivity. }
  split.
  { rewrite Lab, Lba, Hanti. destruct (Semver.compareSemVer x y); auto. }
  repeat split; vm_compute; reflexivity.
Qed.

(** ** The command line *)

Lemma trim_start_length (s : string) :
  String.length (JS.trim_start s) <= String.length s.
Proof.
  induction s as [|c s IH]; simpl; auto.
  destruct (JS.is_space c); simpl; lia.
Qed.

Lemma trim_end_length (s : string) :
  String.length (JS.trim_end s) <= String.length s.
Proof.
  induction s as [|c s IH]; simpl; auto.
  destruct (JS.trim_end s); [destruct (JS.is_space c)|]; simpl in *; lia.
Qed.

Lemma trim_length (s : string) :
  String.length (JS.trim s) <= String.length s.
Proof.
  unfold JS.trim. pose proof (trim_end_length (JS.trim_start s)).
  pose proof (trim_start_length s). lia.
Qed.

Lemma trim_start_head (s : string) :
  JS.trim_start s = ""
  \/ exists c t, JS.trim_start s = String c t /\ JS.is_space c = false.
Proof.
  induction s as [|c s IH]; simpl; auto.
  destruct (JS.is_space c) eqn:E; eauto.
Qed.

Lemma trim_end_head (c : ascii) (t : string) :
  JS.is_space c = false -> exists t', JS.trim_end (String c t) = String c t'.
Proof.
  intros H. simpl. destruct (JS.trim_end t); [rewrite H|]; eauto.
Qed.

Lemma trim_end_idempotent (s : string) :
  JS.trim_end (JS.trim_end s) = JS.trim_end s.
Proof.
  induction s as [|c s IH]; simpl; auto.
  destruct (JS.trim_end s) as [|d t] eqn:E.
  - destruct (JS.is_space c) eqn:Ec; simpl; [reflexivity|].
    rewrite Ec. reflexivity.
  - change (JS.trim_end (String c (String d t)))
      with (match JS.trim_end (String d t) with
            | EmptyString =>
                if JS.is_space c then EmptyString else String c EmptyString
            | u => String c u
            end).
    rewrite IH. reflexivity.
Qed.

(** Trimming twice is trimming once. *)
Lemma trim_idempotent (s : string) : JS.trim (JS.trim s) = JS.trim s.
Proof.
  unfold JS.trim.
  destruct (trim_start_head s) as [-> | (c & t & -> & Hc)]; [reflexivity|].
  destruct (trim_end_head c t Hc) as [t' Ht'].
  assert (Hstart : JS.trim_start (JS.trim_end (String c t))
                   = JS.trim_end (String c t)).
  { rewrite Ht'. simpl. rewrite Hc. reflexivity. }
  rewrite Hstart. apply trim_end_idempotent.
Qed.

(** What the constructor accepts is accepted: valid once trimmed. *)
Lemma construct_accepted (version : string) (sv : Semver.SemVer) :
  Semver.construct version = Some sv -> accepted version.
Proof.
  unfold accepted, Semver.valid, Semver.parse, Semver.construct.
  destruct (Nat.ltb Semver.MAX_LENGTH (String.length version)) eqn:Elen;
    [discriminate|].
  apply PeanoNat.Nat.ltb_ge in Elen.
  destruct (Semver.matchFull (JS.trim version)) as [m|] eqn:Em; [|discriminate].
  intros H. split; [exact Elen|].
  assert (Hlen : Nat.ltb Semver.MAX_LENGTH (String.length (JS.trim version))
                 = false).
  { apply PeanoNat.Nat.ltb_ge. pose proof (trim_length version). lia. }
  rewrite Hlen, trim_idempotent, Em.
  destruct ((_ <=? _) && _ && _)%N; [reflexivity | discriminate].
Qed.

Lemma normalizeVersionWithTagCheck_tagOrAccepted (version : string) :
  tagOrAccepted (normalizeVersionWithTagCheck version).
Proof.
  unfold normalizeVersionWithTagCheck, tagOrAccepted.
  destruct (String.eqb version "latest") eqn:El.
  - apply String.eqb_eq in El. auto.
  - destruct (String.eqb version "next") eqn:En; simpl.
    + apply String.eqb_eq in En. auto.
    + right. right. destruct (normalizeVersion_valid version) as [sv Hsv].
      eapply construct_accepted; eauto.
Qed.

Lemma lastIndexOf_none (c : ascii) (s : string) :
  JS.lastIndexOf c s = None -> JS.indexOf c s = None.
Proof.
  induction s as [|a s IH]; simpl; auto.
  destruct (JS.lastIndexOf c s); [discriminate|].
  destruct (Ascii.eqb a c); [discriminate|].
  intros _. rewrite IH; reflexivity.
Qed.

Lemma indexOf_none_last (c : ascii) (s : string) :
  JS.indexOf c s = None -> JS.lastIndexOf c s = None.
Proof.
  induction s as [|a s IH]; simpl; auto.
  destruct (Ascii.eqb a c); [discriminate|].
  destruct (JS.indexOf c s); [discriminate|].
  intros _. rewrite IH; reflexivity.
Qed.

Lemma lastIndexOf_zero (c : ascii) (s : string) :
  JS.lastIndexOf c s = Some 0 -> exists rest, s = String c rest.
Proof.
  destruct s as [|a s]; simpl; [discriminate|].
  destruct (JS.lastIndexOf c s); [discriminate|].
  destruct (Ascii.eqb a c) eqn:E; [|discriminate].
  apply Ascii.eqb_eq in E. subst a. eauto.
Qed.

Lemma lastIndexOf_lt (c : ascii) (s : string) (i : nat) :
  JS.lastIndexOf c s = Some i -> i < String.length s.
Proof.
  revert i. induction s as [|a s IH]; simpl; intros i; [discriminate|].
  destruct (JS.lastIndexOf c s) as [j|].
  - intros [= <-]. specialize (IH j eq_refl). lia.
  - destruct (Ascii.eqb a c); [|discriminate]. intros [= <-]. lia.
Qed.

Lemma trim_end_keeps (c : ascii) (s : string) :
  JS.is_space c = false -> JS.trim_end (String c s) <> "".
Proof.
  intros H. simpl. destruct (JS.trim_end s); [rewrite H|]; discriminate.
Qed.

Lemma nonempty_true (s : string) : JS.nonempty s = true <-> s <> "".
Proof. destruct s; simpl; split; congruence. Qed.

Lemma substring_from_empty (n : nat) (s : string) :
  JS.substring_from n s = "" <-> String.length s <= n.
Proof.
  unfold JS.substring_from. revert n.
  induction s as [|a s IH]; intros n; simpl.
  - destruct n; simpl; split; auto; lia.
  - destruct n; simpl.
    + split; [discriminate | lia].
    + rewrite IH. lia.
Qed.

Lemma parsed_target_usable (args targetPackage targetVersion : string) :
  parseTargetPackageAndVersion args = Ok (targetPackage, targetVersion) ->
  targetPackage <> "" /\ tagOrAccepted targetVersion.
Proof.
  unfold parseTargetPackageAndVersion.
  destruct args as [|a rest]; [discriminate|].
  set (args := String a rest).
  destruct (JS.indexOf "@" args) eqn:Eat.
  - destruct (JS.lastIndexOf "@" args) as [[|i]|] eqn:Elast.
    + intros [= <- <-]. split; [|left; reflexivity].
      apply lastIndexOf_zero in Elast. destruct Elast as [r Hr].
      rewrite Hr. unfold JS.trim. simpl JS.trim_start.
      apply trim_end_keeps. reflexivity.
    + destruct (negb (JS.nonempty (JS.substring 0 (S i) args))
                || negb (JS.nonempty (JS.substring_from (S i + 1) args))) eqn:E;
        [discriminate|].
      intros [= <- <-]. apply orb_false_iff in E. destruct E as [E _].
      apply negb_false_iff, nonempty_true in E.
      split; [exact E | apply normalizeVersionWithTagCheck_tagOrAccepted].
    + apply lastIndexOf_none in Elast. congruence.
  - destruct (String.eqb args "latest" || String.eqb args "next"
              || Semver.valid args || JS.matches_partial_version args).
    + destruct (String.eqb args "latest" || String.eqb args "next").
      * intros [= <- <-]. split; [discriminate|].
        apply normalizeVersionWithTagCheck_tagOrAccepted.
      * destruct (Semver.lt _ _) as [[|]|]; try discriminate;
          intros [= <- <-]; (split; [discriminate|]);
          apply normalizeVersionWithTagCheck_tagOrAccepted.
    + intros [= <- <-]. split; [discriminate | left; reflexivity].
Qed.

(** X3.  Whatever [parseTargetPackageAndVersion] returns names a package
    and a version the planner can use: the package is not empty and the
    version is [latest], [next] or a version that [semver]'s comparisons
    accept, that is at most 256 characters long and valid once trimmed
    of the white space around it.  (It need not be valid as it is:
    ["pkg@ 1.2.3"] gives the version [" 1.2.3"].) *)
Theorem parseTargetPackageAndVersion_wellformed
    (args targetPackage targetVersion : string) :
  parseTargetPackageAndVersion args = Ok (targetPackage, targetVersion) ->
  targetPackage <> "" /\ tagOrAccepted targetVersion.
Proof. apply parsed_target_usable. Qed.

Lemma parseTargetPackageAndVersion_wellformed_witness :
  "@nrwl/workspace" <> "" /\ tagOrAccepted "13.0.0".
Proof.
  apply (parseTargetPackageAndVersion_wellformed "@nrwl/workspace@13").
  reflexivity.
Defined.

(** The version after ['@'] is not trimmed. *)
Example parse_padded_target :
  parseTargetPackageAndVersion "pkg@ 1.2.3" = Ok ("pkg", " 1.2.3")
  /\ Semver.valid " 1.2.3" = false
  /\ Semver.valid (JS.trim " 1.2.3") = true.
Proof. repeat split; reflexivity. Qed.

(** X4.  [parseTargetPackageAndVersion] throws exactly on the empty
    argument and on an argument that ends with an ['@'] that is not its
    first character; on every other argument it returns. *)
Theorem parseTargetPackageAndVersion_throws (args : string) :
  (exists message, parseTargetPackageAndVersion args = Throw message)
  <-> args = ""
      \/ exists i, JS.lastIndexOf "@" args = Some (S i)
                   /\ String.length args = S (S i).
Proof.
  unfold parseTargetPackageAndVersion.
  destruct args as [|a rest].
  { split; eauto. }
  set (args := String a rest).
  destruct (JS.indexOf "@" args) eqn:Eat.
  - destruct (JS.lastIndexOf "@" args) as [[|i]|] eqn:Elast.
    + split.
      * intros [m H]. discriminate.
      * intros [H | (i & H & _)]; discriminate.
    + pose proof (lastIndexOf_lt _ _ _ Elast) as Hlt.
      remember (JS.substring_from (S i + 1) args) as maybeVersion eqn:Ever.
      change (JS.nonempty (JS.substring 0 (S i) args)) with true.
      assert (Hlen : maybeVersion = "" <-> String.length args = S (S i)).
      { rewrite Ever, substring_from_empty. lia. }
      destruct maybeVersion as [|c v]; simpl.
      * split; [|eauto]. intros _. right. exists i. split; [reflexivity|].
        now apply Hlen.
      * split.
        -- intros [m H]. discriminate.
        -- intros [H | (j & [= <-] & Hj)]; [discriminate|].
           apply Hlen in Hj. discriminate.
    + apply lastIndexOf_none in Elast. congruence.
  - split.
    + destruct (String.eqb args "latest" || String.eqb args "next"
                || Semver.valid args || JS.matches_partial_version args);
        [|intros [m H]; discriminate].
      unfold normalizeVersionWithTagCheck.
      destruct (String.eqb args "latest" || String.eqb args "next");
        [intros [m H]; discriminate|].
      destruct (lt_normalized args "14.0.0-beta.0") as [below Hb].
      { eexists. vm_compute. reflexivity. }
      rewrite Hb. destruct below; intros [m H]; discriminate.
    + intros [H | (i & H & _)]; [discriminate|].
      rewrite (indexOf_none_last _ _ Eat) in H. discriminate.
Qed.

(** ** [--from] and [--to] *)

Lemma normalizeSlashes_nonempty (s : string) :
  s <> "" -> normalizeSlashes s <> "".
Proof. destruct s; simpl; [congruence | discriminate]. Qed.

Lemma normalizeSlashes_no_backslash (s : string) :
  absent backslash (normalizeSlashes s).
Proof.
  induction s as [|c s IH]; simpl; [reflexivity|].
  apply absent_cons. split; [|exact IH].
  destruct (Ascii.eqb c backslash) eqn:E; [reflexivity | exact E].
Qed.

(** What holds of every entry of a parsed [--from] or [--to]. *)
Lemma addOverrides_entries (param : string) (pieces : list string)
    (res res' : Obj.t string) :
  addOverrides param res pieces = Ok res' ->
  (forall k v, Obj.get k res = Some v ->
               k <> "" /\ absent backslash k /\ tagOrAccepted v) ->
  forall k v, Obj.get k res' = Some v ->
              k <> "" /\ absent backslash k /\ tagOrAccepted v.
Proof.
  revert res. induction pieces as [|p rest IH]; simpl; intros res.
  - intros [= <-]. auto.
  - destruct (addOverride param res p) as [res1| |] eqn:E; simpl;
      try discriminate.
    intros Hrest Hres. apply (IH res1 Hrest).
    unfold addOverride in E.
    destruct (JS.lastIndexOf "@" p) as [[|i]|]; try discriminate.
    destruct (negb (JS.nonempty (JS.trim (JS.substring 0 (S i) p)))
              || negb (JS.nonempty (JS.trim (JS.substring_from (S i + 1) p))))
      eqn:Eguard; [discriminate|].
    injection E as <-.
    apply orb_false_iff in Eguard. destruct Eguard as [Epkg _].
    apply negb_false_iff, nonempty_true in Epkg.
    intros k v. rewrite get_set.
    destruct (String.eqb _ k) eqn:Ek.
    + apply String.eqb_eq in Ek. subst k. intros [= <-].
      repeat split.
      * now apply normalizeSlashes_nonempty.
      * apply normalizeSlashes_no_backslash.
      * apply normalizeVersionWithTagCheck_tagOrAccepted.
    + apply Hres.
Qed.

(** X5.  In a parsed [--from] or [--to], every package name is non-empty
    and free of backslashes, and every version is [latest], [next] or a
    version that [semver]'s comparisons accept, that is at most 256
    characters long and valid once trimmed of the white space around it.
    (It need not be valid as it is: ["nx@1.2.3 -beta"] gives the version
    ["1.2.3 "].) *)
Theorem versionOverrides_entries (overrides param : string) (res : Obj.t string) :
  versionOverrides overrides param = Ok res ->
  forall k v, Obj.get k res = Some v ->
              k <> "" /\ absent backslash k /\ tagOrAccepted v.
Proof.
  intros H. apply (addOverrides_entries param _ Obj.empty res H).
  intros k v [=].
Qed.

Lemma versionOverrides_entries_witness :
  "nx" <> "" /\ absent backslash "nx" /\ tagOrAccepted "15.0.0".
Proof.
  apply (versionOverrides_entries "@nrwl/workspace@13, nx@15" "from"
           [("@nrwl/workspace", "13.0.0"); ("nx", "15.0.0")] eq_refl
           "nx" "15.0.0" eq_refl).
Defined.

(** White space before a prerelease tag stays after the version. *)
Example versionOverrides_padded :
  versionOverrides "nx@1.2.3 -beta" "from" = Ok [("nx", "1.2.3 ")]
  /\ Semver.valid "1.2.3 " = false.
Proof. split; reflexivity. Qed.

(** The keys that are array indices come first, in numeric order. *)
Example versionOverrides_order :
  versionOverrides "b@1.0.0,10@2.0.0,9@1.0.0,a@1.0.0" "from"
  = Ok [("9", "1.0.0"); ("10", "2.0.0"); ("b", "1.0.0"); ("a", "1.0.0")].
Proof. reflexivity. Qed.

Lemma addOverride_throws (param : string) (res : Obj.t string) (p : string) :
  match addOverride param res p with
  | Ok _ => ~ malformedOverride p
  | Throw message => message = incorrectSection param /\ malformedOverride p
  | OutOfFuel => False
  end.
Proof.
  unfold addOverride, malformedOverride.
  destruct (JS.lastIndexOf "@" p) as [[|i]|]; auto.
  destruct (JS.trim (JS.substring 0 (S i) p)) as [|a s];
    destruct (JS.trim (JS.substring_from (S i + 1) p)) as [|b t]; simpl; auto.
  intros [H | H]; discriminate.
Qed.

(** X6.  [versionOverrides] throws, with the message that names the
    option, exactly when one of the comma-separated entries is
    malformed; otherwise it returns. *)
Theorem versionOverrides_throws (overrides param : string) :
  match versionOverrides overrides param with
  | Ok _ => Forall (fun p => ~ malformedOverride p) (JS.split "," overrides)
  | Throw message =>
      message = incorrectSection param
      /\ Exists malformedOverride (JS.split "," overrides)
  | OutOfFuel => False
  end.
Proof.
  unfold versionOverrides. generalize (@Obj.empty string) as res.
  induction (JS.split "," overrides) as [|p rest IH]; simpl; intros res.
  - constructor.
  - pose proof (addOverride_throws param res p) as Hp.
    destruct (addOverride param res p) as [res1| |]; simpl.
    + specialize (IH res1).
      destruct (addOverrides param res1 rest); auto.
      destruct IH as [-> Hex]. auto.
    + destruct Hp as [-> Hm]. auto.
    + contradiction.
Qed.

Example versionOverrides_missing_at :
  versionOverrides "nx@15,workspace" "from" = Throw (incorrectSection "from").
Proof. reflexivity. Qed.


(** ** The manifest writer *)

Lemma get_in_keys {V} (k : string) (o : Obj.t V) :
  In k (Obj.keys o) <-> exists v, Obj.get k o = Some v.
Proof.
  induction o as [|[k0 v0] o IH]; simpl.
  - split; [tauto | intros [v H]; discriminate].
  - destruct (String.eqb k0 k) eqn:E.
    + apply String.eqb_eq in E. split; eauto.
    + apply String.eqb_neq in E. rewrite <- IH. tauto.
Qed.

Lemma get_some_in {V} (k : string) (v : V) (o : Obj.t V) :
  Obj.get k o = Some v -> In (k, v) o.
Proof.
  induction o as [|[k0 v0] o IH]; simpl; [discriminate|].
  destruct (String.eqb k0 k) eqn:E.
  - apply String.eqb_eq in E. subst k0. intros [= ->]. now left.
  - intros H. right. now apply IH.
Qed.

Lemma replace_same {V} (k : string) (v : V) (o : Obj.t V) :
  Obj.get k o = Some v -> Obj.replace k v o = o.
Proof.
  induction o as [|[k0 v0] o IH]; simpl; [discriminate|].
  destruct (String.eqb k0 k).
  - intros [= ->]. reflexivity.
  - intros H. rewrite (IH H). reflexivity.
Qed.

Lemma set_same {V} (k : string) (v : V) (o : Obj.t V) :
  Obj.get k o = Some v -> Obj.set k v o = o.
Proof.
  intros H. unfold Obj.set. rewrite H. now apply replace_same.
Qed.

Lemma depOf_setDependency (section : option (Obj.t string)) (p version q : string) :
  depOf (setDependency section p version) q
  = if String.eqb p q then Some version else depOf section q.
Proof.
  unfold setDependency, depOf. rewrite get_set.
  destruct section; reflexivity.
Qed.

Lemma setDependency_same (section : option (Obj.t string)) (p version : string) :
  depOf section p = Some version -> setDependency section p version = section.
Proof.
  destruct section as [o|]; simpl; [|discriminate].
  intros H. unfold setDependency. rewrite (set_same _ _ _ H). reflexivity.
Qed.

Lemma updateDependency_other (json : PackageJson) (p q : string)
    (update : PackageUpdate) :
  p <> q ->
  depOf (dependencies (updateDependency json p update)) q
  = depOf (dependencies json) q
  /\ depOf (devDependencies (updateDependency json p update)) q
     = depOf (devDependencies json) q.
Proof.
  intros Hne. apply String.eqb_neq in Hne. unfold updateDependency.
  destruct (JS.truthy (depOf (devDependencies json) p)); cbn [dependencies devDependencies];
    [rewrite depOf_setDependency, Hne; auto|].
  destruct (JS.truthy (depOf (dependencies json) p)); cbn [dependencies devDependencies];
    [rewrite depOf_setDependency, Hne; auto|].
  destruct (pu_addToPackageJson update) as [[| |]|]; cbn [dependencies devDependencies];
    rewrite ?depOf_setDependency, ?Hne; auto.
Qed.

Lemma updateDependency_self (json : PackageJson) (p : string)
    (update : PackageUpdate) :
  manifestEntryAfter json (updateDependency json p update) p (Some update).
Proof.
  unfold manifestEntryAfter, updateDependency.
  destruct (JS.truthy (depOf (devDependencies json) p)); cbn [dependencies devDependencies];
    [rewrite depOf_setDependency, String.eqb_refl; auto|].
  destruct (JS.truthy (depOf (dependencies json) p)); cbn [dependencies devDependencies];
    [rewrite depOf_setDependency, String.eqb_refl; auto|].
  destruct (pu_addToPackageJson update) as [[| |]|]; cbn [dependencies devDependencies];
    rewrite ?depOf_setDependency, ?String.eqb_refl; auto.
Qed.

(** [manifestEntryAfter] only looks at the two entries of [p]. *)
Lemma manifestEntryAfter_ext (json1 json2 json1' json2' : PackageJson)
    (p : string) (update : option PackageUpdate) :
  depOf (dependencies json1) p = depOf (dependencies json2) p ->
  depOf (devDependencies json1) p = depOf (devDependencies json2) p ->
  depOf (dependencies json1') p = depOf (dependencies json2') p ->
  depOf (devDependencies json1') p = depOf (devDependencies json2') p ->
  manifestEntryAfter json1 json1' p update ->
  manifestEntryAfter json2 json2' p update.
Proof.
  unfold manifestEntryAfter. intros -> -> -> ->. auto.
Qed.

Lemma updateDependencies_entries (updatedPackages : Obj.t PackageUpdate)
    (keys : list string) (json : PackageJson) :
  NoDup keys ->
  (forall k, In k keys -> exists u, Obj.get k updatedPackages = Some u) ->
  exists json',
    updateDependencies updatedPackages keys json = Ok json'
    /\ (forall p, In p keys ->
          manifestEntryAfter json json' p (Obj.get p updatedPackages))
    /\ (forall p, ~ In p keys -> manifestEntryAfter json json' p None).
Proof.
  revert json.
  induction keys as [|k rest IH]; intros json Hnd Hkeys; simpl updateDependencies.
  - exists json. split; [reflexivity|]. split; [intros p []|].
    intros p _. split; reflexivity.
  - inversion Hnd as [|? ? Hk Hrest]; subst.
    destruct (Hkeys k (or_introl eq_refl)) as [u Hu]. rewrite Hu.
    destruct (IH (updateDependency json k u) Hrest
                 (fun q Hq => Hkeys q (or_intror Hq)))
      as (json' & Hrun & Hin & Hout).
    exists json'. split; [exact Hrun|]. split.
    + intros p [<- | Hp].
      * rewrite Hu. destruct (Hout k Hk) as [Hd Hdev].
        eapply manifestEntryAfter_ext;
          [reflexivity | reflexivity | symmetry; exact Hd
          | symmetry; exact Hdev | apply updateDependency_self].
      * assert (Hne : k <> p) by (intros ->; contradiction).
        destruct (updateDependency_other json k p u Hne) as [Hd Hdev].
        eapply manifestEntryAfter_ext;
          [exact Hd | exact Hdev | reflexivity | reflexivity | now apply Hin].
    + intros p Hp.
      assert (Hne : k <> p) by (intros ->; apply Hp; now left).
      destruct (updateDependency_other json k p u Hne) as [Hd Hdev].
      eapply manifestEntryAfter_ext;
        [exact Hd | exact Hdev | reflexivity | reflexivity|].
      apply Hout. intros H. apply Hp. now right.
Qed.

Lemma updatePackageJson_result (json : PackageJson)
    (updatedPackages : Obj.t PackageUpdate) :
  NoDup (Obj.keys updatedPackages) ->
  exists json',
    updatePackageJson (Some json) updatedPackages = Ok (Some json')
    /\ forall p, manifestEntryAfter json json' p (Obj.get p updatedPackages).
Proof.
  intros Hnd.
  destruct (updateDependencies_entries updatedPackages (Obj.keys updatedPackages)
              json Hnd (fun k Hk => proj1 (get_in_keys k updatedPackages) Hk))
    as (json' & Hrun & Hin & Hout).
  exists json'. unfold updatePackageJson. rewrite Hrun. split; [reflexivity|].
  intros p. destruct (Obj.get p updatedPackages) as [u|] eqn:E.
  - rewrite <- E. apply Hin. apply get_in_keys. eauto.
  - apply Hout. intros H. apply get_in_keys in H. destruct H as [u H].
    congruence.
Qed.

(** X8.  [updatePackageJson] never throws, and it touches a package only
    through its plan entry: a package outside the plan keeps its entries;
    a planned package already in [devDependencies] gets the planned
    version there, else one already in [dependencies] gets it there, else
    it is added under the section [addToPackageJson] names, and not at all
    when that is [false]; the other section is left as it was.  Without a
    [package.json] nothing is written. *)
Theorem updatePackageJson_entries (json : PackageJson)
    (updatedPackages : Obj.t PackageUpdate) :
  NoDup (Obj.keys updatedPackages) ->
  updatePackageJson None updatedPackages = Ok None
  /\ exists json',
       updatePackageJson (Some json) updatedPackages = Ok (Some json')
       /\ forall p, manifestEntryAfter json json' p (Obj.get p updatedPackages).
Proof.
  intros Hnd. split; [reflexivity|]. now apply updatePackageJson_result.
Qed.

Lemma updateDependency_fixed (json json' : PackageJson) (p : string)
    (update : PackageUpdate) :
  pu_version update <> "" ->
  manifestEntryAfter json json' p (Some update) ->
  updateDependency json' p update = json'.
Proof.
  intros Hv. unfold manifestEntryAfter, updateDependency. simpl option_map.
  assert (Htruthy : JS.truthy (Some (pu_version update)) = true)
    by (destruct (pu_version update); [congruence | reflexivity]).
  destruct json' as [deps' devs']. simpl.
  destruct (JS.truthy (depOf (devDependencies json) p)) eqn:E1.
  { intros [Hw Hk]. rewrite Hw, Htruthy, (setDependency_same _ _ _ Hw).
    reflexivity. }
  destruct (JS.truthy (depOf (dependencies json) p)) eqn:E2.
  { intros [Hw Hk]. rewrite Hk, E1, Hw, Htruthy, (setDependency_same _ _ _ Hw).
    reflexivity. }
  destruct (pu_addToPackageJson update) as [[| |]|]; intros [H1 H2].
  - rewrite H2, E1, H1, E2. reflexivity.
  - rewrite H2, E1, H1, Htruthy, (setDependency_same _ _ _ H1). reflexivity.
  - rewrite H1, Htruthy, (setDependency_same _ _ _ H1). reflexivity.
  - rewrite H2, E1, H1, E2. reflexivity.
Qed.

(** X9.  Updating a manifest that was already updated with the same plan
    changes nothing. *)
Theorem updatePackageJson_idempotent (json json' : PackageJson)
    (updatedPackages : Obj.t PackageUpdate) :
  NoDup (Obj.keys updatedPackages) ->
  (forall p u, Obj.get p updatedPackages = Some u -> pu_version u <> "") ->
  updatePackageJson (Some json) updatedPackages = Ok (Some json') ->
  updatePackageJson (Some json') updatedPackages = Ok (Some json').
Proof.
  intros Hnd Hver Hrun.
  destruct (updatePackageJson_result json updatedPackages Hnd)
    as (json1 & Hrun1 & Hentries).
  assert (json1 = json') by congruence. subst json1. clear Hrun Hrun1.
  unfold updatePackageJson.
  assert (Hfold : forall keys,
             (forall k, In k keys -> In k (Obj.keys updatedPackages)) ->
             updateDependencies updatedPackages keys json' = Ok json').
  { induction keys as [|k rest IH]; intros Hsub; simpl; [reflexivity|].
    destruct (proj1 (get_in_keys k updatedPackages) (Hsub k (or_introl eq_refl)))
      as [u Hu].
    rewrite Hu, (updateDependency_fixed json json' k u).
    - apply IH. intros q Hq. apply Hsub. now right.
    - eapply Hver; eauto.
    - rewrite <- Hu. apply Hentries. }
  rewrite Hfold; auto.
Qed.

Lemma updatePackageJson_entries_witness :
  exists json',
    updatePackageJson (Some Workspace.manifest) Workspace.plan = Ok (Some json')
    /\ forall p, manifestEntryAfter Workspace.manifest json' p
                   (Obj.get p Workspace.plan).
Proof.
  apply (updatePackageJson_entries Workspace.manifest Workspace.plan).
  repeat constructor; simpl; intuition discriminate.
Defined.

Lemma updatePackageJson_idempotent_witness :
  updatePackageJson (Some Workspace.updated) Workspace.plan
  = Ok (Some Workspace.updated).
Proof.
  apply (updatePackageJson_idempotent Workspace.manifest Workspace.updated
           Workspace.plan).
  - repeat constructor; simpl; intuition discriminate.
  - intros p u Hget. apply get_some_in in Hget.
    assert (Hall : Forall (fun e => pu_version (snd e) <> "") Workspace.plan)
      by (repeat constructor; discriminate).
    rewrite Forall_forall in Hall. apply (Hall (p, u) Hget).
  - reflexivity.
Defined.

(** ** The installation block of [nx.json] *)

Lemma keys_set_present {V} (k : string) (v : V) (o : Obj.t V) :
  In k (Obj.keys o) -> Obj.keys (Obj.set k v o) = Obj.keys o.
Proof.
  intros H. apply get_in_keys in H. destruct H as [x H].
  unfold Obj.set. rewrite H. apply keys_replace.
Qed.

Lemma updatePlugins_spec (updatedPackages : Obj.t PackageUpdate)
    (deps : list string) (plugins : Obj.t string) :
  (forall dep, In dep deps -> In dep (Obj.keys plugins)) ->
  Obj.keys (updatePlugins updatedPackages deps plugins) = Obj.keys plugins
  /\ forall dep,
       Obj.get dep (updatePlugins updatedPackages deps plugins)
       = match Obj.get dep updatedPackages with
         | Some update =>
             if in_dec string_dec dep deps
             then Some (pu_version update) else Obj.get dep plugins
         | None => Obj.get dep plugins
         end.
Proof.
  revert plugins.
  induction deps as [|d rest IH]; intros plugins Hsub; simpl updatePlugins.
  - split; [reflexivity|]. intros dep.
    destruct (Obj.get dep updatedPackages); reflexivity.
  - destruct (Obj.get d updatedPackages) as [u|] eqn:Eu.
    + assert (Hkeys : Obj.keys (Obj.set d (pu_version u) plugins)
                      = Obj.keys plugins)
        by (apply keys_set_present, Hsub; now left).
      destruct (IH (Obj.set d (pu_version u) plugins)) as [Hk Hget].
      { intros dep Hdep. rewrite Hkeys. apply Hsub. now right. }
      split; [congruence|].
      intros dep. rewrite Hget, get_set.
      destruct (Obj.get dep updatedPackages) as [ud|] eqn:Ed.
      * destruct (in_dec string_dec dep rest) as [Hin | Hnin];
          destruct (in_dec string_dec dep (d :: rest)) as [Hin' | Hnin'];
          try reflexivity.
        -- exfalso. apply Hnin'. now right.
        -- destruct Hin' as [<- | H]; [|contradiction].
           rewrite String.eqb_refl. congruence.
        -- destruct (String.eqb d dep) eqn:E; [|reflexivity].
           apply String.eqb_eq in E. exfalso. apply Hnin'. now left.
      * destruct (String.eqb d dep) eqn:E; [|reflexivity].
        apply String.eqb_eq in E. congruence.
    + destruct (IH plugins) as [Hk Hget].
      { intros dep Hdep. apply Hsub. now right. }
      split; [exact Hk|].
      intros dep. rewrite Hget.
      destruct (Obj.get dep updatedPackages) as [ud|] eqn:Ed; [|reflexivity].
      destruct (in_dec string_dec dep rest) as [Hin | Hnin];
        destruct (in_dec string_dec dep (d :: rest)) as [Hin' | Hnin'];
        try reflexivity.
      * exfalso. apply Hnin'. now right.
      * destruct Hin' as [<- | H]; [congruence | contradiction].
Qed.

(** X10.  [updateInstallationDetails] writes nothing without an
    [installation] block.  With one, it pins exactly the plugins that were
    pinned before, in the same order: a plugin of the plan gets the
    planned version, any other keeps its pin, none is added or removed;
    [installation.version] becomes the planned version of [nx] when the
    plan has one, and is kept otherwise. *)
Theorem updateInstallationDetails_pins (nxJson : NxJson)
    (updatedPackages : Obj.t PackageUpdate) :
  match installation nxJson, updateInstallationDetails nxJson updatedPackages with
  | None, None => True
  | Some inst, Some {| installation := Some inst' |} =>
      inst_version inst'
      = match Obj.get "nx" updatedPackages with
        | Some update =>
            if JS.nonempty (pu_version update)
            then pu_version update else inst_version inst
        | None => inst_version inst
        end
      /\ match inst_plugins inst, inst_plugins inst' with
         | None, None => True
         | Some plugins, Some plugins' =>
             Obj.keys plugins' = Obj.keys plugins
             /\ forall dep pin,
                  Obj.get dep plugins = Some pin ->
                  Obj.get dep plugins'
                  = Some match Obj.get dep updatedPackages with
                         | Some update => pu_version update
                         | None => pin
                         end
         | _, _ => False
         end
  | _, _ => False
  end.
Proof.
  unfold updateInstallationDetails.
  destruct (installation nxJson) as [inst|]; [|exact I].
  cbn [installation inst_version inst_plugins]. split.
  - destruct (Obj.get "nx" updatedPackages) as [[[|c v] i a d]|]; reflexivity.
  - destruct (inst_plugins inst) as [plugins|]; [|exact I].
    destruct (updatePlugins_spec updatedPackages (Obj.keys plugins) plugins
                (fun dep H => H)) as [Hkeys Hget].
    split; [exact Hkeys|].
    intros dep pin Hpin. rewrite Hget, Hpin.
    destruct (Obj.get dep updatedPackages); [|reflexivity].
    destruct (in_dec string_dec dep (Obj.keys plugins)) as [_ | Hn];
      [reflexivity|].
    exfalso. apply Hn. apply get_in_keys. eauto.
Qed.

(** ** [--from] overrides during planning *)

Lemma defaultOverride_keeps (child v k w : string) (st : State) :
  Obj.get k (installedPkgVersionOverrides st) = Some w ->
  Obj.get k (installedPkgVersionOverrides (Migrator.defaultOverride child v st))
  = Some w.
Proof.
  intros H. unfold Migrator.defaultOverride.
  destruct (Obj.get child (installedPkgVersionOverrides st)) eqn:E; [exact H|].
  simpl. rewrite get_set. destruct (String.eqb child k) eqn:Ek; [|exact H].
  apply String.eqb_eq in Ek. congruence.
Qed.

Lemma planner_write_keeps_overrides (st st' : State) :
  planner_write st st' ->
  forall k w,
    Obj.get k (installedPkgVersionOverrides st) = Some w ->
    Obj.get k (installedPkgVersionOverrides st') = Some w.
Proof.
  intros [name packageUpdate s | name version s | child version s] k w H.
  - unfold Migrator.addPackageUpdate.
    destruct (Obj.get name (packageUpdates s)); [destruct (Migrator.gt _ _)|];
      exact H.
  - exact H.
  - now apply defaultOverride_keeps.
Qed.

(** X11.  Planning never changes or removes an override: along any
    sequence of the planner's writes, hence under any interleaving of its
    asynchronous calls, whatever version [--from] (or an earlier group
    expansion) fixed for a package is still the override of that
    package. *)
Theorem installedPkgVersionOverrides_kept (st st' : State) :
  planner_run st st' ->
  forall k w,
    Obj.get k (installedPkgVersionOverrides st) = Some w ->
    Obj.get k (installedPkgVersionOverrides st') = Some w.
Proof.
  intros Hrun. induction Hrun as [s s' Hstep | s | s1 s2 s3 _ IH12 _ IH23];
    intros k w H; auto.
  eapply planner_write_keeps_overrides; eauto.
Qed.

Lemma expandGroup_keeps_overrides (packageName targetVersion : string)
    (packageGroup : ArrayPackageGroup) (packages : Obj.t PackageUpdate)
    (st : State) (k w : string) :
  Obj.get k (installedPkgVersionOverrides st) = Some w ->
  Obj.get k (installedPkgVersionOverrides
               (snd (Migrator.expandGroup packageName targetVersion
                       packageGroup packages st)))
  = Some w.
Proof.
  revert packages st.
  induction packageGroup as [|packageConfig rest IH]; intros packages st H;
    simpl; [exact H|].
  apply IH.
  destruct (String.eqb (pg_version packageConfig) "*"); [|exact H].
  destruct (Obj.get packageName (installedPkgVersionOverrides st))
    as [[|c v]|]; try exact H.
  now apply defaultOverride_keeps.
Qed.

(** X12.  When the package being expanded has an override, every child
    that its group lists with version ["*"] has an override afterwards:
    the one it already had, or else the parent's. *)
Theorem expandGroup_propagates_override (packageName targetVersion : string)
    (packageGroup : ArrayPackageGroup) (packages : Obj.t PackageUpdate)
    (st : State) (v : string) :
  Obj.get packageName (installedPkgVersionOverrides st) = Some v ->
  v <> "" ->
  forall e,
    In e packageGroup ->
    pg_version e = "*" ->
    Obj.get (pg_package e)
      (installedPkgVersionOverrides
         (snd (Migrator.expandGroup packageName targetVersion
                 packageGroup packages st)))
    = Some match Obj.get (pg_package e) (installedPkgVersionOverrides st) with
           | Some w => w
           | None => v
           end.
Proof.
  intros Hparent Hv. revert packages st Hparent.
  induction packageGroup as [|x rest IH]; intros packages st Hparent e;
    [intros []|].
  simpl Migrator.expandGroup.
  set (st1 := if String.eqb (pg_version x) "*"
              then match Obj.get packageName (installedPkgVersionOverrides st) with
                   | Some (String _ _ as v0) =>
                       Migrator.defaultOverride (pg_package x) v0 st
                   | _ => st
                   end
              else st).
  assert (Hkeep : forall k w,
             Obj.get k (installedPkgVersionOverrides st) = Some w ->
             Obj.get k (installedPkgVersionOverrides st1) = Some w).
  { intros k w H. subst st1. destruct (String.eqb (pg_version x) "*"); auto.
    rewrite Hparent. destruct v; [congruence|].
    now apply defaultOverride_keeps. }
  intros [<- | Hin] Hstar.
  - apply expandGroup_keeps_overrides.
    subst st1. rewrite Hstar. simpl String.eqb. rewrite Hparent.
    destruct v as [|c v']; [congruence|].
    unfold Migrator.defaultOverride.
    destruct (Obj.get (pg_package x) (installedPkgVersionOverrides st)) eqn:E.
    + exact E.
    + simpl. apply get_set_same.
  - rewrite (IH _ st1 (Hkeep _ _ Hparent) e Hin Hstar).
    destruct (Obj.get (pg_package e) (installedPkgVersionOverrides st)) as [w|] eqn:E.
    + rewrite (Hkeep _ _ E). reflexivity.
    + subst st1. destruct (String.eqb (pg_version x) "*"); [|rewrite E; reflexivity].
      rewrite Hparent. destruct v as [|c v']; [congruence|].
      unfold Migrator.defaultOverride.
      destruct (Obj.get (pg_package x) (installedPkgVersionOverrides st)) eqn:Ex;
        [rewrite E; reflexivity|].
      simpl. rewrite get_set.
      destruct (String.eqb (pg_package x) (pg_package e)); [reflexivity|].
      rewrite E. reflexivity.
Qed.

Lemma expandGroup_propagates_override_witness :
  Obj.get "child"
    (installedPkgVersionOverrides
       (snd (Migrator.expandGroup "root" "2.0.0"
               [mkPackageGroupEntry "child" "*"] Obj.empty
               (mkState [("root", "1.0.0")] [] []))))
  = Some "1.0.0".
Proof.
  refine (expandGroup_propagates_override "root" "2.0.0"
            [mkPackageGroupEntry "child" "*"] Obj.empty
            (mkState [("root", "1.0.0")] [] []) "1.0.0" eq_refl _
            (mkPackageGroupEntry "child" "*") (or_introl eq_refl) eq_refl).
  discriminate.
Defined.

(** Scenario 2 with [--from root@1.0.0]: the run of Phase 1 is a
    sequence of planner writes, and [root] keeps its override. *)
Lemma installedPkgVersionOverrides_kept_witness :
  Obj.get "root" (installedPkgVersionOverrides PinnedRun.after) = Some "1.0.0".
Proof.
  apply (installedPkgVersionOverrides_kept PinnedRun.before PinnedRun.after).
  - apply (buildPackageJsonUpdates_writes
             Scenario.satisfies Scenario.cleanSemver Scenario.confirm
             Scenario.manifest2 Scenario.installed2 Scenario.fetch2 [] false
             5 "root" (planEntry "2.0.0" AddFalse) PinnedRun.before tt).
    vm_compute. reflexivity.
  - reflexivity.
Defined.

(** ** The order of the deferred packages *)

Lemma insertByKey_perm {A} (key : A -> Z) (x : A) (l : list A) :
  Permutation (Migrator.insertByKey key x l) (x :: l).
Proof.
  induction l as [|y l IH]; simpl; [apply Permutation_refl|].
  destruct (key x <=? key y)%Z; [apply Permutation_refl|].
  eapply perm_trans; [apply perm_skip, IH | apply perm_swap].
Qed.

Lemma insertByKey_sorted {A} (key : A -> Z) (x : A) (l : list A) :
  StronglySorted (fun a b => (key a <= key b)%Z) l ->
  StronglySorted (fun a b => (key a <= key b)%Z) (Migrator.insertByKey key x l).
Proof.
  induction l as [|y l IH]; simpl; intros Hs.
  - constructor; constructor.
  - inversion Hs as [|? ? Hl Hy]; subst.
    destruct (key x <=? key y)%Z eqn:E.
    + apply Z.leb_le in E. constructor; [exact Hs|].
      constructor; [exact E|].
      eapply Forall_impl; [|exact Hy]. intros a Ha. simpl in Ha. lia.
    + apply Z.leb_gt in E. constructor; [now apply IH|].
      eapply (Permutation_Forall (P := fun b => (key y <= key b)%Z)).
      * apply Permutation_sym, insertByKey_perm.
      * constructor; [lia | exact Hy].
Qed.

Lemma insertByKey_filter {A} (key : A -> Z) (k : Z) (x : A) (l : list A) :
  filter (fun a => (key a =? k)%Z) (Migrator.insertByKey key x l)
  = filter (fun a => (key a =? k)%Z) (x :: l).
Proof.
  induction l as [|y l IH]; [reflexivity|].
  simpl Migrator.insertByKey.
  destruct (key x <=? key y)%Z eqn:E; [reflexivity|].
  apply Z.leb_gt in E.
  simpl filter in *. rewrite IH.
  destruct (key x =? k)%Z eqn:Ex; [|reflexivity].
  apply Z.eqb_eq in Ex.
  assert (Hy : (key y =? k)%Z = false) by (apply Z.eqb_neq; lia).
  rewrite Hy. reflexivity.
Qed.

(** X13.  The sort that ends
    [populatePackageJsonUpdatesAndGetPackagesToCheck] loses and
    duplicates nothing, leaves the items in increasing key order (the
    position of the package in the package group, [-1] first), and keeps
    items of equal key in the order they arrived in. *)
Theorem sortByKey_stable_sort {A} (key : A -> Z) (l : list A) :
  Permutation (Migrator.sortByKey key l) l
  /\ StronglySorted (fun a b => (key a <= key b)%Z) (Migrator.sortByKey key l)
  /\ forall k,
       filter (fun a => (key a =? k)%Z) (Migrator.sortByKey key l)
       = filter (fun a => (key a =? k)%Z) l.
Proof.
  unfold Migrator.sortByKey.
  induction l as [|x l (Hperm & Hsorted & Hstable)]; simpl fold_right.
  - repeat split; constructor.
  - split; [|split].
    + eapply perm_trans; [apply insertByKey_perm | now apply perm_skip].
    + now apply insertByKey_sorted.
    + intros k. rewrite insertByKey_filter. simpl. rewrite Hstable.
      reflexivity.
Qed.

(** ** Phase 2 emits no migration twice *)

Lemma filterR_keys {V} (p : string * V -> Result bool) (l ys : list (string * V)) :
  filterR p l = Ok ys ->
  NoDup (map fst l) ->
  NoDup (map fst ys) /\ forall k, In k (map fst ys) -> In k (map fst l).
Proof.
  revert ys. induction l as [|x xs IH]; simpl; intros ys.
  - intros [= <-] _. split; [constructor | auto].
  - destruct (p x) as [b| |]; simpl; try discriminate.
    destruct (filterR p xs) as [zs| |]; simpl; try discriminate.
    intros [= <-] Hnd. inversion Hnd as [|? ? Hx Hxs]; subst.
    destruct (IH zs eq_refl Hxs) as [Hzs Hsub].
    destruct b; simpl.
    + split.
      * constructor; auto.
      * intros k [<- | H]; auto.
    + split; auto.
Qed.

Section NoDuplicateMigrations.

Variable satisfies : string -> string -> bool.
Variable cleanSemver : string -> option string.
Variable getInstalledPackageVersion :
  string -> option (Obj.t string) -> option string.
Variable fetch : string -> string -> Result ResolvedMigrationConfiguration.
Variable excludeAppliedMigrations : bool.

Local Abbreviation migrationsOfPackage :=
  (Migrator.migrationsOfPackage satisfies cleanSemver getInstalledPackageVersion
     fetch excludeAppliedMigrations).

(** Fetched documents are parsed JSON objects: no key occurs twice among
    their [generators]. *)
Hypothesis generators_distinct :
  forall name version config generators,
    fetch name version = Ok config ->
    mc_generators config = Some generators ->
    NoDup (Obj.keys generators).

Lemma migrationsOfPackage_ids (st : State) (packageName : string)
    (ms : list Migration) :
  migrationsOfPackage st packageName = Ok ms ->
  NoDup (map m_name ms) /\ forall m, In m ms -> m_package m = packageName.
Proof.
  unfold Migrator.migrationsOfPackage.
  destruct (Migrator.getPkgVersion getInstalledPackageVersion st packageName)
    as [currentVersion|]; [|intros [= <-]; split; [constructor | intros m []]].
  destruct (Obj.get packageName (packageUpdates st)) as [planned|];
    [|discriminate].
  destruct (fetch packageName (pu_version planned)) as [config| |] eqn:Efetch;
    simpl; try discriminate.
  destruct (mc_generators config) as [generators|] eqn:Egen;
    [|intros [= <-]; split; [constructor | intros m []]].
  destruct (filterR _ _) as [kept| |] eqn:Efilter; simpl; try discriminate.
  intros [= <-].
  destruct (filterR_keys _ _ _ Efilter
              (generators_distinct _ _ _ _ Efetch Egen)) as [Hnd _].
  split.
  - rewrite map_map. exact Hnd.
  - intros m Hm. apply in_map_iff in Hm. destruct Hm as (e & <- & _).
    reflexivity.
Qed.

(** X14.  No migration is emitted twice: when no package occurs twice in
    the plan and no name twice among the generators of a fetched
    document, the pairs (package, name) of the migrations list are
    pairwise distinct. *)
Theorem createMigrateJson_no_duplicates (st : State) (migrations : list Migration) :
  NoDup (Obj.keys (packageUpdates st)) ->
  Migrator.createMigrateJson satisfies cleanSemver getInstalledPackageVersion
    fetch excludeAppliedMigrations st = Ok migrations ->
  NoDup (map migrationId migrations).
Proof.
  unfold Migrator.createMigrateJson.
  generalize (Obj.keys (packageUpdates st)) as keys.
  intros keys Hnd Hrun.
  destruct (mapR _ keys) as [perPackage| |] eqn:Emap; simpl in Hrun;
    try discriminate.
  injection Hrun as <-.
  revert perPackage Emap. induction Hnd as [|k ks Hk Hks IH]; simpl;
    intros perPackage.
  - intros [= <-]. constructor.
  - destruct (migrationsOfPackage st k) as [ms| |] eqn:Ek; simpl;
      try discriminate.
    destruct (mapR _ ks) as [rest| |] eqn:Erest; simpl; try discriminate.
    intros [= <-]. simpl. rewrite map_app.
    destruct (migrationsOfPackage_ids st k ms Ek) as [Hnames Hpkg].
    apply NoDup_app.
    + clear -Hnames Hpkg. induction ms as [|m ms IHms]; simpl; [constructor|].
      inversion Hnames as [|? ? Hm Hms]; subst.
      constructor.
      * intros Hin. apply in_map_iff in Hin. destruct Hin as (m' & Hid & Hm').
        apply Hm. apply in_map_iff. exists m'. split; [|exact Hm'].
        unfold migrationId in Hid. congruence.
      * apply IHms; auto. intros m' Hm'. apply Hpkg. now right.
    + now apply IH.
    + intros id Hid Hid'.
      apply in_map_iff in Hid. destruct Hid as (m & <- & Hm).
      apply in_map_iff in Hid'. destruct Hid' as (m' & Hsame & Hm').
      apply in_concat in Hm'. destruct Hm' as (ms' & Hms' & Hm').
      destruct (mapR_in _ _ _ Erest ms' Hms') as (k' & Hk' & Hrun').
      destruct (migrationsOfPackage_ids st k' ms' Hrun') as [_ Hpkg'].
      apply Hk. unfold migrationId in Hsame.
      assert (k' = k) by (rewrite <- (Hpkg' m' Hm'), <- (Hpkg m Hm); congruence).
      congruence.
Qed.

End NoDuplicateMigrations.

Lemma createMigrateJson_no_duplicates_witness :
  NoDup (map migrationId Scenario.migrations1).
Proof.
  apply (createMigrateJson_no_duplicates
           Scenario.satisfies Scenario.cleanSemver Scenario.installed1
           Scenario.fetch1 false) with (st := Scenario.final1).
  - intros name version config generators Hfetch Hgen.
    unfold Scenario.fetch1 in Hfetch.
    destruct (String.eqb name "pkg"); [|discriminate].
    injection Hfetch as <-. injection Hgen as <-.
    repeat constructor; simpl; intuition discriminate.
  - repeat constructor. simpl. tauto.
  - reflexivity.
Defined.

(** ** A target that is not installed *)

Section NotInstalled.

Variable satisfies : string -> string -> bool.
Variable cleanSemver : string -> option string.
Variable confirm : string -> bool.
Variable packageJson : PackageJson.
Variable getInstalledPackageVersion :
  string -> option (Obj.t string) -> option string.
Variable fetch : string -> string -> Result ResolvedMigrationConfiguration.
Variable to : Obj.t string.
Variable interactive : bool.
Variable excludeAppliedMigrations : bool.

(** X16.  Migrating to a package that is not installed, on a fresh
    planner, plans that package alone at the requested version and emits
    no migration; nothing is fetched (the result is the same for every
    [fetch]). *)
Theorem migrate_not_installed (fuel : nat) (targetPackage targetVersion : string)
    (from : Obj.t string) :
  getInstalledPackageVersion targetPackage (Some from) = None ->
  Migrator.migrate satisfies cleanSemver confirm packageJson
    getInstalledPackageVersion fetch to interactive excludeAppliedMigrations
    (S fuel) targetPackage targetVersion (mkState from [] [])
  = Ok ([(targetPackage, planEntry targetVersion AddFalse)], []).
Proof.
  intros Hnot. unfold Migrator.migrate.
  simpl Migrator.buildPackageJsonUpdates. unfold bind at 1.
  unfold Migrator.populateBody, Migrator.getPkgVersion.
  cbn [installedPkgVersionOverrides]. rewrite Hnot.
  cbn [JS.truthy negb mapM bind ret].
  unfold Migrator.addPackageUpdate. cbn [packageUpdates Obj.get].
  rewrite set_empty.
  cbn [pu_addToPackageJson planEntry orFalse pu_version
       installedPkgVersionOverrides collectedVersions].
  unfold Migrator.createMigrateJson, Migrator.migrationsOfPackage,
    Migrator.getPkgVersion.
  cbn [packageUpdates Obj.keys map fst mapR installedPkgVersionOverrides].
  rewrite Hnot. reflexivity.
Qed.

End NotInstalled.

Lemma migrate_not_installed_witness :
  Migrator.migrate Scenario.satisfies Scenario.cleanSemver Scenario.confirm
    Scenario.manifest1 Scenario.installed1 Scenario.fetch1 [] false false
    1 "ghost" "3.0.0" (mkState [] [] [])
  = Ok ([("ghost", planEntry "3.0.0" AddFalse)], []).
Proof.
  apply (migrate_not_installed
           Scenario.satisfies Scenario.cleanSemver Scenario.confirm
           Scenario.manifest1 Scenario.installed1 Scenario.fetch1 [] false false
           0 "ghost" "3.0.0" []).
  reflexivity.
Defined.

(** ** The children that survive the filter *)

Lemma fold_set_source {V W} (f : W -> V) (l : list (string * W))
    (acc : Obj.t V) (k : string) (v : V) :
  Obj.get k (fold_left (fun a c => Obj.set (fst c) (f (snd c)) a) l acc) = Some v ->
  (exists w, In (k, w) l /\ v = f w) \/ Obj.get k acc = Some v.
Proof.
  revert acc. induction l as [|[k0 w0] l IH]; simpl; intros acc H; auto.
  destruct (IH _ H) as [(w & Hin & Hv) | Hacc].
  - left. eauto.
  - rewrite get_set in Hacc. destruct (String.eqb k0 k) eqn:E.
    + apply String.eqb_eq in E. subst k0. injection Hacc as <-.
      left. eauto.
    + auto.
Qed.

(** X17.  Every child in the [packages] of a filtered update comes from a
    candidate child of the same name that passed the filter, with its
    version unchanged and [addToPackageJson] made definite; in particular
    a child whose version is not strictly greater than the version
    already collected for it is never propagated. *)
Theorem filterPackages_children (packageJson : PackageJson)
    (getInstalledPackageVersion : string -> option (Obj.t string) -> option string)
    (st : State) (packages : Obj.t PackageUpdate)
    (child : string) (kept : PackageUpdate) :
  Obj.get child
    (Migrator.filterPackages packageJson getInstalledPackageVersion st packages)
  = Some kept ->
  (exists candidate,
      In (child, candidate) packages
      /\ Migrator.keepsChild packageJson getInstalledPackageVersion st
           (child, candidate) = true
      /\ pu_version kept = pu_version candidate)
  /\ pu_addToPackageJson kept <> None
  /\ pu_ifPackageInstalled kept = None
  /\ forall collected,
       Obj.get child (collectedVersions st) = Some collected ->
       collected <> "" ->
       Semver.gt (normalizeVersion (pu_version kept)) (normalizeVersion collected)
       = Some true.
Proof.
  unfold Migrator.filterPackages. intros H.
  apply fold_set_source in H. destruct H as [(raw & Hin & ->) | H];
    [|discriminate].
  apply filter_In in Hin. destruct Hin as [Hin Hkeep].
  split; [exists raw; auto|].
  split; [discriminate|]. split; [reflexivity|].
  intros collected Hc Hne. unfold Migrator.keepsChild in Hkeep.
  apply andb_true_iff in Hkeep. destruct Hkeep as [_ Hgt].
  cbn [fst snd] in Hgt. rewrite Hc in Hgt.
  destruct collected as [|c s]; [congruence|].
  rewrite gt_total. cbn [Migrator.rewriteChild planEntry pu_version].
  rewrite Hgt. reflexivity.
Qed.

Lemma filterPackages_children_witness :
  (exists candidate,
      In ("dep", candidate) [("dep", mkPackageUpdate "3.0.0" None None None)]
      /\ Migrator.keepsChild Scenario.manifest3 Scenario.installed1
           Scenario.initial ("dep", candidate) = true
      /\ pu_version (planEntry "3.0.0" AddFalse) = pu_version candidate)
  /\ pu_addToPackageJson (planEntry "3.0.0" AddFalse) <> None
  /\ pu_ifPackageInstalled (planEntry "3.0.0" AddFalse) = None
  /\ forall collected,
       Obj.get "dep" (collectedVersions Scenario.initial) = Some collected ->
       collected <> "" ->
       Semver.gt (normalizeVersion (pu_version (planEntry "3.0.0" AddFalse)))
                 (normalizeVersion collected)
       = Some true.
Proof.
  apply (filterPackages_children Scenario.manifest3 Scenario.installed1
           Scenario.initial
           [("dep", mkPackageUpdate "3.0.0" None None None)] "dep").
  reflexivity.
Defined.

(** ** A package is visited again only for a greater version *)

Lemma visits_only_ret {A} (a : A) : visits_only (ret a).
Proof. intros st a' st' [= _ <-]. apply rt_refl. Qed.

Lemma visits_only_bind {A B} (m : M A) (f : A -> M B) :
  visits_only m -> (forall a, visits_only (f a)) -> visits_only (bind m f).
Proof.
  intros Hm Hf st b st'. unfold bind.
  destruct (m st) as [[a st1]| |] eqn:E; try discriminate.
  intros H. eapply rt_trans; [eapply Hm; eauto | eapply Hf; eauto].
Qed.

Lemma visits_only_mapM {A B} (f : A -> M B) (l : list A) :
  (forall x, visits_only (f x)) -> visits_only (mapM f l).
Proof.
  intros Hf. induction l as [|x xs IH]; simpl.
  - apply visits_only_ret.
  - apply visits_only_bind; [apply Hf|]. intros y.
    apply visits_only_bind; [apply IH|]. intros ys. apply visits_only_ret.
Qed.

Lemma expandGroup_visits (packageName targetVersion : string)
    (packageGroup : ArrayPackageGroup) (packages : Obj.t PackageUpdate) (st : State) :
  visit_run st
    (snd (Migrator.expandGroup packageName targetVersion packageGroup packages st)).
Proof.
  revert packages st.
  induction packageGroup as [|packageConfig rest IH]; intros packages st; simpl.
  - apply rt_refl.
  - eapply rt_trans; [|apply IH].
    destruct (String.eqb (pg_version packageConfig) "*"); [|apply rt_refl].
    destruct (Obj.get packageName (installedPkgVersionOverrides st))
      as [[|c v]|]; try apply rt_refl.
    apply rt_step. constructor.
Qed.

Section VisitProperties.

Variable satisfies : string -> string -> bool.
Variable cleanSemver : string -> option string.
Variable confirm : string -> bool.
Variable packageJson : PackageJson.
Variable getInstalledPackageVersion :
  string -> option (Obj.t string) -> option string.
Variable fetch : string -> string -> Result ResolvedMigrationConfiguration.
Variable to : Obj.t string.
Variable interactive : bool.

Local Abbreviation populate :=
  (Migrator.populatePackageJsonUpdatesAndGetPackagesToCheck
     packageJson getInstalledPackageVersion fetch to interactive).
Local Abbreviation build :=
  (Migrator.buildPackageJsonUpdates satisfies cleanSemver confirm packageJson
     getInstalledPackageVersion fetch to interactive).

Lemma fromMigrationConfig_visits (packageName targetVersion : string)
    (migrationConfig : ResolvedMigrationConfiguration) :
  visits_only (Migrator.getPackageJsonUpdatesFromMigrationConfig
                 packageJson getInstalledPackageVersion
                 packageName targetVersion migrationConfig).
Proof.
  unfold Migrator.getPackageJsonUpdatesFromMigrationConfig.
  apply visits_only_bind.
  - intros st a st'. unfold Migrator.getPackageJsonUpdatesFromPackageGroup.
    destruct (Migrator.selectPackageGroup _ _ _) as [[|e rest]| |];
      cbn [bindR]; try discriminate.
    + intros [= _ <-]. apply rt_refl.
    + pose proof (expandGroup_visits packageName targetVersion (e :: rest)
                    Obj.empty st) as Hrun.
      destruct (Migrator.expandGroup _ _ (e :: rest) _ st) as [packages st1].
      intros [= _ <-]. exact Hrun.
  - intros [order config'] st a st'.
    destruct (mc_packageJsonUpdates config') as [updates|];
      [|intros [= _ <-]; apply rt_refl].
    destruct (negb _); [intros [= _ <-]; apply rt_refl|].
    destruct (Migrator.filterPackageJsonUpdates _ _ _ _ _ _); simpl;
      try discriminate.
    intros [= _ <-]. apply rt_refl.
Qed.

Lemma populateBody_visits recurse targetPackage target :
  (forall name update, visits_only (recurse name update)) ->
  visits_only (Migrator.populateBody packageJson getInstalledPackageVersion
                 fetch to interactive recurse targetPackage target).
Proof.
  intros Hrec st a st'. unfold Migrator.populateBody.
  destruct (negb _).
  { intros [= _ <-]. apply rt_step. constructor. }
  destruct (Migrator.fetchOrExplain _ _ _) as [config| |]; simpl;
    try discriminate.
  unfold Migrator.populateAfterFetch.
  assert (Hcont :
    JS.truthy (Obj.get targetPackage (collectedVersions st)) = false
    \/ (exists collected,
           Obj.get targetPackage (collectedVersions st) = Some collected
           /\ Semver.gte collected (mc_version config) = Some false) ->
    Migrator.populateAfterCheck packageJson getInstalledPackageVersion interactive
      recurse targetPackage target config
      (Migrator.setCollectedVersion targetPackage (mc_version config) st)
    = Ok (a, st') -> visit_run st st').
  { intros Hguard H. eapply rt_trans.
    - apply rt_step. apply visit_collect. exact Hguard.
    - revert H. unfold Migrator.populateAfterCheck.
      apply visits_only_bind.
      { intros s x s' [= _ <-]. apply rt_step. constructor. }
      intros _. apply visits_only_bind; [apply fromMigrationConfig_visits|].
      intros [updates order]. destruct updates as [|u updates];
        [apply visits_only_ret|].
      destruct (existsb _ _); [apply visits_only_ret|].
      apply visits_only_bind.
      + apply visits_only_mapM. intros x. apply Hrec.
      + intros results. apply visits_only_ret. }
  destruct (Obj.get targetPackage (collectedVersions st)) as [[|c v]|] eqn:E;
    try (apply Hcont; left; reflexivity).
  destruct (Semver.gte (String c v) (mc_version config)) as [[|]|] eqn:G;
    try discriminate.
  - intros [= _ <-]. apply rt_refl.
  - apply Hcont. right. eauto.
Qed.

Lemma populate_visits fuel targetPackage target :
  visits_only (populate fuel targetPackage target).
Proof.
  revert targetPackage target.
  induction fuel as [|fuel IH]; intros targetPackage target; simpl.
  - intros st a st'. discriminate.
  - apply populateBody_visits. exact IH.
Qed.

Lemma build_visits fuel targetPackage target :
  visits_only (build fuel targetPackage target).
Proof.
  revert targetPackage target.
  induction fuel as [|fuel IH]; intros targetPackage target; simpl.
  - intros st a st'. discriminate.
  - apply visits_only_bind; [apply (populate_visits (S fuel))|].
    intros packagesToCheck.
    apply visits_only_bind; [|intros; apply visits_only_ret].
    apply visits_only_mapM. intros packageToCheck.
    apply visits_only_bind.
    { intros st a st'.
      destruct (Migrator.admitUpdates _ _ _ _ _ _ _ _); simpl; try discriminate.
      intros [= _ <-]. apply rt_refl. }
    intros filteredUpdates.
    apply visits_only_bind; [|intros; apply visits_only_ret].
    apply visits_only_mapM. intros e. apply IH.
Qed.

Lemma visit_write_grows (st st' : State) :
  visit_write st st' -> collected_grows st st'.
Proof.
  intros [name packageUpdate s | name version s Hguard | child version s].
  - intros p c Hc Hne. exists c. unfold Migrator.addPackageUpdate.
    destruct (Obj.get name (packageUpdates s)); [destruct (Migrator.gt _ _)|];
      auto.
  - intros p c Hc Hne. simpl. rewrite get_set.
    destruct (String.eqb name p) eqn:E; [|exists c; auto].
    apply String.eqb_eq in E. subst p. rewrite Hc in Hguard.
    destruct Hguard as [Hfalsy | (c0 & [= <-] & Hgte)].
    + destruct c; [congruence | discriminate].
    + exists version. split; [reflexivity|].
      unfold Semver.gte, Semver.gt, Semver.compare in *.
      destruct (Semver.construct c) as [x|]; [|discriminate].
      destruct (Semver.construct version) as [y|] eqn:Ey; [|discriminate].
      split.
      * intros ->. vm_compute in Ey. discriminate.
      * right. simpl in *.
        rewrite (compareSemVer_antisym x y).
        destruct (Semver.compareSemVer x y); simpl in *; congruence.
  - intros p c Hc Hne. exists c. unfold Migrator.defaultOverride.
    destruct (Obj.get child (installedPkgVersionOverrides s)); auto.
Qed.

End VisitProperties.

(** X15.  The version recorded in [collectedVersions] for a package never
    decreases: along any sequence of the planner's writes as the methods
    guard them, hence under any interleaving of its asynchronous calls,
    it is kept or replaced by a strictly greater version, so a package is
    processed again only for a version above every version it was
    processed for. *)
Theorem collectedVersions_monotone (st st' : State) :
  visit_run st st' ->
  forall p collected,
    Obj.get p (collectedVersions st) = Some collected ->
    collected <> "" ->
    exists collected',
      Obj.get p (collectedVersions st') = Some collected'
      /\ collected' <> ""
      /\ (collected' = collected \/ Semver.gt collected' collected = Some true).
Proof.
  intros Hrun. change (collected_grows st st').
  induction Hrun as [s s' Hstep | s | s1 s2 s3 _ IH12 _ IH23].
  - now apply visit_write_grows.
  - intros p c Hc Hne. exists c. auto.
  - intros p c Hc Hne.
    destruct (IH12 p c Hc Hne) as (c2 & Hc2 & Hne2 & Hcmp2).
    destruct (IH23 p c2 Hc2 Hne2) as (c3 & Hc3 & Hne3 & Hcmp3).
    exists c3. repeat split; auto.
    destruct Hcmp3 as [-> | H3]; [exact Hcmp2|].
    destruct Hcmp2 as [-> | H2]; [now right|].
    right. eapply semver_gt_trans; eauto.
Qed.

(** Scenario 2 on a planner that has already processed [root] at
    [1.0.0]: the run of Phase 1 is a sequence of guarded writes, and
    [root] is collected again at a greater version. *)
Lemma collectedVersions_monotone_witness :
  exists collected',
    Obj.get "root" (collectedVersions CollectedRun.after) = Some collected'
    /\ collected' <> ""
    /\ (collected' = "1.0.0" \/ Semver.gt collected' "1.0.0" = Some true).
Proof.
  apply (collectedVersions_monotone CollectedRun.before CollectedRun.after).
  - apply (build_visits
             Scenario.satisfies Scenario.cleanSemver Scenario.confirm
             Scenario.manifest2 Scenario.installed2 Scenario.fetch2 [] false
             5 "root" (planEntry "2.0.0" AddFalse) CollectedRun.before tt).
    vm_compute. reflexivity.
  - reflexivity.
  - discriminate.
Defined.

(** ** The fetcher *)

Lemma append_inv_head (a b c : string) : a ++ b = a ++ c -> b = c.
Proof.
  induction a as [|x a IH]; simpl; auto. intros [= H]. auto.
Qed.

Lemma cacheKeyOf_version (packageName v1 v2 : string) :
  cacheKeyOf packageName v1 = cacheKeyOf packageName v2 -> v1 = v2.
Proof.
  unfold cacheKeyOf. intros H. apply append_inv_head in H.
  now apply (append_inv_head "-") in H.
Qed.

Lemma resolveVersion_keeps_migrations (registry : Registry)
    (packageName packageVersion : string) (st : FetcherState) :
  migrationsCache (snd (resolveVersion registry packageName packageVersion st))
  = migrationsCache st.
Proof.
  unfold resolveVersion.
  destruct (Obj.get _ (resolvedVersionCache st)) as [[[|c s]| |]|]; reflexivity.
Qed.

(** The state and outcome of a call that misses the cache. *)
Lemma nxMigrateFetcher_miss (registry : Registry)
    (packageName packageVersion : string) (st : FetcherState) :
  Obj.get (cacheKeyOf packageName packageVersion) (migrationsCache st) = None ->
  exists outcome cachedAs st1,
    fetchMigrations registry packageName packageVersion st
    = (outcome, cachedAs, st1)
    /\ migrationsCache st1 = migrationsCache st
    /\ fst (nxMigrateFetcher registry packageName packageVersion st)
       = bindR outcome (fun result => Ok (renameSchematics result))
    /\ migrationsCache
         (snd (nxMigrateFetcher registry packageName packageVersion st))
       = match cachedAs with
         | Some resolvedVersion =>
             Obj.set (cacheKeyOf packageName resolvedVersion)
               (bindR outcome (fun result => Ok (renameSchematics result)))
               (Obj.set (cacheKeyOf packageName packageVersion)
                  (bindR outcome (fun result => Ok (renameSchematics result)))
                  (migrationsCache st))
         | None =>
             Obj.set (cacheKeyOf packageName packageVersion)
               (bindR outcome (fun result => Ok (renameSchematics result)))
               (migrationsCache st)
         end.
Proof.
  intros Hmiss. unfold nxMigrateFetcher. rewrite Hmiss.
  pose proof (resolveVersion_keeps_migrations registry packageName
                packageVersion st) as Hkeep.
  unfold fetchMigrations.
  destruct (resolveVersion registry packageName packageVersion st)
    as [resolved st1]. simpl in Hkeep.
  destruct (viaRegistry registry packageName packageVersion resolved st1)
    as [outcome cachedAs].
  destruct outcome as [result| |]; eexists; exists cachedAs, st1;
    (split; [reflexivity|]); (split; [exact Hkeep|]);
    rewrite <- Hkeep; destruct cachedAs; split; reflexivity.
Qed.

(** X18.  A second fetch of the same package and version returns what the
    first returned, leaves the caches alone and does not consult the
    registry (it gives the same answer for any registry). *)
Theorem nxMigrateFetcher_memoizes (registry registry' : Registry)
    (packageName packageVersion : string) (st : FetcherState) :
  nxMigrateFetcher registry' packageName packageVersion
    (snd (nxMigrateFetcher registry packageName packageVersion st))
  = nxMigrateFetcher registry packageName packageVersion st.
Proof.
  destruct (Obj.get (cacheKeyOf packageName packageVersion) (migrationsCache st))
    as [cached|] eqn:E.
  - unfold nxMigrateFetcher at 2 3. rewrite E. simpl snd.
    unfold nxMigrateFetcher. rewrite E. reflexivity.
  - destruct (nxMigrateFetcher_miss registry _ _ st E)
      as (outcome & cachedAs & st1 & _ & _ & Hfst & Hcache).
    destruct (nxMigrateFetcher registry packageName packageVersion st)
      as [first st2]. simpl in *.
    unfold nxMigrateFetcher.
    assert (Hhit : Obj.get (cacheKeyOf packageName packageVersion)
                     (migrationsCache st2) = Some first).
    { rewrite Hcache, Hfst. destruct cachedAs as [rv|].
      - rewrite get_set.
        destruct (String.eqb _ _); [reflexivity | apply get_set_same].
      - apply get_set_same. }
    rewrite Hhit. reflexivity.
Qed.

(** X19.  When a fetch of [name@version] misses the cache and the
    version resolves to [resolved], a later fetch of [name@resolved] is
    served from the cache, whatever the registry; if [name@resolved] was
    not cached before, it is served the same outcome. *)
Theorem nxMigrateFetcher_caches_resolved (registry registry' : Registry)
    (packageName packageVersion resolved : string) (st : FetcherState) :
  Obj.get (cacheKeyOf packageName packageVersion) (migrationsCache st) = None ->
  fst (resolveVersion registry packageName packageVersion st) = Ok resolved ->
  let first := nxMigrateFetcher registry packageName packageVersion st in
  exists served,
    nxMigrateFetcher registry' packageName resolved (snd first)
    = (served, snd first)
    /\ (Obj.get (cacheKeyOf packageName resolved) (migrationsCache st) = None ->
        served = fst first).
Proof.
  intros Hmiss Hres first. subst first.
  destruct (nxMigrateFetcher_miss registry _ _ st Hmiss)
    as (outcome & cachedAs & st1 & Hfetch & Hkeep & Hfst & Hcache).
  unfold fetchMigrations in Hfetch.
  pose proof (resolveVersion_keeps_migrations registry packageName
                packageVersion st) as Hkeep'.
  destruct (resolveVersion registry packageName packageVersion st)
    as [r st0]. simpl in Hres, Hkeep'. subst r.
  unfold viaRegistry in Hfetch. rewrite Hkeep' in Hfetch.
  destruct (nxMigrateFetcher registry packageName packageVersion st)
    as [first st2]. simpl in *.
  assert (Hserved : forall served,
             Obj.get (cacheKeyOf packageName resolved) (migrationsCache st2)
             = Some served ->
             nxMigrateFetcher registry' packageName resolved st2 = (served, st2)).
  { intros served H. unfold nxMigrateFetcher. rewrite H. reflexivity. }
  destruct (Obj.get (cacheKeyOf packageName resolved) (migrationsCache st))
    as [cached|] eqn:Ecached.
  - destruct (String.eqb resolved packageVersion) eqn:Eeq.
    + apply String.eqb_eq in Eeq. subst resolved. congruence.
    + simpl negb in Hfetch. cbv iota in Hfetch.
      assert (cachedAs = None).
      { destruct (bindR cached _); injection Hfetch as _ <- _; reflexivity. }
      subst cachedAs. exists cached. split; [|discriminate].
      apply Hserved. rewrite Hcache, get_set.
      destruct (String.eqb (cacheKeyOf packageName packageVersion)
                           (cacheKeyOf packageName resolved)) eqn:Ek;
        [|exact Ecached].
      apply String.eqb_eq, cacheKeyOf_version in Ek. subst resolved.
      rewrite String.eqb_refl in Eeq. discriminate.
  - assert (cachedAs = Some resolved).
    { destruct (getPackageMigrationsUsingRegistry registry packageName resolved);
        injection Hfetch as _ <- _; reflexivity. }
    subst cachedAs. exists first. split; [|reflexivity].
    apply Hserved. rewrite Hcache, Hfst. apply get_set_same.
Qed.

Lemma nxMigrateFetcher_caches_resolved_witness :
  exists served,
    nxMigrateFetcher Registries.offline "pkg" "2.0.0"
      (snd (nxMigrateFetcher Registries.online "pkg" "^2" Registries.empty))
    = (served,
       snd (nxMigrateFetcher Registries.online "pkg" "^2" Registries.empty))
    /\ (Obj.get (cacheKeyOf "pkg" "2.0.0") (migrationsCache Registries.empty)
        = None ->
        served
        = fst (nxMigrateFetcher Registries.online "pkg" "^2" Registries.empty)).
Proof.
  apply (nxMigrateFetcher_caches_resolved Registries.online Registries.offline
           "pkg" "^2" "2.0.0" Registries.empty); reflexivity.
Defined.

(** X20.  A fetch that is not served from the cache fails only when the
    fetch through a scratch install fails, and then with the install's
    error: no failure of the registry (resolution, view, or a migrations
    file missing from the tarball) reaches the caller. *)
Theorem nxMigrateFetcher_fails_like_install (registry : Registry)
    (packageName packageVersion message : string) (st : FetcherState) :
  Obj.get (cacheKeyOf packageName packageVersion) (migrationsCache st) = None ->
  fst (nxMigrateFetcher registry packageName packageVersion st) = Throw message ->
  getPackageMigrationsUsingInstall registry packageName packageVersion
  = Throw message.
Proof.
  intros Hmiss.
  destruct (nxMigrateFetcher_miss registry _ _ st Hmiss)
    as (outcome & cachedAs & st1 & Hfetch & _ & -> & _).
  unfold fetchMigrations in Hfetch.
  destruct (resolveVersion registry packageName packageVersion st) as [r st0].
  destruct (viaRegistry registry packageName packageVersion r st0) as [o c].
  destruct o as [result| |]; injection Hfetch as <- _ _; simpl;
    try discriminate;
    destruct (getPackageMigrationsUsingInstall registry packageName packageVersion);
    simpl; congruence.
Qed.

Lemma nxMigrateFetcher_fails_like_install_witness :
  getPackageMigrationsUsingInstall Registries.offline "pkg" "2.0.0"
  = Throw "install failed".
Proof.
  apply (nxMigrateFetcher_fails_like_install Registries.offline "pkg" "2.0.0"
           "install failed" Registries.empty); reflexivity.
Defined.

Example fetch_renames_schematics :
  fst (nxMigrateFetcher Registries.online "pkg" "^2" Registries.empty)
  = Ok (mkConfig "2.0.0" None None
          (Some [("m1", Scenario.noMigration "2.0.0")])).
Proof. reflexivity. Qed.
